(** * A retrieval-and-grounding pipeline over one PDF document

    A shallow embedding of the [rag_pdf_agent] package: the chunker of
    [ingest.py], the vector retriever of [retriever.py], the response helpers
    of [prompt.py] and [validate.py] and the chat agent of [chat.py],
    together with the properties its specification states about them.

    Conventions.
    - A Python [str] is a list of characters; a character is a code point
      below 256, on which [isspace], [lower] and the regular expression class
      [\d] are those of Python.
    - A Python [int] is a [Z].
    - A [while] loop is a function with fuel: [None] is "has not finished
      within the fuel given".
    - A call that may raise returns a [result]. *)

From Stdlib Require Import ZArith List Ascii String Bool Arith Lia.
From Stdlib Require Import DecimalString DecimalPos DecimalN DecimalZ.
From Stdlib Require Import Sorted Permutation.
Import ListNotations.

Set Implicit Arguments.

(* ================================================================== *)
(** * Python values *)
(* ================================================================== *)

(** Exceptions the package raises or lets through. *)
Inductive exn : Type :=
| ValueError
| RuntimeError
| IndexError
| AssertionError
| FileNotFoundError
| NameError
| AttributeError
| GeneratorError.

(** The outcome of a call: a value, or an exception raised. *)
Inductive result (A : Type) : Type :=
| Ok (a : A)
| Raise (e : exn).

Arguments Ok {A} a.
Arguments Raise {A} e.

Definition raises {A} (r : result A) : Prop := exists e, r = Raise e.

Definition str : Type := list ascii.

(** A literal of the source. *)
Definition lit (s : string) : str := list_ascii_of_string s.

Definition chr (n : nat) : ascii := ascii_of_nat n.
Definition ord (c : ascii) : nat := nat_of_ascii c.

Definition nl : str := [chr 10].
Definition dq : str := [chr 34].

Definition len {A} (l : list A) : Z := Z.of_nat (List.length l).

Module PyStr.

(** [str.isspace] on one character: the code points below 256 that Python
    counts as whitespace. *)
Definition isspace (c : ascii) : bool :=
  let n := ord c in
  ((9 <=? n) && (n <=? 13) || (28 <=? n) && (n <=? 32)
   || (n =? 133) || (n =? 160))%nat.

(** The class [\d] of [re] on a [str] pattern: below 256 the decimal digits
    are ['0'] to ['9']. *)
Definition isdigit (c : ascii) : bool :=
  let n := ord c in ((48 <=? n) && (n <=? 57))%nat.

(** [str.lower] on one character: ['A'-'Z'] and the upper-case letters of
    Latin-1 (U+00C0 to U+00DE without U+00D7) move up by 32. *)
Definition lower_char (c : ascii) : ascii :=
  let n := ord c in
  if ((65 <=? n) && (n <=? 90)
      || (192 <=? n) && (n <=? 222) && negb (n =? 215))%nat
  then chr (n + 32) else c.

Definition lower (s : str) : str := map lower_char s.

Fixpoint lstrip (s : str) : str :=
  match s with
  | [] => []
  | c :: s' => if isspace c then lstrip s' else s
  end.

Definition rstrip (s : str) : str := rev (lstrip (rev s)).

(** [s.strip()] *)
Definition strip (s : str) : str := rstrip (lstrip s).

(** Truth value of a sequence: non-empty. *)
Definition truthy {A} (l : list A) : bool :=
  match l with [] => false | _ :: _ => true end.

(** An index of a slice, brought into [0, n] as [PySlice_AdjustIndices]
    does for a step of 1. *)
Definition adjust (n i : Z) : Z :=
  if (i <? 0)%Z then Z.max (i + n) 0 else Z.min i n.

(** [l[start:stop]] *)
Definition slice {A} (l : list A) (start stop : Z) : list A :=
  let lo := adjust (len l) start in
  let hi := adjust (len l) stop in
  firstn (Z.to_nat (hi - lo)) (skipn (Z.to_nat lo) l).

(** [l[i]]: a negative index counts from the end; out of range raises. *)
Definition index {A} (l : list A) (i : Z) : result A :=
  let j := if (i <? 0)%Z then (i + len l)%Z else i in
  if ((0 <=? j) && (j <? len l))%Z then
    match nth_error l (Z.to_nat j) with
    | Some a => Ok a
    | None => Raise IndexError
    end
  else Raise IndexError.

Definition str_eqb (a b : str) : bool :=
  if list_eq_dec ascii_dec a b then true else false.

(** [p] is a prefix of [s]. *)
Fixpoint startswith (p s : str) : bool :=
  match p, s with
  | [], _ => true
  | _ :: _, [] => false
  | a :: p', b :: s' => Ascii.eqb a b && startswith p' s'
  end.

(** [sub in s] *)
Fixpoint contains (sub s : str) : bool :=
  startswith sub s ||
  match s with
  | [] => false
  | _ :: s' => contains sub s'
  end.

(** [s.split()]: the maximal runs of non-whitespace characters. [cur] is the
    run being read, in reverse. *)
Fixpoint split_aux (cur : str) (s : str) : list str :=
  match s with
  | [] => if truthy cur then [rev cur] else []
  | c :: s' =>
      if isspace c
      then (if truthy cur then rev cur :: split_aux [] s' else split_aux [] s')
      else split_aux (c :: cur) s'
  end.

Definition split (s : str) : list str := split_aux [] s.

(** [str(z)], also what an f-string writes for an [int] field. *)
Definition of_int (z : Z) : str :=
  lit (NilEmpty.string_of_int (Z.to_int z)).

(** [int(s)] for [s] a decimal numeral with an optional minus sign; [None]
    stands for [ValueError]. *)
Definition to_int (s : str) : option Z :=
  option_map Z.of_int (NilEmpty.int_of_string (string_of_list_ascii s)).

(** [sep.join(parts)] *)
Fixpoint join (sep : str) (parts : list str) : str :=
  match parts with
  | [] => []
  | [p] => p
  | p :: ps => p ++ sep ++ join sep ps
  end.

End PyStr.

(* ================================================================== *)
(** * ingest.py *)
(* ================================================================== *)

Module Ingest.
Import PyStr.

Record PDFChunk : Type := mkPDFChunk {
  text : str;
  page_number : Z;
  chunk_id : Z
}.

(** [PDFChunk.get_citation] *)
Definition get_citation (self : PDFChunk) : str :=
  lit "[p" ++ of_int (page_number self) ++ lit ":c"
          ++ of_int (chunk_id self) ++ lit "]".

Record PDFIngestor : Type := mkPDFIngestor {
  chunk_size : Z;
  chunk_overlap : Z
}.

(** [PDFIngestor.__init__]: stores its two arguments; no check is made. *)
Definition __init__ (chunk_size chunk_overlap : Z) : result PDFIngestor :=
  Ok (mkPDFIngestor chunk_size chunk_overlap).

Record page_data : Type := mkPage {
  pd_page_number : Z;
  pd_text : str
}.

(** [PDFIngestor.extract_text_from_pdf], after the reader has produced the
    text of each page: pages are numbered from 1 and those whose text is
    empty or blank are left out. *)
Fixpoint extract_pages (page_num : Z) (reader_pages : list str)
  : list page_data :=
  match reader_pages with
  | [] => []
  | t :: rest =>
      if truthy t && truthy (strip t)
      then mkPage page_num t :: extract_pages (page_num + 1) rest
      else extract_pages (page_num + 1) rest
  end.

Definition extract_text_from_pdf (reader_pages : list str) : list page_data :=
  extract_pages 1 reader_pages.

(** The loop of [chunk_text]; [chunks], [chunk_id] and [start] are its three
    variables. *)
Fixpoint chunk_loop (fuel : nat) (self : PDFIngestor) (text : str)
    (page_number : Z) (chunks : list PDFChunk) (chunk_id start : Z)
  : option (list PDFChunk) :=
  match fuel with
  | O => None
  | S fuel' =>
      if (start <? len text)%Z then
        let end_ := (start + chunk_size self)%Z in
        let chunk_text := slice text start end_ in
        let '(chunks', chunk_id') :=
          if truthy (strip chunk_text)
          then (chunks ++ [mkPDFChunk (strip chunk_text) page_number chunk_id],
                (chunk_id + 1)%Z)
          else (chunks, chunk_id) in
        chunk_loop fuel' self text page_number chunks' chunk_id'
          (start + (chunk_size self - chunk_overlap self))%Z
      else Some chunks
  end.

(** [PDFIngestor.chunk_text] run for [fuel] iterations at most. *)
Definition chunk_text_fuel (fuel : nat) (self : PDFIngestor) (text : str)
    (page_number start_chunk_id : Z) : option (list PDFChunk) :=
  chunk_loop fuel self text page_number [] start_chunk_id 0.

(** [PDFIngestor.chunk_text]: with a positive step the loop ends within
    [len(text)] iterations, and one more sees the test fail. *)
Definition chunk_text (self : PDFIngestor) (text : str)
    (page_number start_chunk_id : Z) : option (list PDFChunk) :=
  chunk_text_fuel (S (List.length text)) self text page_number start_chunk_id.

(** The loop of [ingest_pdf] over the extracted pages. *)
Fixpoint ingest_loop (self : PDFIngestor) (pages : list page_data)
    (all_chunks : list PDFChunk) (chunk_id : Z) : option (list PDFChunk) :=
  match pages with
  | [] => Some all_chunks
  | page :: rest =>
      match chunk_text self (pd_text page) (pd_page_number page) chunk_id with
      | None => None
      | Some page_chunks =>
          ingest_loop self rest (all_chunks ++ page_chunks)
            (chunk_id + len page_chunks)%Z
      end
  end.

(** [PDFIngestor.ingest_pdf] on the pages the reader produced. *)
Definition ingest_pdf (self : PDFIngestor) (reader_pages : list str)
  : option (list PDFChunk) :=
  ingest_loop self (extract_text_from_pdf reader_pages) [] 0.

End Ingest.

(* ================================================================== *)
(** * retriever.py *)
(* ================================================================== *)

(** What the retriever takes from outside the package: the sentence
    embedding model and the arithmetic of 32-bit floats. A [vec] is an
    embedding after [faiss.normalize_L2]; a [score] is a float. *)
Class Backend : Type := {
  vec : Type;
  score : Type;
  (** [embedding_model.encode] of one text, then [normalize_L2] *)
  encode : str -> vec;
  (** the inner product [IndexFlatIP] compares by *)
  inner_product : vec -> vec -> score;
  (** [a < b] on scores *)
  score_ltb : score -> score -> bool;
  (** the lowest finite float, the score of a missing result *)
  FLT_LOWEST : score;
  (** the conversion [f"{score:.3f}"] *)
  format_3f : score -> str
}.

Module Faiss.
Section WithBackend.
Context {B : Backend}.

(** [faiss.IndexFlatIP]: the vectors added, in order. A vector's label is
    its position. *)
Definition IndexFlatIP : Type := list vec.

(** One row of a search result: label and score. *)
Definition hit : Type := (Z * score)%type.

(** Rank a hit into a list ranked by descending score; on equal scores the
    hit met first stays first. *)
Fixpoint rank_insert (h : hit) (ranked : list hit) : list hit :=
  match ranked with
  | [] => [h]
  | h' :: rest =>
      if score_ltb (snd h) (snd h')
      then h' :: rank_insert h rest
      else h :: ranked
  end.

Fixpoint label_from (i : Z) (scores : list score) : list hit :=
  match scores with
  | [] => []
  | s :: rest => (i, s) :: label_from (i + 1) rest
  end.

(** [index.search(x, k)] for one query vector: the [k] stored vectors of
    highest inner product, best first; when fewer than [k] vectors are
    stored the missing rows carry the label [-1] and the lowest score.
    The Python wrapper asserts [k > 0]. The result is the pair
    [(scores[0], indices[0])]. *)
Definition search (index : IndexFlatIP) (x : vec) (k : Z)
  : result (list score * list Z) :=
  if (k <=? 0)%Z then Raise AssertionError else
  let hits := label_from 0 (map (inner_product x) index) in
  let ranked := fold_right rank_insert [] hits in
  let found := firstn (Z.to_nat k) ranked in
  let rows := found ++ repeat ((-1)%Z, FLT_LOWEST)
                              (Z.to_nat k - List.length found) in
  Ok (map snd rows, map fst rows).

End WithBackend.
End Faiss.

Module Retriever.
Import PyStr Ingest.
Section WithBackend.
Context {B : Backend}.

Record VectorRetriever : Type := mkVectorRetriever {
  index : option Faiss.IndexFlatIP;
  chunks : list PDFChunk
}.

(** [VectorRetriever.__init__] *)
Definition new : VectorRetriever := mkVectorRetriever None [].

(** [VectorRetriever.build_index] *)
Definition build_index (self : VectorRetriever) (chunks : list PDFChunk)
  : result VectorRetriever :=
  if negb (truthy chunks) then Raise ValueError else
  let texts := map text chunks in
  let embeddings := map encode texts in
  Ok (mkVectorRetriever (Some embeddings) chunks).

(** The loop of [retrieve] over [zip(indices[0], scores[0])]. *)
Fixpoint retrieve_loop (chunks : list PDFChunk) (rows : list (Z * score))
    (results : list (PDFChunk * score)) : result (list (PDFChunk * score)) :=
  match rows with
  | [] => Ok results
  | (idx, sc) :: rest =>
      if (idx <? len chunks)%Z then
        match PyStr.index chunks idx with
        | Ok c => retrieve_loop chunks rest (results ++ [(c, sc)])
        | Raise e => Raise e
        end
      else retrieve_loop chunks rest results
  end.

(** [VectorRetriever.retrieve] *)
Definition retrieve (self : VectorRetriever) (query : str) (top_k : Z)
  : result (list (PDFChunk * score)) :=
  match index self with
  | None => Raise RuntimeError
  | Some idx =>
      let query_embedding := encode query in
      match Faiss.search idx query_embedding top_k with
      | Raise e => Raise e
      | Ok (scores, indices) =>
          retrieve_loop (chunks self) (combine indices scores) []
      end
  end.

(** [VectorRetriever.load_index] on the two artifacts of the directory,
    [None] for a file that is not there. *)
Definition load_index (self : VectorRetriever)
    (faiss_index : option Faiss.IndexFlatIP)
    (chunks_pkl : option (list PDFChunk)) : result VectorRetriever :=
  match faiss_index with
  | None => Raise FileNotFoundError
  | Some idx =>
      match chunks_pkl with
      | None => Raise FileNotFoundError
      | Some cs => Ok (mkVectorRetriever (Some idx) cs)
      end
  end.

End WithBackend.
End Retriever.

(* ================================================================== *)
(** * Formatted string literals *)
(* ================================================================== *)

(** An f-string is a sequence of literal text and replacement fields; a
    field that is a bare name is looked up in the scope of the function
    that evaluates the literal, and a name bound nowhere raises
    [NameError]. Fields are evaluated from left to right. *)
Module FString.

Inductive part : Type :=
| Text (s : str)
| Field (name : string).

Definition scope : Type := list (string * str).

Fixpoint lookup (sc : scope) (name : string) : result str :=
  match sc with
  | [] => Raise NameError
  | (k, v) :: rest => if String.eqb k name then Ok v else lookup rest name
  end.

Fixpoint format (sc : scope) (parts : list part) : result str :=
  match parts with
  | [] => Ok []
  | Text s :: rest =>
      match format sc rest with
      | Ok t => Ok (s ++ t)
      | Raise e => Raise e
      end
  | Field name :: rest =>
      match lookup sc name with
      | Raise e => Raise e
      | Ok v =>
          match format sc rest with
          | Ok t => Ok (v ++ t)
          | Raise e => Raise e
          end
      end
  end.

End FString.

(* ================================================================== *)
(** * prompt.py *)
(* ================================================================== *)

Module Prompt.
Import PyStr Ingest FString.

Definition NOT_FOUND : str := lit "Not found in the document.".

Definition SYSTEM_INSTRUCTION : str :=
  join nl [
    lit "You are a STRICTLY GROUNDED document assistant. You MUST answer ONLY from the retrieved document chunks provided below.";
    [];
    lit "ABSOLUTE RULES (NO EXCEPTIONS):";
    lit "1. Answer ONLY using information EXPLICITLY present in the retrieved chunks";
    lit "2. NEVER use your general knowledge, training data, or outside information";
    lit "3. Do NOT infer, estimate, calculate, or assume ANY information";
    lit "4. If the answer is NOT explicitly in the chunks, respond EXACTLY: "
      ++ dq ++ NOT_FOUND ++ dq;
    lit "5. For numeric questions: Quote EXACT numbers as written in the document";
    lit "6. NEVER approximate, round, or calculate numbers";
    lit "7. Every factual statement MUST have a citation";
    [];
    lit "MANDATORY RESPONSE FORMAT:";
    [];
    lit "Answer:";
    lit "<short, direct answer using only document text>";
    [];
    lit "Citations:";
    lit "[pX:cY], [pA:cB]";
    [];
    lit "Evidence:";
    lit "[pX:cY] " ++ dq ++ lit "<exact quote from chunk>" ++ dq;
    lit "[pA:cB] " ++ dq ++ lit "<exact quote from chunk>" ++ dq;
    [];
    lit "If information is missing, ambiguous, or requires inference:";
    lit "Respond EXACTLY: " ++ dq ++ NOT_FOUND ++ dq;
    [];
    lit "Do NOT deviate from this format or these rules under ANY circumstances."
  ].

(** The context block of one retrieved chunk, numbered [i]. *)
Definition context_part (i : Z) (chunk : PDFChunk) : str :=
  lit "[CHUNK " ++ of_int i ++ lit "] " ++ get_citation chunk ++ nl
  ++ lit "Page " ++ of_int (page_number chunk) ++ nl
  ++ lit "Text: " ++ text chunk ++ nl.

(** [for i, (chunk, score) in enumerate(retrieved_chunks, 1)] *)
Fixpoint context_parts {S : Type} (i : Z)
    (retrieved_chunks : list (PDFChunk * S)) : list str :=
  match retrieved_chunks with
  | [] => []
  | (chunk, _) :: rest => context_part i chunk :: context_parts (i + 1) rest
  end.

(** The two lines a turn of the conversation contributes. *)
Fixpoint history_parts (turns : list (str * str)) : list str :=
  match turns with
  | [] => []
  | (user_msg, assistant_msg) :: rest =>
      (lit "User: " ++ user_msg)
      :: (lit "Assistant: " ++ assistant_msg)
      :: history_parts rest
  end.

(** The f-string of [build_grounded_prompt]. Its line on citations holds the
    replacement fields [page] and [chunk_id]. *)
Definition grounded_template : list part := [
  Text (lit "RETRIEVED DOCUMENT CHUNKS:" ++ nl);
  Field "context";
  Text (nl ++ nl);
  Field "history_text";
  Text (nl ++ nl ++ lit "CURRENT USER QUESTION:" ++ nl);
  Field "query";
  Text (nl ++ nl ++ lit "INSTRUCTIONS:" ++ nl
        ++ lit "Answer the question using ONLY the information in the retrieved chunks above. "
        ++ nl ++ nl
        ++ lit "If the answer is not explicitly in the chunks, respond with EXACTLY:"
        ++ nl ++ dq ++ NOT_FOUND ++ dq ++ nl ++ nl
        ++ lit "If you can answer:" ++ nl
        ++ lit "1. Provide a clear, concise answer" ++ nl
        ++ lit "2. Include citations using [p");
  Field "page";
  Text (lit ":c");
  Field "chunk_id";
  Text (lit "] format" ++ nl
        ++ lit "3. Include an " ++ dq ++ lit "Evidence" ++ dq
        ++ lit " section with relevant quotes" ++ nl ++ nl
        ++ lit "Your response:")
].

(** [build_grounded_prompt]. The names that hold a string when the f-string
    is evaluated are the parameter [query] and the locals [context] and
    [history_text] (and, after a loop that ran, [citation], [user_msg] and
    [assistant_msg], left out here: the template names none of them); the
    module binds no [page] and no [chunk_id]. *)
Definition build_grounded_prompt {S : Type} (query : str)
    (retrieved_chunks : list (PDFChunk * S))
    (conversation_history : list (str * str)) : result str :=
  let context := join (nl ++ lit "---" ++ nl)
                      (context_parts 1 retrieved_chunks) in
  let history_text :=
    if truthy conversation_history
    then nl ++ nl ++ lit "PREVIOUS CONVERSATION:" ++ nl
         ++ join nl (history_parts
                       (slice conversation_history (-3)
                              (len conversation_history)))
    else [] in
  format [("query"%string, query); ("context"%string, context);
          ("history_text"%string, history_text)]
         grounded_template.

(** The f-string of [rewrite_query_with_history]. *)
Definition rewrite_template : list part := [
  Text (lit "Given the conversation history below, rewrite the follow-up question to be a standalone question that captures the full context."
        ++ nl ++ nl ++ lit "CONVERSATION HISTORY:" ++ nl);
  Field "history_text";
  Text (nl ++ nl ++ lit "FOLLOW-UP QUESTION:" ++ nl);
  Field "query";
  Text (nl ++ nl ++ lit "INSTRUCTIONS:" ++ nl
        ++ lit "- If the question refers to previous context (e.g., "
        ++ dq ++ lit "it" ++ dq ++ lit ", " ++ dq ++ lit "they" ++ dq
        ++ lit ", " ++ dq ++ lit "that company" ++ dq
        ++ lit "), incorporate that context" ++ nl
        ++ lit "- If the question is already standalone, return it as-is" ++ nl
        ++ lit "- Keep it concise and clear" ++ nl
        ++ lit "- ONLY rewrite for clarity - do NOT add facts or assumptions"
        ++ nl ++ nl ++ lit "STANDALONE QUESTION:")
].

(** [rewrite_query_with_history] *)
Definition rewrite_query_with_history (query : str)
    (conversation_history : list (str * str)) : result str :=
  if negb (truthy conversation_history) then Ok query else
  let history_text :=
    join nl (history_parts
               (slice conversation_history (-2) (len conversation_history))) in
  format [("query"%string, query); ("history_text"%string, history_text)]
         rewrite_template.

(** The longest run of digits at the head of [s], and what follows it. *)
Fixpoint span_digits (s : str) : str * str :=
  match s with
  | [] => ([], [])
  | c :: s' =>
      if isdigit c
      then let '(ds, rest) := span_digits s' in (c :: ds, rest)
      else ([], s)
  end.

(** A match of the pattern [\[p(\d+):c(\d+)\]] at the head of [s]: the two
    groups and the text after the match. A digit run is followed by a
    character that is no digit, so the greedy [\d+] never gives back. *)
Definition match_citation (s : str) : option (str * str * str) :=
  match s with
  | "["%char :: "p"%char :: s1 =>
      match span_digits s1 with
      | ((_ :: _) as page, ":"%char :: "c"%char :: s2) =>
          match span_digits s2 with
          | ((_ :: _) as chunk, "]"%char :: rest) => Some (page, chunk, rest)
          | _ => None
          end
      | _ => None
      end
  | _ => None
  end.

(** [re.findall(pattern, s)]: matches from left to right that do not
    overlap. [fuel] bounds the positions tried. *)
Fixpoint findall_fuel (fuel : nat) (s : str) : list (str * str) :=
  match fuel with
  | O => []
  | S fuel' =>
      match s with
      | [] => []
      | _ :: s' =>
          match match_citation s with
          | Some (page, chunk, rest) => (page, chunk) :: findall_fuel fuel' rest
          | None => findall_fuel fuel' s'
          end
      end
  end.

Definition findall (s : str) : list (str * str) :=
  findall_fuel (List.length s) s.

(** [parse_response_for_citations] *)
Definition parse_response_for_citations (response : str) : list str :=
  let matches := findall response in
  map (fun '(page, chunk) => lit "p" ++ page ++ lit ":c" ++ chunk) matches.

Definition not_found_phrases : list str := [
  lit "not found in the document";
  lit "not mentioned in the document";
  lit "does not contain";
  lit "information is not available"
].

(** [is_not_found_response] *)
Definition is_not_found_response (response : str) : bool :=
  let response_lower := strip (lower response) in
  existsb (fun phrase => contains phrase response_lower) not_found_phrases.

End Prompt.

(* ================================================================== *)
(** * validate.py *)
(* ================================================================== *)

Module Validate.
Import PyStr.

Record validation : Type := mkValidation {
  has_answer_section : bool;
  has_citations_section : bool;
  has_evidence_section : bool;
  is_not_found : bool;
  valid : bool
}.

(** [validate_response_format] *)
Definition validate_response_format (response : str) : validation :=
  let has_answer := contains (lit "Answer:") response in
  let has_citations := contains (lit "Citations:") response in
  let has_evidence := contains (lit "Evidence:") response in
  let not_found := contains (lit "Not found in the document") response in
  let valid :=
    if not_found then true
    else if forallb (fun b => b) [has_answer; has_citations; has_evidence]
    then true
    else false in
  mkValidation has_answer has_citations has_evidence not_found valid.

End Validate.

(* ================================================================== *)
(** * chat.py *)
(* ================================================================== *)

(** The generative model, as the agent sees it. [make_model] is
    [genai.configure] followed by [genai.GenerativeModel]; either may raise.
    [generate_content m sent prompt] is the text of the response to [prompt]
    after the prompts [sent] went before it, or the exception raised by the
    call or by reading [response.text]. *)
Class Generator : Type := {
  Model : Type;
  make_model : str -> str -> result Model;
  generate_content : Model -> list str -> str -> result str
}.

Module Chat.
Import PyStr Ingest Retriever Prompt.
Section WithCollaborators.
Context {B : Backend} {G : Generator}.

Record RAGChatAgent : Type := mkAgent {
  retriever : VectorRetriever;
  top_k : Z;
  debug_mode : bool;
  api_key : option str;
  fallback_mode : bool;
  model : option Model;
  conversation_history : list (str * str)
}.

(** [RAGChatAgent.__init__] *)
Definition __init__ (retriever : VectorRetriever) (gemini_api_key : option str)
    (model_name : str) (top_k_retrieval : Z) (debug_mode : bool)
  : RAGChatAgent :=
  match gemini_api_key with
  | None =>
      mkAgent retriever top_k_retrieval debug_mode gemini_api_key true None []
  | Some key =>
      match make_model key model_name with
      | Ok m =>
          mkAgent retriever top_k_retrieval debug_mode gemini_api_key
                  false (Some m) []
      | Raise _ =>
          mkAgent retriever top_k_retrieval debug_mode gemini_api_key
                  true None []
      end
  end.

(** The agent object together with the prompts sent to the generator so
    far. Console output is not part of the state. *)
Record state : Type := mkState {
  self : RAGChatAgent;
  sent : list str
}.

(** A method of the agent: it may change the state and may raise; what it
    changed before raising stays changed. *)
Definition M (A : Type) : Type := state -> result A * state.

Definition ret {A} (a : A) : M A := fun st => (Ok a, st).

Definition bind {A C} (m : M A) (k : A -> M C) : M C :=
  fun st =>
    match m st with
    | (Ok a, st') => k a st'
    | (Raise e, st') => (Raise e, st')
    end.

Definition lift {A} (r : result A) : M A := fun st => (r, st).

(** [try: body except Exception: handler] *)
Definition try_except {A} (body : M A) (handler : exn -> M A) : M A :=
  fun st =>
    match body st with
    | (Ok a, st') => (Ok a, st')
    | (Raise e, st') => handler e st'
    end.

Definition get_self : M RAGChatAgent := fun st => (Ok (self st), st).

Notation "x <- m ;; k" := (bind m (fun x => k))
  (at level 61, m at next level, right associativity).

(** [self.model.generate_content(prompt)] and [response.text]: an attribute
    of [None] is an [AttributeError]. *)
Definition call_model (prompt : str) : M str :=
  fun st =>
    match model (self st) with
    | None => (Raise AttributeError, st)
    | Some m =>
        (generate_content m (sent st) prompt,
         mkState (self st) (sent st ++ [prompt]))
    end.

Definition pronouns : list str :=
  map lit ["it"; "they"; "them"; "this"; "that"; "these"; "those";
           "he"; "she"]%string.

(** [x in l] for a list of strings. *)
Definition mem (x : str) (l : list str) : bool := existsb (str_eqb x) l.

(** The heuristic of [_rewrite_query_if_needed]. *)
Definition needs_rewrite (query : str) : bool :=
  (len (split query) <? 5)%Z
  || existsb (fun pronoun => mem pronoun (split (lower query))) pronouns.

(** [RAGChatAgent._rewrite_query_if_needed] *)
Definition _rewrite_query_if_needed (query : str) : M str :=
  a <- get_self ;;
  if fallback_mode a || negb (truthy (conversation_history a))
  then ret query
  else if negb (needs_rewrite query) then ret query
  else
    try_except
      (rewrite_prompt <-
         lift (rewrite_query_with_history query (conversation_history a)) ;;
       response <- call_model rewrite_prompt ;;
       ret (strip response))
      (fun _ => ret query).

(** The loop of [_generate_fallback_response]. *)
Fixpoint fallback_passages (i : Z) (chunks : list (PDFChunk * score))
    (response : str) : str :=
  match chunks with
  | [] => response
  | (chunk, sc) :: rest =>
      let response :=
        response ++ lit "--- Passage " ++ of_int i ++ lit " (Page "
        ++ of_int (page_number chunk) ++ lit ", Similarity: "
        ++ format_3f sc ++ lit ") ---" ++ nl in
      let response := response ++ slice (text chunk) 0 500 in
      let response :=
        if (500 <? len (text chunk))%Z
        then response ++ lit "..." ++ nl
        else response ++ nl in
      let response := response ++ nl in
      fallback_passages (i + 1) rest response
  end.

Definition NO_RELEVANT_CONTENT : str :=
  lit "[FALLBACK MODE] No relevant content found in the document.".

(** U+1F4A1, which lies outside the characters modelled, as the four bytes
    of its UTF-8 form. *)
Definition bulb : str := [chr 240; chr 159; chr 146; chr 161].

(** [RAGChatAgent._generate_fallback_response] *)
Definition _generate_fallback_response (query : str)
    (chunks : list (PDFChunk * score)) : str :=
  if negb (truthy chunks) then NO_RELEVANT_CONTENT else
  let response := lit "[FALLBACK MODE - Retrieval Only]" ++ nl ++ nl in
  let response :=
    response ++ lit "Found " ++ of_int (len chunks)
    ++ lit " relevant passages:" ++ nl ++ nl in
  let response := fallback_passages 1 chunks response in
  response ++ nl ++ bulb
  ++ lit " Note: Set GEMINI_API_KEY to get AI-generated answers instead of raw passages.".

Definition append_history (turn : str * str) : M unit :=
  fun st =>
    let a := self st in
    (Ok tt,
     mkState (mkAgent (retriever a) (top_k a) (debug_mode a) (api_key a)
                      (fallback_mode a) (model a)
                      (conversation_history a ++ [turn]))
             (sent st)).

(** [RAGChatAgent.answer_query] *)
Definition answer_query (user_query : str) : M str :=
  standalone_query <- _rewrite_query_if_needed user_query ;;
  a <- get_self ;;
  retrieved_chunks <-
    lift (retrieve (retriever a) standalone_query (top_k a)) ;;
  answer <-
    (if fallback_mode a
     then ret (_generate_fallback_response user_query retrieved_chunks)
     else
       prompt <- lift (build_grounded_prompt user_query retrieved_chunks
                                             (conversation_history a)) ;;
       try_except
         (let full_prompt := SYSTEM_INSTRUCTION ++ nl ++ nl ++ prompt in
          response <- call_model full_prompt ;;
          ret (strip response))
         (fun _ =>
            ret (_generate_fallback_response user_query retrieved_chunks))) ;;
  _ <- append_history (user_query, answer) ;;
  ret answer.

(** [RAGChatAgent.reset_history] *)
Definition reset_history : M unit :=
  fun st =>
    let a := self st in
    (Ok tt,
     mkState (mkAgent (retriever a) (top_k a) (debug_mode a) (api_key a)
                      (fallback_mode a) (model a) [])
             (sent st)).

(** [RAGChatAgent.get_history] *)
Definition get_history : M (list (str * str)) :=
  a <- get_self ;; ret (conversation_history a).

(** A call a client makes on the agent. *)
Inductive call : Type :=
| AnswerQuery (user_query : str)
| ResetHistory
| GetHistory.

(** The state after a call, whether it returned or raised. *)
Definition after (c : call) (st : state) : state :=
  match c with
  | AnswerQuery q => snd (answer_query q st)
  | ResetHistory => snd (reset_history st)
  | GetHistory => snd (get_history st)
  end.

(** The state after a sequence of calls. *)
Definition after_all (cs : list call) (st : state) : state :=
  fold_left (fun st c => after c st) cs st.

End WithCollaborators.
End Chat.

(* ================================================================== *)
(** * chat.py: the interactive loop *)
(* ================================================================== *)

Module Session.
Import PyStr Ingest Retriever Prompt Chat.
Section WithCollaborators.
Context {B : Backend} {G : Generator}.

(** What [input] gives, one item per call: a line typed, or an interrupt
    from the keyboard while the loop waits. Past the last item the input is
    at its end and every call of [input] raises [EOFError]. *)
Inductive keyboard : Type :=
| Typed (line : str)
| CtrlC.

(** What the loop prints, banners left out. *)
Inductive printed : Type :=
| Assistant (answer : str)
| Error (e : exn)
| ErrorEndOfInput
| Goodbye
| Interrupted.

Definition quit_words : list str := map lit ["quit"; "exit"; "q"]%string.

(** [RAGChatAgent.chat_loop], run for [fuel] turns of its [while True] at
    most. The result is the state the agent is left in and what was
    printed. *)
Fixpoint chat_loop_fuel (fuel : nat) (inputs : list keyboard) (st : state)
    (out : list printed) : option (state * list printed) :=
  match fuel with
  | O => None
  | S fuel' =>
      match inputs with
      | [] =>
          (* EOFError is an Exception: reported, and the loop goes on *)
          chat_loop_fuel fuel' [] st (out ++ [ErrorEndOfInput])
      | CtrlC :: _ => Some (st, out ++ [Interrupted])
      | Typed line :: rest =>
          let user_input := strip line in
          if negb (truthy user_input) then chat_loop_fuel fuel' rest st out
          else if mem (lower user_input) quit_words
          then Some (st, out ++ [Goodbye])
          else
            match answer_query user_input st with
            | (Ok answer, st') =>
                chat_loop_fuel fuel' rest st' (out ++ [Assistant answer])
            | (Raise e, st') =>
                chat_loop_fuel fuel' rest st' (out ++ [Error e])
            end
      end
  end.

End WithCollaborators.
End Session.

(* ================================================================== *)
(** * validate.py: the test run *)
(* ================================================================== *)

Module ValidationRun.
Import PyStr Ingest Retriever Prompt Validate Chat.
Section WithCollaborators.
Context {B : Backend} {G : Generator}.

Record test : Type := mkTest {
  category : str;
  question : str;
  should_find : option bool
}.

Definition test_questions : list test := [
  mkTest (lit "Factual Grounded Question")
         (lit "What is the main topic of this document?") (Some true);
  mkTest (lit "Numeric Question")
         (lit "What are the specific revenue numbers mentioned?") None;
  mkTest (lit "Negative Control (Unrelated)")
         (lit "What is the population of Mars?") (Some false);
  mkTest (lit "Negative Control (Not in Document)")
         (lit "What was the company's strategy in 2030?") (Some false)
].

Record outcome : Type := mkOutcome {
  test_name : str;
  format_valid : bool;
  expectation_met : bool;
  passed : bool
}.

Notation "x <- m ;; k" := (bind m (fun x => k))
  (at level 61, m at next level, right associativity).

(** The body of the loop over [test_questions], for one test. *)
Definition run_test (t : test) : M outcome :=
  try_except
    (answer <- answer_query (question t) ;;
     let validation := validate_response_format answer in
     let expectation_met :=
       match should_find t with
       | Some false => is_not_found validation
       | Some true => negb (is_not_found validation)
       | None => true
       end in
     ret (mkOutcome (category t) (valid validation) expectation_met
                    (valid validation && expectation_met)))
    (fun _ => ret (mkOutcome (category t) false false false)).

Fixpoint run_tests (tests : list test) (results : list outcome)
  : M (list outcome) :=
  match tests with
  | [] => ret results
  | t :: rest => r <- run_test t ;; run_tests rest (results ++ [r])
  end.

(** The conversation of two turns that ends the run. *)
Definition run_follow_up : M outcome :=
  try_except
    (_ <- reset_history ;;
     answer1 <- answer_query (lit "What is this document about?") ;;
     answer2 <- answer_query (lit "Can you provide more details?") ;;
     let validation2 := validate_response_format answer2 in
     let followup_passed := valid validation2 in
     ret (mkOutcome (lit "Multi-turn Conversation") (valid validation2)
                    true followup_passed))
    (fun _ => ret (mkOutcome (lit "Multi-turn Conversation")
                             false false false)).

(** The outcomes [run_validation_tests] collects, in order. *)
Definition validation_outcomes : M (list outcome) :=
  results <- run_tests test_questions [] ;;
  r <- run_follow_up ;;
  ret (results ++ [r]).

(** [run_validation_tests]: whether all tests passed. *)
Definition run_validation_tests : M bool :=
  results <- validation_outcomes ;;
  let passed_count := List.length (filter passed results) in
  let total := List.length results in
  ret (Nat.eqb passed_count total).

End WithCollaborators.
End ValidationRun.

(* ================================================================== *)
(** * Vocabulary of the properties *)
(* ================================================================== *)

Module Spec.
Import PyStr.

(** The integers [start], [start + 1], ..., [n] of them. *)
Fixpoint consecutive (start : Z) (n : nat) : list Z :=
  match n with
  | O => []
  | S n' => start :: consecutive (start + 1) n'
  end.

Definition no_leading_whitespace (s : str) : Prop :=
  forall c rest, s = c :: rest -> isspace c = false.

Definition no_trailing_whitespace (s : str) : Prop :=
  forall c front, s = front ++ [c] -> isspace c = false.

(** [sub] occurs in [s]. *)
Definition occurs_in (sub s : str) : Prop :=
  exists before after, s = before ++ sub ++ after.

(** Starts with a character that is no whitespace. *)
Definition solid_head (p : str) : Prop :=
  match p with
  | [] => False
  | a :: _ => isspace a = false
  end.

(** The forward step of the chunker. *)
Definition step (self : Ingest.PDFIngestor) : Z :=
  (Ingest.chunk_size self - Ingest.chunk_overlap self)%Z.

(** The text of the chunk cut at offset [s], when one is cut there. *)
Definition window (self : Ingest.PDFIngestor) (text : str) (s : Z) : str :=
  strip (slice text s (s + Ingest.chunk_size self)).

(** A label the index can return for [n] stored vectors: a position, or
    [-1] for a missing result. *)
Definition label_ok {B : Backend} (n : Z) (h : Faiss.hit) : Prop :=
  (-1 <= fst h < n)%Z.

End Spec.

(* ================================================================== *)
(** * Small collaborators for closed examples *)
(* ================================================================== *)

Module Examples.
Import PyStr Ingest.

(** A backend whose embedding of a text is its length and whose score is the
    product of the two lengths: a whole number, which the conversion
    [.3f] writes with three zeros after the point. *)
Definition length_backend : Backend := {|
  vec := Z;
  score := Z;
  encode := fun s => len s;
  inner_product := Z.mul;
  score_ltb := Z.ltb;
  FLT_LOWEST := (- 2 ^ 128)%Z;
  format_3f := fun z => of_int z ++ lit ".000"
|}.

(** A generator whose every call raises. *)
Definition failing_generator : Generator := {|
  Model := unit;
  make_model := fun _ _ => Ok tt;
  generate_content := fun _ _ _ => Raise GeneratorError
|}.

(** A generator that cannot be set up. *)
Definition broken_generator : Generator := {|
  Model := unit;
  make_model := fun _ _ => Raise GeneratorError;
  generate_content := fun _ _ _ => Raise GeneratorError
|}.

(** A generator that answers every prompt with the refusal. *)
Definition refusing_generator : Generator := {|
  Model := unit;
  make_model := fun _ _ => Ok tt;
  generate_content := fun _ _ _ => Ok (lit "Not found in the document.")
|}.

Definition two_chunks : list PDFChunk := [
  mkPDFChunk (lit "alpha") 1 0;
  mkPDFChunk (lit "beta gamma") 1 1
].

(** The retriever [build_index] makes of the two chunks. *)
Definition two_chunk_retriever : Retriever.VectorRetriever (B := length_backend) :=
  Retriever.mkVectorRetriever
    (Some ([5; 10]%Z : Faiss.IndexFlatIP (B := length_backend)))
    two_chunks.


(** An agent in generation mode, one turn into a conversation. *)
Definition talking_agent
  : Chat.state (B := length_backend) (G := refusing_generator) :=
  Chat.mkState
    (Chat.mkAgent two_chunk_retriever 2 true
       (Some (lit "key")) false
       (Some (tt : Model (Generator := refusing_generator)))
       [(lit "Who wrote the report?", lit "Not found in the document.")])
    [].

(** An agent built with an API key whose generator raises on every call:
    generation mode, no turn yet. *)
Definition generating_agent
  : Chat.state (B := length_backend) (G := failing_generator) :=
  Chat.mkState
    (Chat.__init__ two_chunk_retriever (Some (lit "key"))
                   (lit "gemini-1.5-pro") 2 true)
    [].

(** The same agent with one turn on record. *)
Definition generating_agent_mid_conversation
  : Chat.state (B := length_backend) (G := failing_generator) :=
  Chat.mkState
    (Chat.mkAgent two_chunk_retriever 2 true (Some (lit "key")) false
       (Some (tt : Model (Generator := failing_generator)))
       [(lit "Who wrote the report?", lit "Not found in the document.")])
    [].


(** An agent built without an API key over the two chunks. *)
Definition keyless_agent
  : Chat.state (B := length_backend) (G := refusing_generator) :=
  Chat.mkState
    (Chat.__init__ two_chunk_retriever None (lit "gemini-1.5-pro") 5 true)
    [].

(** A page of 250 characters. *)
Definition page_of_250 : str :=
  List.concat (repeat (lit "lorem ") 41) ++ lit "ips.".

End Examples.

(* ================================================================== *)
(** * Further vocabulary *)
(* ================================================================== *)

Module Terms.
Import PyStr Ingest.

(** A chunk with the same text under another page number, its identifier
    moved up by [id0]. *)
Definition relabel (pn id0 : Z) (c : PDFChunk) : PDFChunk :=
  mkPDFChunk (text c) pn (id0 + chunk_id c).

(** No character is an opening bracket. *)
Definition bracket_free (s : str) : Prop := ~ In "["%char s.

(** The citation as [parse_response_for_citations] returns it. *)
Definition bare_citation (c : PDFChunk) : str :=
  lit "p" ++ of_int (page_number c) ++ lit ":c" ++ of_int (chunk_id c).

(** A string of digits, at least one. *)
Definition numeral (s : str) : Prop :=
  s <> [] /\ Forall (fun c => isdigit c = true) s.

(** A line that ends the session: one of the quit words, in any letter
    case, with whitespace around it or not. *)
Definition is_quit (line : str) : bool :=
  truthy (strip line) && Chat.mem (lower (strip line)) Session.quit_words.

(** An item of input at which the loop stops. *)
Definition stops (k : Session.keyboard) : bool :=
  match k with
  | Session.CtrlC => true
  | Session.Typed line => is_quit line
  end.

(** The questions put before the loop stops: the lines typed, stripped,
    blank ones left out. *)
Fixpoint questions (inputs : list Session.keyboard) : list str :=
  match inputs with
  | [] => []
  | Session.CtrlC :: _ => []
  | Session.Typed line :: rest =>
      if negb (truthy (strip line)) then questions rest
      else if is_quit line then []
      else strip line :: questions rest
  end.

(** The outcome recorded for a test that raised. *)
Definition failed (t : ValidationRun.test) : ValidationRun.outcome :=
  ValidationRun.mkOutcome (ValidationRun.category t) false false false.

(** The score of a chunk against a query: the inner product of the two
    embeddings. *)
Definition similarity {B : Backend} (query : str) (c : PDFChunk) : score :=
  inner_product (encode query) (encode (text c)).

(** The first hit is not below the second. *)
Definition above {B : Backend} (a b : Faiss.hit) : Prop :=
  score_ltb (snd a) (snd b) = false.

(** No score is below a later one. *)
Definition descending {B : Backend} (scores : list score) : Prop :=
  StronglySorted (fun a b => score_ltb a b = false) scores.

(** Printed for an answer or at the end, not for a failure. *)
Definition no_error (p : Session.printed) : Prop :=
  match p with
  | Session.Error _ | Session.ErrorEndOfInput => False
  | _ => True
  end.

End Terms.

(* ================================================================== *)
(** * The definitions at work *)
(* ================================================================== *)

Module Sanity.
Import PyStr Ingest Prompt Validate.

Example strip_example :
  strip (lit "   hello world  ") = lit "hello world".
Proof. reflexivity. Qed.

Example split_example :
  split (lit "  What is  the main topic? ")
  = map lit ["What"; "is"; "the"; "main"; "topic?"]%string.
Proof. reflexivity. Qed.

Example lower_example :
  lower (lit "Not Found IN the Document") = lit "not found in the document".
Proof. reflexivity. Qed.

Example slice_examples :
  slice [1; 2; 3; 4; 5]%Z 1 3 = [2; 3]%Z /\
  slice [1; 2; 3; 4; 5]%Z (-3) 5 = [3; 4; 5]%Z /\
  slice [1; 2; 3; 4; 5]%Z 3 100 = [4; 5]%Z /\
  slice [1; 2; 3; 4; 5]%Z 4 2 = [].
Proof. repeat split; reflexivity. Qed.

Example index_examples :
  index [10; 20; 30]%Z 0 = Ok 10%Z /\
  index [10; 20; 30]%Z (-1) = Ok 30%Z /\
  index [10; 20; 30]%Z 3 = Raise IndexError /\
  index [10; 20; 30]%Z (-4) = Raise IndexError.
Proof. repeat split; reflexivity. Qed.

Example of_int_examples :
  of_int 0 = lit "0" /\ of_int 2024 = lit "2024" /\ of_int (-7) = lit "-7".
Proof. repeat split; reflexivity. Qed.

Example get_citation_example :
  get_citation (mkPDFChunk (lit "some text") 5 12) = lit "[p5:c12]".
Proof. reflexivity. Qed.

Example findall_example :
  findall (lit "see [p5:c12], [p7:c25] but not [p:c1] or [p12:c3x]")
  = [(lit "5", lit "12"); (lit "7", lit "25")].
Proof. reflexivity. Qed.

Example parse_response_for_citations_example :
  parse_response_for_citations (lit "Citations: [p5:c12], [p7:c25]")
  = [lit "p5:c12"; lit "p7:c25"].
Proof. reflexivity. Qed.

Example chunk_text_example :
  chunk_text (mkPDFIngestor 8 3) (lit "  to be or  not to be ") 4 7
  = Some [ mkPDFChunk (lit "to be") 4 7;
           mkPDFChunk (lit "be or  n") 4 8;
           mkPDFChunk (lit "not to") 4 9;
           mkPDFChunk (lit "to be") 4 10;
           mkPDFChunk (lit "e") 4 11 ].
Proof. reflexivity. Qed.

Example blank_windows_take_no_id :
  chunk_text (mkPDFIngestor 4 0) (lit "ab      cd") 1 0
  = Some [ mkPDFChunk (lit "ab") 1 0; mkPDFChunk (lit "cd") 1 1 ].
Proof. reflexivity. Qed.

Example ingest_pdf_example :
  ingest_pdf (mkPDFIngestor 4 0) [lit "abcdef"; lit "   "; lit "gh"]
  = Some [ mkPDFChunk (lit "abcd") 1 0;
           mkPDFChunk (lit "ef") 1 1;
           mkPDFChunk (lit "gh") 3 2 ].
Proof. reflexivity. Qed.

Example is_not_found_response_examples :
  is_not_found_response (lit "Sorry, NOT FOUND in the Document.") = true /\
  is_not_found_response (lit "Revenue was 5 million [p1:c0].") = false.
Proof. split; reflexivity. Qed.

Example validate_response_format_example :
  validate_response_format
    (lit "Answer: 5 million Citations: [p1:c0] Evidence: [p1:c0] quoted")
  = mkValidation true true true false true.
Proof. reflexivity. Qed.

End Sanity.

(* ================================================================== *)
(** * Facts about strings, slices and strip *)
(* ================================================================== *)

Module PyStrFacts.
Import PyStr Spec.

Lemma len_nonneg {A} (l : list A) : (0 <= len l)%Z.
Proof. unfold len. lia. Qed.

Lemma truthy_true {A} (l : list A) : truthy l = true <-> l <> [].
Proof. destruct l; simpl; split; congruence. Qed.

Lemma truthy_false {A} (l : list A) : truthy l = false <-> l = [].
Proof. destruct l; simpl; split; congruence. Qed.

(** ** lstrip, rstrip, strip *)

Lemma lstrip_In c s : In c s -> isspace c = false -> In c (lstrip s).
Proof.
  induction s as [|a s IH]; simpl; [tauto|].
  intros [->|Hin] Hc.
  - rewrite Hc. now left.
  - destruct (isspace a); [auto | now right].
Qed.

Lemma lstrip_length s : (List.length (lstrip s) <= List.length s)%nat.
Proof.
  induction s as [|a s IH]; simpl; [lia|].
  destruct (isspace a); simpl; lia.
Qed.

Lemma lstrip_head s : no_leading_whitespace (lstrip s).
Proof.
  unfold no_leading_whitespace.
  induction s as [|a s IH]; simpl; intros c rest H; [discriminate|].
  destruct (isspace a) eqn:Ha; [eauto|].
  now injection H as <- _.
Qed.

Lemma lstrip_snoc s c :
  isspace c = false -> lstrip (s ++ [c]) = lstrip s ++ [c].
Proof.
  intros Hc. induction s as [|a s IH]; simpl.
  - now rewrite Hc.
  - destruct (isspace a); [exact IH | reflexivity].
Qed.

Lemma rstrip_cons c s :
  isspace c = false -> rstrip (c :: s) = c :: rstrip s.
Proof.
  intros Hc. unfold rstrip. simpl.
  rewrite lstrip_snoc by assumption.
  now rewrite rev_unit.
Qed.

Lemma rstrip_In c s : In c s -> isspace c = false -> In c (rstrip s).
Proof.
  intros Hin Hc. unfold rstrip.
  apply in_rev. rewrite rev_involutive.
  apply lstrip_In; [now apply in_rev in Hin | assumption].
Qed.

Lemma rstrip_length s : (List.length (rstrip s) <= List.length s)%nat.
Proof.
  unfold rstrip. rewrite length_rev.
  etransitivity; [apply lstrip_length|]. now rewrite length_rev.
Qed.

Lemma rstrip_last s : no_trailing_whitespace (rstrip s).
Proof.
  intros c front H. unfold rstrip in H.
  apply (f_equal (@rev ascii)) in H.
  rewrite rev_involutive, rev_unit in H.
  exact (lstrip_head _ H).
Qed.

(** A character that is no whitespace stays in the stripped string. *)
Lemma strip_In c s : In c s -> isspace c = false -> In c (strip s).
Proof.
  intros Hin Hc. unfold strip.
  apply rstrip_In; [apply lstrip_In|]; assumption.
Qed.

Lemma strip_length s : (List.length (strip s) <= List.length s)%nat.
Proof.
  unfold strip. etransitivity; [apply rstrip_length | apply lstrip_length].
Qed.

Lemma strip_no_leading s : no_leading_whitespace (strip s).
Proof.
  intros c rest H. unfold strip in H.
  destruct (lstrip s) as [|a t] eqn:E.
  - discriminate H.
  - assert (Ha : isspace a = false) by exact (lstrip_head s E).
    rewrite rstrip_cons in H by assumption.
    now injection H as <- _.
Qed.

Lemma strip_no_trailing s : no_trailing_whitespace (strip s).
Proof. unfold strip. apply rstrip_last. Qed.

(** ** Slices *)

Lemma slice_length {A} (l : list A) (a b : Z) :
  (0 <= a)%Z -> (a <= b)%Z -> (len (slice l a b) <= b - a)%Z.
Proof.
  intros Ha Hab. unfold slice, len.
  pose proof (firstn_le_length
                (Z.to_nat (adjust (Z.of_nat (List.length l)) b
                           - adjust (Z.of_nat (List.length l)) a))
                (skipn (Z.to_nat (adjust (Z.of_nat (List.length l)) a)) l))
    as Hle.
  unfold len in *.
  assert (adjust (Z.of_nat (List.length l)) b
          - adjust (Z.of_nat (List.length l)) a <= b - a)%Z.
  { unfold adjust.
    destruct (Z.ltb_spec a 0); destruct (Z.ltb_spec b 0); lia. }
  lia.
Qed.

(** A position inside the window is an element of the slice. *)
Lemma slice_In {A} (l : list A) (a b : Z) (i : nat) (x : A) :
  nth_error l i = Some x ->
  (0 <= a)%Z -> (a <= Z.of_nat i)%Z -> (Z.of_nat i < b)%Z ->
  In x (slice l a b).
Proof.
  intros Hx Ha Hai Hib.
  assert (Hi : (i < List.length l)%nat).
  { apply nth_error_Some. congruence. }
  unfold slice, len, adjust.
  destruct (Z.ltb_spec a 0); [lia|].
  destruct (Z.ltb_spec b 0); [lia|].
  apply nth_error_In with (n := (i - Z.to_nat a)%nat).
  rewrite nth_error_firstn.
  assert (Hlt : (i - Z.to_nat a <?
           Z.to_nat (Z.min b (Z.of_nat (List.length l))
                     - Z.min a (Z.of_nat (List.length l))))%nat = true).
  { apply Nat.ltb_lt. lia. }
  rewrite Hlt, nth_error_skipn.
  replace (Z.to_nat (Z.min a (Z.of_nat (List.length l)))
           + (i - Z.to_nat a))%nat with i by lia.
  exact Hx.
Qed.

Lemma consecutive_length start n : List.length (consecutive start n) = n.
Proof.
  revert start. induction n; simpl; intros; [reflexivity | now rewrite IHn].
Qed.

Lemma consecutive_app start n m :
  consecutive start (n + m)
  = consecutive start n ++ consecutive (start + Z.of_nat n) m.
Proof.
  revert start. induction n as [|n IH]; intros start.
  - simpl. now rewrite Z.add_0_r.
  - cbn [Nat.add consecutive app]. rewrite IH.
    do 3 f_equal. lia.
Qed.

End PyStrFacts.

(* ================================================================== *)
(** * The chunker *)
(* ================================================================== *)

Module IngestFacts.
Import PyStr Ingest Spec PyStrFacts.

(** ** The loop, whatever the parameters *)

(** What is already collected is only ever extended. *)
Lemma chunk_loop_acc fuel self text pn acc id start :
  chunk_loop fuel self text pn acc id start
  = option_map (app acc) (chunk_loop fuel self text pn [] id start).
Proof.
  revert acc id start.
  induction fuel as [|fuel IH]; intros acc id start; [reflexivity|].
  simpl. destruct (start <? len text)%Z.
  - destruct (truthy (strip (slice text start (start + chunk_size self)))).
    + rewrite (IH (acc ++ _)), (IH [_]).
      destruct (chunk_loop fuel self text pn [] (id + 1)
                  (start + (chunk_size self - chunk_overlap self))%Z);
        simpl; [now rewrite <- app_assoc | reflexivity].
    + apply IH.
  - simpl. now rewrite app_nil_r.
Qed.

(** One turn of the loop. *)
Lemma chunk_loop_turn fuel self text pn id start :
  chunk_loop (S fuel) self text pn [] id start
  = if (start <? len text)%Z then
      if truthy (window self text start)
      then option_map (cons (mkPDFChunk (window self text start) pn id))
             (chunk_loop fuel self text pn [] (id + 1) (start + step self)%Z)
      else chunk_loop fuel self text pn [] id (start + step self)%Z
    else Some [].
Proof.
  unfold window, step. cbn [chunk_loop].
  destruct (start <? len text)%Z; [|reflexivity].
  destruct (truthy (strip (slice text start (start + chunk_size self))));
    [|reflexivity].
  rewrite chunk_loop_acc. reflexivity.
Qed.

(** More fuel does not change a finished run. *)
Lemma chunk_loop_more_fuel fuel self text pn id start r :
  chunk_loop fuel self text pn [] id start = Some r ->
  chunk_loop (S fuel) self text pn [] id start = Some r.
Proof.
  revert id start r.
  induction fuel as [|fuel IH]; intros id start r H; [discriminate|].
  rewrite chunk_loop_turn in H. rewrite chunk_loop_turn.
  destruct (start <? len text)%Z; [|exact H].
  destruct (truthy (window self text start)).
  - destruct (chunk_loop fuel self text pn [] (id + 1) (start + step self)%Z)
      as [r'|] eqn:E; [|discriminate].
    now rewrite (IH _ _ _ E).
  - now apply IH.
Qed.

(** With a step that does not advance, the loop over a text that is not
    empty never ends: no amount of fuel lets it finish. *)
Lemma chunk_loop_stuck fuel self text pn acc id start :
  (step self <= 0)%Z -> (start <= 0)%Z -> text <> [] ->
  chunk_loop fuel self text pn acc id start = None.
Proof.
  intros Hstep Hstart Htext.
  assert (Hlen : (0 < len text)%Z).
  { destruct text; [congruence | unfold len; simpl; lia]. }
  revert acc id start Hstart.
  induction fuel as [|fuel IH]; intros acc id start Hstart; [reflexivity|].
  cbn [chunk_loop].
  destruct (Z.ltb_spec start (len text)); [|lia].
  unfold step in Hstep.
  destruct (truthy (strip (slice text start (start + chunk_size self))));
    apply IH; lia.
Qed.

(** ** The loop under valid parameters *)

Section ValidParameters.
Variable self : PDFIngestor.
Variable text : str.
Variable pn : Z.
Hypothesis overlap_nonneg : (0 <= chunk_overlap self)%Z.
Hypothesis overlap_below_size : (chunk_overlap self < chunk_size self)%Z.

(** The loop ends: fuel beyond the distance to the end of the text is
    enough. *)
Lemma chunk_loop_terminates fuel id start :
  (Z.to_nat (len text - start) < fuel)%nat ->
  exists r, chunk_loop fuel self text pn [] id start = Some r.
Proof.
  revert id start.
  induction fuel as [|fuel IH]; intros id start Hfuel; [lia|].
  rewrite chunk_loop_turn.
  destruct (Z.ltb_spec start (len text)); [|eauto].
  assert (Hnext : (Z.to_nat (len text - (start + step self)) < fuel)%nat)
    by (unfold step; lia).
  destruct (truthy (window self text start)).
  - destruct (IH (id + 1)%Z _ Hnext) as [r ->]. simpl. eauto.
  - exact (IH id _ Hnext).
Qed.

(** Identifiers are handed out one after the other. *)
Lemma chunk_loop_ids fuel id start r :
  chunk_loop fuel self text pn [] id start = Some r ->
  map chunk_id r = consecutive id (List.length r).
Proof.
  revert id start r.
  induction fuel as [|fuel IH]; intros id start r H; [discriminate|].
  rewrite chunk_loop_turn in H.
  destruct (start <? len text)%Z.
  - destruct (truthy (window self text start)).
    + destruct (chunk_loop fuel self text pn [] (id + 1) (start + step self)%Z)
        as [r'|] eqn:E; [|discriminate].
      injection H as <-. simpl. f_equal. exact (IH _ _ _ E).
    + exact (IH _ _ _ H).
  - now injection H as <-.
Qed.

(** Every chunk is the stripped window at an offset the loop visits. *)
Lemma chunk_loop_windows fuel id start r :
  (0 <= start)%Z ->
  chunk_loop fuel self text pn [] id start = Some r ->
  Forall (fun c =>
            page_number c = pn /\
            exists s, (start <= s)%Z /\ (step self | s - start)%Z /\
                      Ingest.text c = window self text s /\
                      Ingest.text c <> [])
         r.
Proof.
  revert id start r.
  induction fuel as [|fuel IH]; intros id start r Hstart H; [discriminate|].
  rewrite chunk_loop_turn in H.
  assert (Hstep : (0 < step self)%Z) by (unfold step; lia).
  assert (Hlater : forall r',
    Forall (fun c =>
              page_number c = pn /\
              exists s, (start + step self <= s)%Z /\
                        (step self | s - (start + step self))%Z /\
                        Ingest.text c = window self text s /\
                        Ingest.text c <> []) r' ->
    Forall (fun c =>
              page_number c = pn /\
              exists s, (start <= s)%Z /\ (step self | s - start)%Z /\
                        Ingest.text c = window self text s /\
                        Ingest.text c <> []) r').
  { intros r'. apply Forall_impl.
    intros c (Hp & s & Hs & Hdiv & Ht & Hne). split; [exact Hp|].
    exists s. repeat split; try assumption; [lia|].
    replace (s - start)%Z with ((s - (start + step self)) + step self)%Z
      by lia.
    apply Z.divide_add_r; [assumption | apply Z.divide_refl]. }
  assert (Hstart' : (0 <= start + step self)%Z) by lia.
  destruct (start <? len text)%Z.
  - destruct (truthy (window self text start)) eqn:Hw.
    + destruct (chunk_loop fuel self text pn [] (id + 1) (start + step self)%Z)
        as [r'|] eqn:E; [|discriminate].
      injection H as <-. constructor.
      * simpl. split; [reflexivity|].
        exists start. repeat split; try lia.
        -- rewrite Z.sub_diag. apply Z.divide_0_r.
        -- now apply truthy_true.
      * apply Hlater. apply (IH _ _ _ Hstart' E).
    + apply Hlater. apply (IH _ _ _ Hstart' H).
  - injection H as <-. constructor.
Qed.

(** Every character that is no whitespace, at a position the loop has yet
    to pass, ends up in a chunk whose window holds that position. *)
Lemma chunk_loop_covers fuel id start r i c :
  (0 <= start)%Z ->
  chunk_loop fuel self text pn [] id start = Some r ->
  nth_error text i = Some c -> (start <= Z.of_nat i)%Z ->
  isspace c = false ->
  exists ch s, In ch r /\ (s <= Z.of_nat i < s + chunk_size self)%Z /\
               Ingest.text ch = window self text s /\ In c (Ingest.text ch).
Proof.
  intros Hstart H Hc Hi Hns. revert id start r Hstart H Hi.
  assert (Hlen : (Z.of_nat i < len text)%Z).
  { unfold len. apply inj_lt, nth_error_Some. congruence. }
  induction fuel as [|fuel IH]; intros id start r Hstart H Hi; [discriminate|].
  rewrite chunk_loop_turn in H.
  destruct (Z.ltb_spec start (len text)); [|lia].
  destruct (Z_lt_dec (Z.of_nat i) (start + chunk_size self)) as [Hin|Hout].
  - (* the position lies in this window *)
    assert (Hw : In c (window self text start)).
    { apply strip_In; [|assumption].
      apply slice_In with (i := i); assumption || lia. }
    destruct (truthy (window self text start)) eqn:Ht.
    + destruct (chunk_loop fuel self text pn [] (id + 1) (start + step self)%Z)
        as [r'|]; [|discriminate].
      injection H as <-.
      exists (mkPDFChunk (window self text start) pn id), start.
      simpl. repeat split; auto; lia.
    + apply truthy_false in Ht. rewrite Ht in Hw. destruct Hw.
  - (* the position lies beyond it, so at or beyond the next start *)
    assert (Hnext : (start + step self <= Z.of_nat i)%Z)
      by (unfold step; lia).
    assert (Hstart' : (0 <= start + step self)%Z) by (unfold step; lia).
    destruct (truthy (window self text start)).
    + destruct (chunk_loop fuel self text pn [] (id + 1) (start + step self)%Z)
        as [r'|] eqn:E; [|discriminate].
      injection H as <-.
      destruct (IH _ _ _ Hstart' E Hnext) as (ch & s & Hch & Hrest).
      exists ch, s. split; [now right | exact Hrest].
    + exact (IH _ _ _ Hstart' H Hnext).
Qed.

(** [chunk_text] returns. *)
Lemma chunk_text_returns start_id :
  exists chunks, chunk_text self text pn start_id = Some chunks.
Proof.
  unfold chunk_text, chunk_text_fuel.
  apply chunk_loop_terminates. unfold len. lia.
Qed.

(** The fuel [chunk_text] runs with is no restriction: any run that
    finishes, on whatever fuel, gives the same chunks. *)
Lemma chunk_text_any_fuel fuel start_id r :
  chunk_text_fuel fuel self text pn start_id = Some r ->
  chunk_text self text pn start_id = Some r.
Proof.
  intros H. destruct (chunk_text_returns start_id) as [r' Hr'].
  rewrite Hr'. unfold chunk_text, chunk_text_fuel in *.
  assert (Hmono : forall k f id start x,
             chunk_loop f self text pn [] id start = Some x ->
             chunk_loop (k + f) self text pn [] id start = Some x).
  { induction k; intros; [assumption|].
    simpl plus. apply chunk_loop_more_fuel. auto. }
  pose proof (Hmono (S (List.length text)) _ _ _ _ H) as H1.
  pose proof (Hmono fuel _ _ _ _ Hr') as H2.
  rewrite Nat.add_comm in H2. congruence.
Qed.

End ValidParameters.

(** ** The pipeline over the pages *)

Lemma ingest_loop_ids self pages :
  (chunk_overlap self < chunk_size self)%Z ->
  forall acc id,
    map chunk_id acc = consecutive (id - len acc) (List.length acc) ->
    exists all, ingest_loop self pages acc id = Some all /\
                map chunk_id all = consecutive (id - len acc) (List.length all).
Proof.
  intros H1.
  induction pages as [|page rest IH]; intros acc id Hacc; simpl.
  - eauto.
  - destruct (@chunk_text_returns self (pd_text page) (pd_page_number page)
                H1 id) as [pc Hpc].
    rewrite Hpc.
    assert (Hids : map chunk_id pc = consecutive id (List.length pc)).
    { unfold chunk_text, chunk_text_fuel in Hpc.
      exact (@chunk_loop_ids self _ _ _ _ _ _ Hpc). }
    assert (Hbase : (id + len pc - len (acc ++ pc) = id - len acc)%Z).
    { unfold len. rewrite length_app. lia. }
    destruct (IH (acc ++ pc) (id + len pc)%Z) as (all & Hall & Hallids).
    + rewrite Hbase, map_app, length_app, consecutive_app, Hacc, Hids.
      do 2 f_equal. unfold len. lia.
    + exists all. split; [exact Hall|]. now rewrite <- Hbase.
Qed.

End IngestFacts.

Unset Implicit Arguments.

Module ChunkShape.
Import PyStr Ingest Spec PyStrFacts IngestFacts.

Lemma firstn_subset {A} (n : nat) (l : list A) (x : A) :
  In x (firstn n l) -> In x l.
Proof.
  revert l. induction n as [|n IH]; intros [|a l]; simpl; try tauto.
  intros [->|H]; [now left | right; auto].
Qed.

Lemma skipn_subset {A} (n : nat) (l : list A) (x : A) :
  In x (skipn n l) -> In x l.
Proof.
  revert l. induction n as [|n IH]; intros [|a l]; simpl; try tauto.
  intros H. right. auto.
Qed.

Lemma slice_subset {A} (l : list A) (a b : Z) (x : A) :
  In x (slice l a b) -> In x l.
Proof.
  unfold slice. intros H.
  eapply skipn_subset, firstn_subset, H.
Qed.

Lemma lstrip_subset s c : In c (lstrip s) -> In c s.
Proof.
  induction s as [|a s IH]; simpl; [tauto|].
  destruct (isspace a); [right; auto | tauto].
Qed.

Lemma strip_subset s c : In c (strip s) -> In c s.
Proof.
  unfold strip, rstrip. intros H.
  apply in_rev, lstrip_subset, in_rev, lstrip_subset in H. exact H.
Qed.

(** A string keeps something under [strip] exactly when it holds a
    character that is no whitespace. *)
Lemma strip_nonempty s :
  strip s <> [] <-> exists c, In c s /\ isspace c = false.
Proof.
  split.
  - destruct (strip s) as [|c r] eqn:E; [congruence|]. intros _.
    exists c. split.
    + apply strip_subset. rewrite E. now left.
    + exact (strip_no_leading s E).
  - intros (c & Hin & Hc) E.
    pose proof (strip_In _ _ Hin Hc) as H. rewrite E in H. exact H.
Qed.

End ChunkShape.

Module PipelineFacts.
Import PyStr Ingest Spec PyStrFacts IngestFacts ChunkShape.

(** A blank text gives no chunk. *)
Lemma chunk_text_blank (self : PDFIngestor) (text : str) (pn start_id : Z) :
  (chunk_overlap self < chunk_size self)%Z ->
  strip text = [] ->
  chunk_text self text pn start_id = Some [].
Proof.
  intros H1 Hblank.
  destruct (@chunk_text_returns self text pn H1 start_id) as [r Hr].
  rewrite Hr. f_equal.
  unfold chunk_text, chunk_text_fuel in Hr.
  pose proof (@chunk_loop_windows self text pn H1 _ _ _ _ (Z.le_refl 0) Hr)
    as Hw.
  destruct r as [|c r']; [reflexivity|]. exfalso.
  rewrite Forall_forall in Hw.
  destruct (Hw c (or_introl eq_refl)) as (_ & s & _ & _ & Ht & Hne).
  rewrite Ht in Hne. unfold window in Hne.
  apply strip_nonempty in Hne as (x & Hin & Hx).
  apply slice_subset in Hin.
  pose proof (strip_In _ _ Hin Hx) as H. rewrite Hblank in H. exact H.
Qed.

(** A page the extraction leaves out is blank. *)
Lemma skipped_page_blank (t : str) :
  truthy t && truthy (strip t) = false -> strip t = [].
Proof.
  intros E. apply andb_false_iff in E as [E|E].
  - apply truthy_false in E. now subst t.
  - now apply truthy_false in E.
Qed.

(** The loop over the pages, told by the pages of the reader: page after
    page, the chunks [chunk_text] cuts from the page under the number of its
    position, the first identifier being the one the loop has reached. A
    page that is left out is one from which nothing would be cut. *)
Lemma ingest_loop_blocks (self : PDFIngestor) :
  (chunk_overlap self < chunk_size self)%Z ->
  forall reader_pages p acc id,
  exists blocks,
    ingest_loop self (extract_pages p reader_pages) acc id
    = Some (acc ++ List.concat blocks) /\
    List.length blocks = List.length reader_pages /\
    forall i t,
      nth_error reader_pages i = Some t ->
      exists block,
        nth_error blocks i = Some block /\
        chunk_text self t (p + Z.of_nat i)
                   (id + len (List.concat (firstn i blocks)))
        = Some block.
Proof.
  intros H1. induction reader_pages as [|t rest IH]; intros p acc id.
  - exists []. simpl. split; [now rewrite app_nil_r|].
    split; [reflexivity|]. intros [|i] t H; discriminate H.
  - destruct (@chunk_text_returns self t p H1 id) as [pc Hpc].
    assert (Hturn :
      ingest_loop self (extract_pages p (t :: rest)) acc id
      = ingest_loop self (extract_pages (p + 1) rest) (acc ++ pc)
                    (id + len pc)%Z).
    { cbn [extract_pages].
      destruct (truthy t && truthy (strip t)) eqn:E.
      - cbn [ingest_loop pd_text pd_page_number]. now rewrite Hpc.
      - apply skipped_page_blank in E.
        rewrite (chunk_text_blank self t p id H1 E) in Hpc.
        injection Hpc as <-. rewrite app_nil_r.
        change (len (@nil PDFChunk)) with 0%Z. now rewrite Z.add_0_r. }
    destruct (IH (p + 1)%Z (acc ++ pc) (id + len pc)%Z)
      as (blocks & Hrun & Hlen & Hnth).
    exists (pc :: blocks). split; [|split].
    + rewrite Hturn, Hrun. cbn [List.concat]. now rewrite app_assoc.
    + simpl. now rewrite Hlen.
    + intros [|i] t' Ht'; simpl in Ht'.
      * injection Ht' as <-. exists pc. split; [reflexivity|].
        cbn [firstn List.concat]. change (len (@nil PDFChunk)) with 0%Z.
        now rewrite !Z.add_0_r.
      * destruct (Hnth i t' Ht') as (block & Hb & Hc).
        exists block. split; [exact Hb|].
        cbn [firstn List.concat].
        replace (p + Z.of_nat (S i))%Z with (p + 1 + Z.of_nat i)%Z by lia.
        replace (id + len (pc ++ List.concat (firstn i blocks)))%Z
          with (id + len pc + len (List.concat (firstn i blocks)))%Z
          by (unfold len; rewrite length_app; lia).
        exact Hc.
Qed.

End PipelineFacts.

Module IngestClaims.
Import PyStr Ingest Spec PyStrFacts IngestFacts PipelineFacts.

(** C2. For every text, every [start_id] and parameters with
    [chunk_size > chunk_overlap >= 0], [chunk_text] returns, the identifiers
    of its chunks are the consecutive integers from [start_id] on, and every
    character of the text that is no whitespace occurs in the text of a
    returned chunk (the one cut from a window that holds its position).
    The pipeline carries the counter from page to page: what [ingest_pdf]
    returns is, page after page of the reader, the chunks [chunk_text] cuts
    from the page under its 1-based number, numbered from the count of the
    chunks of the pages before it; so all identifiers together are the
    consecutive integers from 0 on. *)
Theorem chunk_ids_gapless_and_text_covered
    (self : PDFIngestor) (text : str) (pn start_id : Z) :
  (0 <= chunk_overlap self)%Z ->
  (chunk_overlap self < chunk_size self)%Z ->
  (exists chunks,
      chunk_text self text pn start_id = Some chunks /\
      map chunk_id chunks = consecutive start_id (List.length chunks) /\
      forall i c,
        nth_error text i = Some c -> isspace c = false ->
        exists ch s,
          In ch chunks /\
          (s <= Z.of_nat i < s + chunk_size self)%Z /\
          Ingest.text ch = strip (slice text s (s + chunk_size self)) /\
          In c (Ingest.text ch)) /\
  (forall reader_pages,
      exists blocks,
        ingest_pdf self reader_pages = Some (List.concat blocks) /\
        map chunk_id (List.concat blocks)
        = consecutive 0 (List.length (List.concat blocks)) /\
        List.length blocks = List.length reader_pages /\
        forall i t,
          nth_error reader_pages i = Some t ->
          exists block,
            nth_error blocks i = Some block /\
            chunk_text self t (1 + Z.of_nat i)
                       (len (List.concat (firstn i blocks)))
            = Some block).
Proof.
  intros H0 H1. split.
  - destruct (@chunk_text_returns self text pn H1 start_id) as [chunks Hc].
    exists chunks. split; [exact Hc|].
    unfold chunk_text, chunk_text_fuel in Hc. split.
    + exact (@chunk_loop_ids self _ _ _ _ _ _ Hc).
    + intros i c Hi Hns.
      apply (@chunk_loop_covers self text pn H0 H1
               (S (List.length text)) start_id 0%Z chunks i c);
        auto; lia.
  - intros reader_pages. unfold ingest_pdf, extract_text_from_pdf.
    destruct (ingest_loop_blocks self H1 reader_pages 1 [] 0)
      as (blocks & Hrun & Hlen & Hnth).
    destruct (@ingest_loop_ids self (extract_pages 1 reader_pages)
                H1 [] 0%Z eq_refl) as (all & Hall & Hids).
    cbn [app] in Hrun. rewrite Hrun in Hall. injection Hall as <-.
    exists blocks. split; [exact Hrun|]. split; [exact Hids|].
    split; [exact Hlen | exact Hnth].
Qed.

Lemma chunk_ids_gapless_and_text_covered_witness :
  (exists chunks,
      chunk_text (mkPDFIngestor 8 3) (lit "  to be or  not to be ") 4 7
      = Some chunks /\
      map chunk_id chunks = consecutive 7 (List.length chunks) /\
      forall i c,
        nth_error (lit "  to be or  not to be ") i = Some c ->
        isspace c = false ->
        exists ch s,
          In ch chunks /\
          (s <= Z.of_nat i < s + 8)%Z /\
          Ingest.text ch
          = strip (slice (lit "  to be or  not to be ") s (s + 8)) /\
          In c (Ingest.text ch)) /\
  (exists blocks,
      ingest_pdf (mkPDFIngestor 8 3)
                 [lit "  to be or "; lit "   "; lit " not to be "]
      = Some (List.concat blocks) /\
      map chunk_id (List.concat blocks)
      = consecutive 0 (List.length (List.concat blocks)) /\
      List.length blocks = 3%nat /\
      forall i t,
        nth_error [lit "  to be or "; lit "   "; lit " not to be "] i
        = Some t ->
        exists block,
          nth_error blocks i = Some block /\
          chunk_text (mkPDFIngestor 8 3) t (1 + Z.of_nat i)
                     (len (List.concat (firstn i blocks)))
          = Some block).
Proof.
  assert (H0 : (0 <= chunk_overlap (mkPDFIngestor 8 3))%Z) by (simpl; lia).
  assert (H1 : (chunk_overlap (mkPDFIngestor 8 3)
                < chunk_size (mkPDFIngestor 8 3))%Z) by (simpl; lia).
  split.
  - exact (proj1 (chunk_ids_gapless_and_text_covered
                    (mkPDFIngestor 8 3) (lit "  to be or  not to be ") 4 7
                    H0 H1)).
  - exact (proj2 (chunk_ids_gapless_and_text_covered
                    (mkPDFIngestor 8 3) (lit "  to be or  not to be ") 4 7
                    H0 H1)
                 [lit "  to be or "; lit "   "; lit " not to be "]).
Defined.

(** C3, as the code has it. The constructor checks nothing: it returns an
    ingestor holding the two arguments whatever they are, also when
    [chunk_overlap >= chunk_size]; and with such an ingestor [chunk_text]
    on a text that is not empty does not terminate. *)
Theorem init_accepts_nonpositive_step (chunk_size chunk_overlap : Z) :
  (chunk_overlap >= chunk_size)%Z ->
  Ingest.__init__ chunk_size chunk_overlap
  = Ok (mkPDFIngestor chunk_size chunk_overlap) /\
  forall text pn start_id fuel,
    text <> [] ->
    chunk_text_fuel fuel (mkPDFIngestor chunk_size chunk_overlap)
                    text pn start_id = None.
Proof.
  intros H. split; [reflexivity|].
  intros text pn start_id fuel Htext. unfold chunk_text_fuel.
  apply chunk_loop_stuck; [unfold step; simpl; lia | lia | exact Htext].
Qed.

Lemma init_accepts_nonpositive_step_witness :
  Ingest.__init__ 100 100 = Ok (mkPDFIngestor 100 100) /\
  forall text pn start_id fuel,
    text <> [] ->
    chunk_text_fuel fuel (mkPDFIngestor 100 100) text pn start_id = None.
Proof.
  apply (init_accepts_nonpositive_step 100 100). lia.
Defined.

(** C3, as the specification has it, fails: an overlap equal to the size is
    not rejected at construction. *)
Lemma init_does_not_reject :
  (100 >= 100)%Z /\ ~ raises (Ingest.__init__ 100 100).
Proof.
  split; [lia|]. intros [e H]. discriminate H.
Qed.

End IngestClaims.

Module ChunkClaims.
Import PyStr Ingest Spec PyStrFacts IngestFacts ChunkShape.

(** C10. Under [chunk_size > chunk_overlap >= 0] every chunk [chunk_text]
    returns has as text the stripped window [text[s : s+chunk_size]] at an
    offset [s] that is a multiple of [chunk_size - chunk_overlap]; so the
    text of a chunk is not empty, neither starts nor ends with whitespace,
    and is at most [chunk_size] long. *)
Theorem chunks_are_stripped_windows
    (self : PDFIngestor) (text : str) (pn start_id : Z) :
  (0 <= chunk_overlap self)%Z ->
  (chunk_overlap self < chunk_size self)%Z ->
  exists chunks,
    chunk_text self text pn start_id = Some chunks /\
    Forall (fun c =>
              (exists s,
                  (0 <= s)%Z /\
                  (chunk_size self - chunk_overlap self | s)%Z /\
                  Ingest.text c
                  = strip (slice text s (s + chunk_size self))) /\
              Ingest.text c <> [] /\
              no_leading_whitespace (Ingest.text c) /\
              no_trailing_whitespace (Ingest.text c) /\
              (len (Ingest.text c) <= chunk_size self)%Z)
           chunks.
Proof.
  intros H0 H1.
  destruct (@chunk_text_returns self text pn H1 start_id) as [chunks Hc].
  exists chunks. split; [exact Hc|].
  unfold chunk_text, chunk_text_fuel in Hc.
  pose proof (@chunk_loop_windows self text pn H1 _ _ _ _
                (Z.le_refl 0) Hc) as Hw.
  revert Hw. apply Forall_impl.
  intros c (_ & s & Hs & Hdiv & Ht & Hne).
  rewrite Z.sub_0_r in Hdiv. unfold window, step in *.
  split; [exists s; auto|]. split; [exact Hne|].
  rewrite Ht. split; [apply strip_no_leading|].
  split; [apply strip_no_trailing|].
  pose proof (strip_length (slice text s (s + chunk_size self))) as Hl.
  pose proof (@slice_length _ text s (s + chunk_size self) Hs
                ltac:(lia)) as Hsl.
  unfold len in *. lia.
Qed.

Lemma chunks_are_stripped_windows_witness :
  exists chunks,
    chunk_text (mkPDFIngestor 8 3) (lit "  to be or  not to be ") 4 7
    = Some chunks /\
    Forall (fun c =>
              (exists s,
                  (0 <= s)%Z /\ (8 - 3 | s)%Z /\
                  Ingest.text c
                  = strip (slice (lit "  to be or  not to be ") s (s + 8))) /\
              Ingest.text c <> [] /\
              no_leading_whitespace (Ingest.text c) /\
              no_trailing_whitespace (Ingest.text c) /\
              (len (Ingest.text c) <= 8)%Z)
           chunks.
Proof.
  apply (chunks_are_stripped_windows
           (mkPDFIngestor 8 3) (lit "  to be or  not to be ") 4 7);
    simpl; lia.
Defined.

(** A turn of the loop on a window that holds more than whitespace. *)
Lemma turn_keeps self text pn id start fuel :
  (start < len text)%Z -> window self text start <> [] ->
  chunk_loop (S fuel) self text pn [] id start
  = option_map (cons (mkPDFChunk (window self text start) pn id))
      (chunk_loop fuel self text pn [] (id + 1) (start + step self)%Z).
Proof.
  intros Hlt Hw. rewrite chunk_loop_turn.
  destruct (Z.ltb_spec start (len text)); [|lia].
  now rewrite (proj2 (truthy_true _) Hw).
Qed.

(** The turn that finds the start at or past the end of the text. *)
Lemma turn_ends self text pn id start fuel :
  (len text <= start)%Z ->
  chunk_loop (S fuel) self text pn [] id start = Some [].
Proof.
  intros Hge. rewrite chunk_loop_turn.
  destruct (Z.ltb_spec start (len text)); [lia | reflexivity].
Qed.

(** C9. A page whose text is 250 characters long, cut with
    [chunk_size = 100] and [chunk_overlap = 20], every window holding more
    than whitespace: there are exactly four chunks, numbered 0, 1, 2, 3,
    whose texts are the stripped windows starting at 0, 80, 160 and 240.
    The same holds of the pipeline when the document is that single page. *)
Theorem four_chunks_of_250_characters (text : str) (pn : Z) :
  List.length text = 250%nat ->
  strip (slice text 0 100) <> [] ->
  strip (slice text 80 180) <> [] ->
  strip (slice text 160 260) <> [] ->
  strip (slice text 240 340) <> [] ->
  chunk_text (mkPDFIngestor 100 20) text pn 0
  = Some [ mkPDFChunk (strip (slice text 0 100)) pn 0;
           mkPDFChunk (strip (slice text 80 180)) pn 1;
           mkPDFChunk (strip (slice text 160 260)) pn 2;
           mkPDFChunk (strip (slice text 240 340)) pn 3 ] /\
  ingest_pdf (mkPDFIngestor 100 20) [text]
  = Some [ mkPDFChunk (strip (slice text 0 100)) 1 0;
           mkPDFChunk (strip (slice text 80 180)) 1 1;
           mkPDFChunk (strip (slice text 160 260)) 1 2;
           mkPDFChunk (strip (slice text 240 340)) 1 3 ].
Proof.
  intros Hlength W0 W1 W2 W3.
  assert (Hlen : len text = 250%Z) by (unfold len; now rewrite Hlength).
  assert (Hrun : forall p,
    chunk_text (mkPDFIngestor 100 20) text p 0
    = Some [ mkPDFChunk (strip (slice text 0 100)) p 0;
             mkPDFChunk (strip (slice text 80 180)) p 1;
             mkPDFChunk (strip (slice text 160 260)) p 2;
             mkPDFChunk (strip (slice text 240 340)) p 3 ]).
  { intros p. unfold chunk_text, chunk_text_fuel. rewrite Hlength.
    set (self := mkPDFIngestor 100 20).
    assert (Hstep : step self = 80%Z) by reflexivity.
    rewrite (@turn_keeps self text p 0 0 250);
      [| rewrite Hlen; lia | exact W0].
    rewrite (@turn_keeps self text p (0 + 1) (0 + step self) 249);
      [| rewrite Hlen, Hstep; lia | exact W1].
    rewrite (@turn_keeps self text p (0 + 1 + 1)
               (0 + step self + step self) 248);
      [| rewrite Hlen, Hstep; lia | exact W2].
    rewrite (@turn_keeps self text p (0 + 1 + 1 + 1)
               (0 + step self + step self + step self) 247);
      [| rewrite Hlen, Hstep; lia | exact W3].
    rewrite turn_ends by (rewrite Hlen, Hstep; lia).
    reflexivity. }
  split; [apply Hrun|].
  unfold ingest_pdf, extract_text_from_pdf, extract_pages.
  assert (Ht : truthy text = true).
  { apply truthy_true. intros ->. discriminate Hlength. }
  assert (Hs : truthy (strip text) = true).
  { apply truthy_true, strip_nonempty.
    apply strip_nonempty in W0 as (c & Hin & Hc).
    exists c. split; [eapply slice_subset, Hin | exact Hc]. }
  rewrite Ht, Hs. cbn [andb ingest_loop pd_text pd_page_number].
  rewrite Hrun. reflexivity.
Qed.

Lemma four_chunks_of_250_characters_witness :
  chunk_text (mkPDFIngestor 100 20) Examples.page_of_250 1 0
  = Some [ mkPDFChunk (strip (slice Examples.page_of_250 0 100)) 1 0;
           mkPDFChunk (strip (slice Examples.page_of_250 80 180)) 1 1;
           mkPDFChunk (strip (slice Examples.page_of_250 160 260)) 1 2;
           mkPDFChunk (strip (slice Examples.page_of_250 240 340)) 1 3 ] /\
  ingest_pdf (mkPDFIngestor 100 20) [Examples.page_of_250]
  = Some [ mkPDFChunk (strip (slice Examples.page_of_250 0 100)) 1 0;
           mkPDFChunk (strip (slice Examples.page_of_250 80 180)) 1 1;
           mkPDFChunk (strip (slice Examples.page_of_250 160 260)) 1 2;
           mkPDFChunk (strip (slice Examples.page_of_250 240 340)) 1 3 ].
Proof.
  apply (four_chunks_of_250_characters Examples.page_of_250 1);
    [reflexivity | vm_compute; discriminate ..].
Defined.

End ChunkClaims.

(* ================================================================== *)
(** * Citations *)
(* ================================================================== *)

Module CitationFacts.
Import PyStr Ingest Prompt.

Lemma uint_digits (u : Decimal.uint) :
  Forall (fun c => isdigit c = true) (lit (NilEmpty.string_of_uint u)).
Proof.
  induction u; simpl; constructor; (reflexivity || assumption).
Qed.

Lemma uint_nonempty (u : Decimal.uint) :
  u <> Decimal.Nil -> lit (NilEmpty.string_of_uint u) <> [].
Proof. destruct u; simpl; congruence. Qed.

(** The decimal form of a natural number: digits, and at least one. *)
Lemma of_int_digits (z : Z) :
  (0 <= z)%Z ->
  of_int z <> [] /\ Forall (fun c => isdigit c = true) (of_int z).
Proof.
  intros Hz. unfold of_int. destruct z as [|p|p]; [| |lia].
  - split; [discriminate | repeat constructor].
  - simpl. split.
    + apply uint_nonempty, Unsigned.to_uint_nonnil.
    + apply uint_digits.
Qed.

(** Reading back what was written. *)
Lemma to_int_of_int (z : Z) : to_int (of_int z) = Some z.
Proof.
  unfold to_int, of_int, lit.
  rewrite string_of_list_ascii_of_string, NilEmpty.isi. simpl.
  now rewrite DecimalZ.of_to.
Qed.

(** A run of digits followed by something that is no digit is split off
    whole. *)
Lemma span_digits_run (ds rest : str) :
  Forall (fun c => isdigit c = true) ds ->
  match rest with [] => True | c :: _ => isdigit c = false end ->
  span_digits (ds ++ rest) = (ds, rest).
Proof.
  intros Hds Hrest. induction Hds as [|d ds Hd _ IH]; simpl.
  - destruct rest as [|c rest]; [reflexivity|]. simpl. now rewrite Hrest.
  - now rewrite Hd, IH.
Qed.

(** The pattern matches a citation token at the head of a string, with the
    two numerals as its groups. *)
Lemma match_citation_token (page chunk rest : str) :
  page <> [] -> Forall (fun c => isdigit c = true) page ->
  chunk <> [] -> Forall (fun c => isdigit c = true) chunk ->
  match_citation (lit "[p" ++ page ++ lit ":c" ++ chunk ++ lit "]" ++ rest)
  = Some (page, chunk, rest).
Proof.
  intros Hp Dp Hc Dc. unfold match_citation.
  cbn [lit list_ascii_of_string app].
  rewrite (span_digits_run page _ Dp) by reflexivity.
  destruct page as [|p0 page']; [congruence|].
  rewrite (span_digits_run chunk _ Dc) by reflexivity.
  destruct chunk as [|c0 chunk']; [congruence|].
  reflexivity.
Qed.

Lemma findall_fuel_nil fuel : findall_fuel fuel [] = [].
Proof. destruct fuel; reflexivity. Qed.

Lemma span_digits_splits (s ds rest : str) :
  span_digits s = (ds, rest) -> s = ds ++ rest.
Proof.
  revert ds rest. induction s as [|c s IH]; simpl; intros ds rest H.
  - now injection H as <- <-.
  - destruct (isdigit c).
    + destruct (span_digits s) as [ds' rest'] eqn:E.
      injection H as <- <-. simpl. f_equal. now apply IH.
    + now injection H as <- <-.
Qed.

(** A match consumes at least one character. *)
Lemma match_citation_shorter (s page chunk rest : str) :
  match_citation s = Some (page, chunk, rest) ->
  (List.length rest < List.length s)%nat.
Proof.
  unfold match_citation. intros H.
  repeat match type of H with
         | match ?x with _ => _ end = _ =>
             let E := fresh "E" in destruct x eqn:E; try discriminate H
         | (if ?b then _ else _) = _ =>
             destruct b; try discriminate H
         end.
  injection H as <- <- <-.
  repeat match goal with
         | E : span_digits _ = _ |- _ =>
             apply span_digits_splits in E; rewrite E; clear E
         end.
  simpl. rewrite ?length_app. simpl. rewrite ?length_app. simpl. lia.
Qed.

(** The positions of a string are fuel enough: with more, [findall_fuel]
    finds the same matches. *)
Lemma findall_fuel_enough (n m : nat) (s : str) :
  (List.length s <= n)%nat -> (List.length s <= m)%nat ->
  findall_fuel n s = findall_fuel m s.
Proof.
  revert m s. induction n as [|n IH]; intros m s Hn Hm.
  - destruct s; [now rewrite !findall_fuel_nil | simpl in Hn; lia].
  - destruct m as [|m].
    + destruct s; [reflexivity | simpl in Hm; lia].
    + destruct s as [|a s']; [reflexivity|]. cbn [findall_fuel].
      destruct (match_citation (a :: s')) as [[[page chunk] rest]|] eqn:E.
      * apply match_citation_shorter in E. f_equal. apply IH; lia.
      * simpl in Hn, Hm. apply IH; lia.
Qed.

End CitationFacts.

Module CitationClaims.
Import PyStr Ingest Prompt CitationFacts.

(** C6. For a chunk whose page number and identifier are natural numbers,
    the pattern finds in the chunk's citation exactly one match, whose two
    groups are the decimal numerals of the page number and of the
    identifier (read back as integers they are the two numbers), and
    [parse_response_for_citations] returns that one citation, as the string
    [p<page>:c<chunk_id>]. *)
Theorem citation_round_trip (chunk : PDFChunk) :
  (0 <= page_number chunk)%Z ->
  (0 <= chunk_id chunk)%Z ->
  findall (get_citation chunk)
  = [(of_int (page_number chunk), of_int (chunk_id chunk))] /\
  to_int (of_int (page_number chunk)) = Some (page_number chunk) /\
  to_int (of_int (chunk_id chunk)) = Some (chunk_id chunk) /\
  parse_response_for_citations (get_citation chunk)
  = [lit "p" ++ of_int (page_number chunk)
     ++ lit ":c" ++ of_int (chunk_id chunk)].
Proof.
  intros Hp Hc.
  destruct (of_int_digits _ Hp) as [Np Dp].
  destruct (of_int_digits _ Hc) as [Nc Dc].
  assert (Hfind : findall (get_citation chunk)
                  = [(of_int (page_number chunk), of_int (chunk_id chunk))]).
  { unfold findall, get_citation.
    pose proof (match_citation_token _ _ [] Np Dp Nc Dc) as Hm.
    rewrite app_nil_r in Hm.
    remember (lit "[p" ++ of_int (page_number chunk) ++ lit ":c"
              ++ of_int (chunk_id chunk) ++ lit "]") as s eqn:Es.
    destruct s as [|a s']; [discriminate Es|].
    cbn [List.length findall_fuel]. rewrite Hm.
    now rewrite findall_fuel_nil. }
  split; [exact Hfind|].
  split; [apply to_int_of_int|].
  split; [apply to_int_of_int|].
  unfold parse_response_for_citations. now rewrite Hfind.
Qed.

Lemma citation_round_trip_witness :
  findall (get_citation (mkPDFChunk (lit "x") 12 345))
  = [(of_int 12, of_int 345)] /\
  to_int (of_int 12) = Some 12%Z /\
  to_int (of_int 345) = Some 345%Z /\
  parse_response_for_citations (get_citation (mkPDFChunk (lit "x") 12 345))
  = [lit "p" ++ of_int 12 ++ lit ":c" ++ of_int 345].
Proof.
  apply (citation_round_trip (mkPDFChunk (lit "x") 12 345)); simpl; lia.
Defined.

End CitationClaims.

(* ================================================================== *)
(** * Refusals *)
(* ================================================================== *)

Module ContainsFacts.
Import PyStr Spec PyStrFacts.

Lemma startswith_spec (p s : str) :
  startswith p s = true <-> exists after, s = p ++ after.
Proof.
  revert s. induction p as [|a p IH]; intros s; simpl.
  - split; [eauto | reflexivity].
  - destruct s as [|b s].
    + split; [discriminate | intros [after H]; discriminate H].
    + rewrite andb_true_iff, Ascii.eqb_eq, IH. split.
      * intros [-> [after ->]]. eauto.
      * intros [after H]. injection H as -> ->. eauto.
Qed.

(** [sub in s] holds exactly when [sub] occurs in [s]. *)
Lemma contains_spec (sub s : str) :
  contains sub s = true <-> occurs_in sub s.
Proof.
  unfold occurs_in. induction s as [|b s IH].
  - simpl. rewrite orb_false_r, startswith_spec. split.
    + intros [after H]. exists [], after. exact H.
    + intros (before & after & H).
      destruct before; [eauto | discriminate H].
  - cbn [contains]. rewrite orb_true_iff, startswith_spec, IH. split.
    + intros [[after H] | (before & after & H)].
      * exists [], after. exact H.
      * exists (b :: before), after. simpl. now rewrite H.
    + intros (before & after & H). destruct before as [|b' before].
      * left. eauto.
      * right. injection H as _ H. eauto.
Qed.

Lemma occurs_in_within (sub s l r : str) :
  occurs_in sub s -> occurs_in sub (l ++ s ++ r).
Proof.
  intros (before & after & ->). exists (l ++ before), (after ++ r).
  now rewrite <- !app_assoc.
Qed.

Lemma occurs_in_rev (sub s : str) :
  occurs_in sub s -> occurs_in (rev sub) (rev s).
Proof.
  intros (before & after & ->). exists (rev after), (rev before).
  now rewrite !rev_app_distr, <- app_assoc.
Qed.

Lemma lstrip_suffix (s : str) : exists l, s = l ++ lstrip s.
Proof.
  induction s as [|a s [l IH]]; simpl.
  - now exists [].
  - destruct (isspace a).
    + exists (a :: l). simpl. now rewrite <- IH.
    + now exists [].
Qed.

Lemma lstrip_keeps (u v : str) :
  solid_head v -> exists u', lstrip (u ++ v) = u' ++ v.
Proof.
  intros Hv. induction u as [|a u [u' IH]]; simpl.
  - exists []. destruct v as [|b v]; [destruct Hv|].
    simpl in *. now rewrite Hv.
  - destruct (isspace a); [eauto | now exists (a :: u)].
Qed.

Lemma occurs_in_lstrip (p s : str) :
  solid_head p -> (occurs_in p (lstrip s) <-> occurs_in p s).
Proof.
  intros Hp. split.
  - intros H. destruct (lstrip_suffix s) as [l Hl]. rewrite Hl.
    apply (occurs_in_within p (lstrip s) l []) in H.
    now rewrite app_nil_r in H.
  - intros (before & after & ->).
    destruct (lstrip_keeps before (p ++ after)) as [u' ->].
    + destruct p; [destruct Hp | exact Hp].
    + now exists u', after.
Qed.

Lemma occurs_in_rstrip (p s : str) :
  solid_head (rev p) -> (occurs_in p (rstrip s) <-> occurs_in p s).
Proof.
  intros Hp. unfold rstrip. split; intros H.
  - apply occurs_in_rev in H. rewrite rev_involutive in H.
    apply (proj1 (occurs_in_lstrip (rev p) (rev s) Hp)) in H.
    apply occurs_in_rev in H. now rewrite !rev_involutive in H.
  - apply occurs_in_rev in H.
    apply (proj2 (occurs_in_lstrip (rev p) (rev s) Hp)) in H.
    apply occurs_in_rev in H. now rewrite rev_involutive in H.
Qed.

(** Stripping a string neither adds nor removes an occurrence of a phrase
    that begins and ends with characters that are no whitespace. *)
Lemma occurs_in_strip (p s : str) :
  solid_head p -> solid_head (rev p) ->
  (occurs_in p (strip s) <-> occurs_in p s).
Proof.
  intros H1 H2. unfold strip.
  now rewrite occurs_in_rstrip, occurs_in_lstrip.
Qed.

End ContainsFacts.

Module RefusalClaims.
Import PyStr Spec Prompt Validate ContainsFacts.

(** The two tests, each by what it looks for. *)
Lemma refusal_classification_parts :
  (forall response,
      is_not_found_response response = true <->
      exists phrase,
        In phrase not_found_phrases /\ occurs_in phrase (lower response)) /\
  (forall response,
      is_not_found (validate_response_format response) = true <->
      occurs_in (lit "Not found in the document") response).
Proof.
  split.
  - intros response. unfold is_not_found_response.
    rewrite existsb_exists.
    assert (Hsolid : forall phrase,
               In phrase not_found_phrases ->
               solid_head phrase /\ solid_head (rev phrase)).
    { intros phrase Hin. simpl in Hin.
      decompose [or] Hin; subst; try (split; reflexivity). contradiction. }
    split; intros (phrase & Hin & Hc); exists phrase;
      (split; [exact Hin|]); destruct (Hsolid phrase Hin) as [H1 H2].
    + apply contains_spec in Hc. revert Hc. now apply occurs_in_strip.
    + apply contains_spec. revert Hc. now apply occurs_in_strip.
  - intros response. unfold validate_response_format. cbn [is_not_found].
    apply contains_spec.
Qed.

(** C5, as the code has it. There are two tests for a refusal.
    [is_not_found_response] holds of a response exactly when its lower-case
    form contains one of the four phrases. The field [is_not_found] of
    [validate_response_format] holds exactly when the response contains,
    letter case included, the one phrase [Not found in the document]; and
    [valid] holds exactly when [is_not_found] does or all three sections are
    there. On the string [Not found in the document.] both tests hold and
    the response is valid. *)
Theorem refusal_classification :
  (forall response,
      is_not_found_response response = true <->
      exists phrase,
        In phrase not_found_phrases /\ occurs_in phrase (lower response)) /\
  (forall response,
      is_not_found (validate_response_format response) = true <->
      occurs_in (lit "Not found in the document") response) /\
  (forall response,
      valid (validate_response_format response)
      = is_not_found (validate_response_format response)
        || (has_answer_section (validate_response_format response)
            && has_citations_section (validate_response_format response)
            && has_evidence_section (validate_response_format response))) /\
  is_not_found_response (lit "Not found in the document.") = true /\
  is_not_found (validate_response_format (lit "Not found in the document."))
  = true /\
  valid (validate_response_format (lit "Not found in the document.")) = true.
Proof.
  split; [apply refusal_classification_parts|].
  split; [apply refusal_classification_parts|].
  split; [|repeat split].
  - intros response. unfold validate_response_format.
    cbn [valid is_not_found has_answer_section has_citations_section
         has_evidence_section forallb].
    destruct (contains (lit "Not found in the document") response);
      [reflexivity|].
    destruct (contains (lit "Answer:") response),
             (contains (lit "Citations:") response),
             (contains (lit "Evidence:") response); reflexivity.
Qed.

(** The test of the validator is the narrower one: what it takes for a
    refusal, [is_not_found_response] does too. *)
Lemma validator_refusal_is_a_refusal (response : str) :
  is_not_found (validate_response_format response) = true ->
  is_not_found_response response = true.
Proof.
  intros H.
  apply (proj1 (proj2 refusal_classification_parts response)) in H.
  apply (proj2 (proj1 refusal_classification_parts response)).
  exists (lit "not found in the document"). split; [simpl; tauto|].
  destruct H as (before & after & ->).
  exists (lower before), (lower after).
  unfold lower. now rewrite !map_app.
Qed.

(** C5, as the specification has it, fails for the validator: a response
    that contains the phrase [does not contain] is no refusal to
    [validate_response_format], and is not valid. *)
Lemma validator_misses_refusal_phrase :
  In (lit "does not contain") not_found_phrases /\
  occurs_in (lit "does not contain")
            (lower (lit "The document does not contain that figure.")) /\
  is_not_found
    (validate_response_format
       (lit "The document does not contain that figure.")) = false /\
  valid
    (validate_response_format
       (lit "The document does not contain that figure.")) = false.
Proof.
  split; [simpl; tauto|]. split; [|split; reflexivity].
  exists (lit "the document "), (lit " that figure."). reflexivity.
Qed.

End RefusalClaims.

(* ================================================================== *)
(** * The retriever *)
(* ================================================================== *)

Module RetrieverFacts.
Import PyStr Ingest Retriever Spec PyStrFacts.
Section WithBackend.
Context {B : Backend}.

Lemma label_from_ok (i : Z) (scores : list score) :
  (0 <= i)%Z ->
  Forall (label_ok (i + len scores)) (Faiss.label_from i scores).
Proof.
  revert i. induction scores as [|s scores IH]; intros i Hi; simpl.
  - constructor.
  - assert (E : (i + len (s :: scores) = i + 1 + len scores)%Z)
      by (unfold len; simpl List.length; lia).
    rewrite E. constructor.
    + unfold label_ok, len. simpl. lia.
    + apply IH. lia.
Qed.

Lemma rank_insert_ok (n : Z) (h : Faiss.hit) (ranked : list Faiss.hit) :
  label_ok n h -> Forall (label_ok n) ranked ->
  Forall (label_ok n) (Faiss.rank_insert h ranked).
Proof.
  intros Hh. induction 1 as [|h' rest Hh' Hrest IH]; simpl.
  - constructor; [exact Hh | constructor].
  - destruct (score_ltb (snd h) (snd h')).
    + constructor; assumption.
    + constructor; [exact Hh|]. constructor; assumption.
Qed.

Lemma ranked_ok (n : Z) (hits : list Faiss.hit) :
  Forall (label_ok n) hits ->
  Forall (label_ok n) (fold_right Faiss.rank_insert [] hits).
Proof.
  induction 1; simpl; [constructor | now apply rank_insert_ok].
Qed.

Lemma firstn_Forall {A} (P : A -> Prop) (k : nat) (l : list A) :
  Forall P l -> Forall P (firstn k l).
Proof.
  intros H. revert k. induction H; intros [|k]; simpl; constructor; auto.
Qed.

(** A search for [k > 0] neighbours returns [k] rows, whatever the number
    of vectors stored, each labelled by a position or by [-1]. *)
Lemma search_rows (idx : Faiss.IndexFlatIP) (x : vec) (k : Z) :
  (0 < k)%Z ->
  exists rows,
    Faiss.search idx x k = Ok (map snd rows, map fst rows) /\
    List.length rows = Z.to_nat k /\
    Forall (label_ok (len idx)) rows.
Proof.
  intros Hk. unfold Faiss.search.
  destruct (Z.leb_spec k 0); [lia|].
  eexists. split; [reflexivity|]. split.
  - rewrite length_app, repeat_length.
    pose proof (firstn_le_length (Z.to_nat k)
      (fold_right Faiss.rank_insert []
         (Faiss.label_from 0 (map (inner_product x) idx)))).
    lia.
  - apply Forall_app. split.
    + apply firstn_Forall, ranked_ok.
      pose proof (@label_from_ok 0 (map (inner_product x) idx)
                    (Z.le_refl 0)) as H1.
      unfold len in *. rewrite length_map in H1. exact H1.
    + apply Forall_forall. intros h Hh. apply repeat_spec in Hh. subst h.
      unfold label_ok. simpl. pose proof (len_nonneg idx). lia.
Qed.

(** The test [idx < len(self.chunks)] lets every such row through: a
    position is below the length, and so is [-1], which then indexes the
    last chunk. *)
Lemma retrieve_loop_keeps_all (chunks : list PDFChunk)
    (rows : list (Z * score)) (acc : list (PDFChunk * score)) :
  chunks <> [] ->
  Forall (label_ok (len chunks)) rows ->
  exists results,
    retrieve_loop chunks rows acc = Ok results /\
    List.length results = (List.length acc + List.length rows)%nat.
Proof.
  intros Hne Hrows. revert acc.
  assert (Hpos : (0 < len chunks)%Z).
  { destruct chunks; [congruence | unfold len; simpl; lia]. }
  induction Hrows as [|[idx sc] rows Hh _ IH]; intros acc; simpl.
  - exists acc. split; [reflexivity | lia].
  - unfold label_ok in Hh. simpl in Hh.
    destruct (Z.ltb_spec idx (len chunks)); [|lia].
    unfold PyStr.index.
    set (j := if (idx <? 0)%Z then (idx + len chunks)%Z else idx).
    assert (Hj : (0 <= j < len chunks)%Z).
    { subst j. destruct (Z.ltb_spec idx 0); lia. }
    destruct (Z.leb_spec 0 j); [|lia].
    destruct (Z.ltb_spec j (len chunks)); [|lia]. simpl.
    destruct (nth_error chunks (Z.to_nat j)) as [c|] eqn:E.
    + destruct (IH (acc ++ [(c, sc)])) as (results & Hr & Hl).
      exists results. split; [exact Hr|].
      rewrite Hl, length_app. simpl. lia.
    + apply nth_error_None in E. unfold len in Hj. lia.
Qed.

Lemma combine_fst_snd {X Y} (rows : list (X * Y)) :
  combine (map fst rows) (map snd rows) = rows.
Proof.
  induction rows as [|[a b] rows IH]; simpl; [reflexivity | now rewrite IH].
Qed.

(** On an index built from chunks, [retrieve] returns [top_k] pairs for
    every [top_k > 0]: as many as were asked for, also when fewer chunks
    are stored. *)
Lemma retrieve_returns_top_k (chunks : list PDFChunk)
    (r : VectorRetriever) (query : str) (top_k : Z) :
  build_index new chunks = Ok r ->
  (0 < top_k)%Z ->
  exists results,
    retrieve r query top_k = Ok results /\ len results = top_k.
Proof.
  intros Hb Hk. unfold build_index in Hb.
  destruct chunks as [|c0 chunks']; [discriminate Hb|].
  simpl in Hb. injection Hb as <-.
  unfold retrieve. cbn [index Retriever.chunks].
  destruct (search_rows (encode (text c0) :: map encode (map text chunks'))
              (encode query) top_k Hk) as (rows & Hs & Hl & Hok).
  rewrite Hs, combine_fst_snd.
  destruct (@retrieve_loop_keeps_all (c0 :: chunks') rows [])
    as (results & Hr & Hlen).
  - discriminate.
  - revert Hok. apply Forall_impl. unfold label_ok, len. simpl.
    rewrite !length_map. auto.
  - exists results. split; [exact Hr|].
    unfold len. rewrite Hlen, Hl. simpl. lia.
Qed.

End WithBackend.
End RetrieverFacts.

Module RetrieverClaims.
Import PyStr Ingest Retriever Spec RetrieverFacts Examples.

(** C1 does not hold of the code. Asked for three neighbours on an index
    built from two chunks, [retrieve] returns three pairs: the two chunks by
    descending score and then the last chunk once more, with the lowest
    score, the row the search fills in for the missing neighbour. *)
Theorem retrieve_pads_to_top_k :
  exists r,
    build_index (B := length_backend) new two_chunks = Ok r /\
    retrieve (B := length_backend) r (lit "gamma") 3
    = Ok [ (mkPDFChunk (lit "beta gamma") 1 1, 50%Z);
           (mkPDFChunk (lit "alpha") 1 0, 25%Z);
           (mkPDFChunk (lit "beta gamma") 1 1, (- 2 ^ 128)%Z) ].
Proof.
  eexists. split; reflexivity.
Qed.

(** The same in general: whenever more neighbours are asked for than chunks
    are stored, the result is longer than the index. *)
Lemma retrieve_longer_than_index {B : Backend} (chunks : list PDFChunk)
    (r : VectorRetriever) (query : str) (top_k : Z) :
  build_index new chunks = Ok r ->
  (len chunks < top_k)%Z ->
  exists results,
    retrieve r query top_k = Ok results /\
    len results = top_k /\ (len chunks < len results)%Z.
Proof.
  intros Hb Hk.
  assert (H0 : (0 < top_k)%Z) by (pose proof (PyStrFacts.len_nonneg chunks); lia).
  destruct (retrieve_returns_top_k chunks r query top_k Hb H0)
    as (results & Hr & Hl).
  exists results. repeat split; try assumption. lia.
Qed.

End RetrieverClaims.

(* ================================================================== *)
(** * The chat agent *)
(* ================================================================== *)

Module ChatFacts.
Import PyStr Ingest Retriever Prompt Chat PyStrFacts.

Lemma str_eqb_eq (a b : str) : str_eqb a b = true <-> a = b.
Proof.
  unfold str_eqb. destruct (list_eq_dec ascii_dec a b); split;
    congruence.
Qed.

Lemma mem_In (x : str) (l : list str) : mem x l = true <-> In x l.
Proof.
  unfold mem. rewrite existsb_exists. split.
  - intros (y & Hin & Heq). apply str_eqb_eq in Heq. now subst.
  - intros Hin. exists x. split; [exact Hin | now apply str_eqb_eq].
Qed.

(** The heuristic, read as a proposition. *)
Lemma needs_rewrite_spec (query : str) :
  needs_rewrite query = true <->
  (len (split query) < 5)%Z \/
  exists pronoun, In pronoun pronouns /\ In pronoun (split (lower query)).
Proof.
  unfold needs_rewrite. rewrite orb_true_iff, Z.ltb_lt, existsb_exists.
  split; (intros [H|(p & Hp & Hin)]; [now left | right; exists p]);
    (split; [exact Hp | now apply mem_In]).
Qed.

(** The f-string of [build_grounded_prompt] names [page], which nothing in
    scope binds: the function raises [NameError] on every input. *)
Lemma build_grounded_prompt_raises {S : Type} (query : str)
    (retrieved_chunks : list (PDFChunk * S))
    (conversation_history : list (str * str)) :
  build_grounded_prompt query retrieved_chunks conversation_history
  = Raise NameError.
Proof. reflexivity. Qed.

(** The f-string of [rewrite_query_with_history] names only what is bound:
    the function returns. *)
Lemma rewrite_query_with_history_returns (query : str)
    (conversation_history : list (str * str)) :
  exists prompt,
    rewrite_query_with_history query conversation_history = Ok prompt.
Proof.
  unfold rewrite_query_with_history.
  destruct (truthy conversation_history); simpl; eauto.
Qed.

Section WithCollaborators.
Context {B : Backend} {G : Generator}.

(** The rewrite step never raises and leaves the agent as it was. *)
Lemma rewrite_returns (query : str) (st : state) :
  exists standalone st',
    _rewrite_query_if_needed query st = (Ok standalone, st') /\
    self st' = self st.
Proof.
  unfold _rewrite_query_if_needed, bind, get_self, ret, try_except, lift.
  destruct (fallback_mode (self st) || negb (truthy (conversation_history (self st))));
    [eauto|].
  destruct (negb (needs_rewrite query)); [eauto|].
  destruct (rewrite_query_with_history query (conversation_history (self st)));
    [|eauto].
  unfold call_model. destruct (model (self st)) as [m|]; [|eauto].
  destruct (generate_content m (sent st) a); simpl; eauto.
Qed.

(** When the heuristic fires in generation mode, with a history, the
    generator is sent the rewrite prompt. *)
Lemma rewrite_attempted_when_triggered (query : str) (st : state) (m : Model) :
  fallback_mode (self st) = false ->
  conversation_history (self st) <> [] ->
  needs_rewrite query = true ->
  model (self st) = Some m ->
  exists prompt,
    rewrite_query_with_history query (conversation_history (self st))
    = Ok prompt /\
    sent (snd (_rewrite_query_if_needed query st)) = sent st ++ [prompt].
Proof.
  intros Hm Hh Hn Hmodel.
  destruct (rewrite_query_with_history_returns
              query (conversation_history (self st))) as [prompt Hp].
  exists prompt. split; [exact Hp|].
  apply truthy_true in Hh.
  unfold _rewrite_query_if_needed, bind, get_self, ret, try_except, lift,
    call_model.
  rewrite Hm, Hh, Hn, Hp. cbn [orb negb]. rewrite Hmodel.
  destruct (generate_content m (sent st) prompt); reflexivity.
Qed.

(** In fallback mode the rewrite step is skipped. *)
Lemma rewrite_skipped_in_fallback (query : str) (st : state) :
  fallback_mode (self st) = true ->
  _rewrite_query_if_needed query st = (Ok query, st).
Proof.
  intros H. unfold _rewrite_query_if_needed, bind, get_self, ret.
  now rewrite H.
Qed.

(** [answer_query], step by step: the rewrite, the retrieval, and then
    either the fallback rendering, recorded in the history, or an attempt
    to build the prompt. *)
Lemma answer_query_steps (query : str) (st : state) :
  answer_query query st
  = match _rewrite_query_if_needed query st with
    | (Raise e, st1) => (Raise e, st1)
    | (Ok standalone, st1) =>
        match retrieve (retriever (self st1)) standalone (top_k (self st1))
        with
        | Raise e => (Raise e, st1)
        | Ok rs =>
            if fallback_mode (self st1)
            then (Ok (_generate_fallback_response query rs),
                  snd (append_history
                         (query, _generate_fallback_response query rs) st1))
            else (Raise NameError, st1)
        end
    end.
Proof.
  unfold answer_query, bind, get_self, lift, ret.
  destruct (_rewrite_query_if_needed query st) as [[sq|e] st1];
    [|reflexivity].
  destruct (retrieve (retriever (self st1)) sq (top_k (self st1)))
    as [rs|e]; [|reflexivity].
  destruct (fallback_mode (self st1)); [reflexivity|].
  now rewrite build_grounded_prompt_raises.
Qed.

(** No call changes the mode of the agent. *)
Lemma answer_query_keeps_mode (query : str) (st : state) :
  fallback_mode (self (snd (answer_query query st)))
  = fallback_mode (self st).
Proof.
  rewrite answer_query_steps.
  destruct (rewrite_returns query st) as (sq & st1 & -> & Hself).
  destruct (retrieve (retriever (self st1)) sq (top_k (self st1)))
    as [rs|e]; [|cbn [snd]; now rewrite Hself].
  destruct (fallback_mode (self st1)) eqn:Hm; cbn [snd].
  - unfold append_history. cbn [snd self fallback_mode].
    now rewrite <- Hself.
  - now rewrite Hself.
Qed.

Lemma after_keeps_mode (c : call) (st : state) :
  fallback_mode (self (after c st)) = fallback_mode (self st).
Proof.
  destruct c; simpl; [apply answer_query_keeps_mode | reflexivity..].
Qed.

(** The mode set at construction stays for the lifetime of the agent. *)
Lemma mode_is_for_life (cs : list call) (st : state) :
  fallback_mode (self (after_all cs st)) = fallback_mode (self st).
Proof.
  unfold after_all. revert st.
  induction cs as [|c cs IH]; intros st; simpl; [reflexivity|].
  now rewrite IH, after_keeps_mode.
Qed.

(** A generator that cannot be set up leaves the agent in fallback mode. *)
Lemma init_failure_is_fallback (r : VectorRetriever) (key model_name : str)
    (k : Z) (dbg : bool) (e : exn) :
  make_model key model_name = Raise e ->
  Chat.__init__ r (Some key) model_name k dbg
  = mkAgent r k dbg (Some key) true None [].
Proof. intros H. unfold Chat.__init__. now rewrite H. Qed.

(** In generation mode, once the chunks are retrieved, [answer_query]
    raises [NameError]: the prompt is built outside the [try], before the
    generator is reached, and nothing is added to the history. *)
Lemma generation_mode_raises (query : str) (st : state) :
  fallback_mode (self st) = false ->
  (forall standalone,
      ~ raises (retrieve (retriever (self st)) standalone
                         (top_k (self st)))) ->
  fst (answer_query query st) = Raise NameError /\
  self (snd (answer_query query st)) = self st.
Proof.
  intros Hm Hr. rewrite answer_query_steps.
  destruct (rewrite_returns query st) as (sq & st1 & -> & Hself).
  rewrite Hself.
  destruct (retrieve (retriever (self st)) sq (top_k (self st)))
    as [rs|e] eqn:E.
  - rewrite Hm. cbn [fst snd]. auto.
  - exfalso. apply (Hr sq). exists e. exact E.
Qed.

End WithCollaborators.
End ChatFacts.

Module ChatClaims.
Import PyStr Ingest Retriever Prompt Chat PyStrFacts ChatFacts
       RetrieverFacts Examples.

(** C7. The rewrite step returns the query as it came, and calls nothing,
    whenever the history is empty, and also whenever the query splits into
    five tokens or more and none of the nine pronouns is a token of its
    lower-case form. The generator is called for a rewrite only when the
    history is not empty and the query has fewer than five tokens or has a
    pronoun among its tokens. *)
Theorem rewrite_only_when_triggered {B : Backend} {G : Generator} :
  (forall query st,
      conversation_history (self st) = [] ->
      _rewrite_query_if_needed query st = (Ok query, st)) /\
  (forall query st,
      (5 <= len (split query))%Z ->
      (forall pronoun,
          In pronoun pronouns -> ~ In pronoun (split (lower query))) ->
      _rewrite_query_if_needed query st = (Ok query, st)) /\
  (forall query st,
      sent (snd (_rewrite_query_if_needed query st)) <> sent st ->
      conversation_history (self st) <> [] /\
      ((len (split query) < 5)%Z \/
       exists pronoun,
         In pronoun pronouns /\ In pronoun (split (lower query)))).
Proof.
  split; [|split].
  - intros query st H.
    unfold _rewrite_query_if_needed, bind, get_self, ret.
    rewrite H. simpl. now rewrite orb_true_r.
  - intros query st H5 Hp.
    assert (Hn : needs_rewrite query = false).
    { destruct (needs_rewrite query) eqn:E; [|reflexivity].
      apply needs_rewrite_spec in E as [E|(p & Hin & Ht)]; [lia|].
      destruct (Hp p Hin Ht). }
    unfold _rewrite_query_if_needed, bind, get_self, ret.
    rewrite Hn.
    destruct (fallback_mode (self st)
              || negb (truthy (conversation_history (self st))));
      reflexivity.
  - intros query st Hsent.
    unfold _rewrite_query_if_needed, bind, get_self, ret in Hsent.
    destruct (fallback_mode (self st)); [now destruct Hsent|].
    destruct (conversation_history (self st)) as [|turn turns] eqn:Eh;
      [now destruct Hsent|].
    split; [discriminate|].
    destruct (needs_rewrite query) eqn:En; [|now destruct Hsent].
    now apply needs_rewrite_spec.
Qed.

Lemma rewrite_only_when_triggered_witness :
  _rewrite_query_if_needed (lit "What was the total revenue in 2020?")
                           talking_agent
  = (Ok (lit "What was the total revenue in 2020?"), talking_agent) /\
  (conversation_history (self talking_agent) <> [] /\
   ((len (split (lit "And what about them?")) < 5)%Z \/
    exists pronoun,
      In pronoun pronouns /\
      In pronoun (split (lower (lit "And what about them?"))))).
Proof.
  split.
  - apply (proj1 (proj2 (@rewrite_only_when_triggered
                           length_backend refusing_generator))).
    + vm_compute. discriminate.
    + intros pronoun Hin Ht. vm_compute in Hin, Ht.
      repeat (destruct Hin as [<-|Hin];
              [repeat (destruct Ht as [Ht|Ht]; [discriminate Ht|]);
               exact Ht|]).
      exact Hin.
  - apply (proj2 (proj2 (@rewrite_only_when_triggered
                           length_backend refusing_generator))
             (lit "And what about them?") talking_agent).
    vm_compute. discriminate.
Defined.




(** What does hold of the two modes: a generator that cannot be set up
    puts the agent in fallback mode, and whatever calls follow, returning
    or raising, the agent stays in the mode it was built in. *)
Lemma mode_fixed_at_construction {B : Backend} {G : Generator}
    (r : VectorRetriever) (key model_name : str) (k : Z) (dbg : bool)
    (cs : list call) (sent0 : list str) :
  fallback_mode
    (self (after_all cs
             (mkState (Chat.__init__ r (Some key) model_name k dbg) sent0)))
  = match make_model key model_name with
    | Ok _ => false
    | Raise _ => true
    end.
Proof.
  rewrite mode_is_for_life. unfold Chat.__init__. cbn [self].
  destruct (make_model key model_name); reflexivity.
Qed.

Lemma broken_generator_is_fallback_for_life (cs : list call) :
  fallback_mode
    (self (after_all cs
             (mkState
                (Chat.__init__ (B := length_backend) (G := broken_generator)
                   two_chunk_retriever (Some (lit "key"))
                   (lit "gemini-1.5-pro") 2 true)
                [])))
  = true.
Proof. apply (@mode_fixed_at_construction length_backend broken_generator). Qed.

(** C8 does not hold of the code. In generation mode, with chunks
    retrieved and a generator that raises whenever it is called,
    [answer_query] raises [NameError] while it builds the prompt: no
    fallback rendering is returned and nothing is recorded in the history.
    So it is on a first question, where the generator is not reached at all,
    and on a follow-up question, where the generator was called once, for
    the rewrite, and raised. *)
Theorem generation_mode_call_raises :
  fallback_mode (self generating_agent) = false /\
  answer_query (lit "What is the main topic of this document?")
               generating_agent
  = (Raise NameError, generating_agent) /\
  fst (answer_query (lit "And what about them?")
                    generating_agent_mid_conversation)
  = Raise NameError /\
  List.length
    (sent (snd (answer_query (lit "And what about them?")
                             generating_agent_mid_conversation)))
  = 1%nat /\
  self (snd (answer_query (lit "And what about them?")
                          generating_agent_mid_conversation))
  = self generating_agent_mid_conversation.
Proof.
  split; [reflexivity|].
  rewrite !answer_query_steps. repeat split; reflexivity.
Qed.

End ChatClaims.

(* ================================================================== *)
(** * More on the chunker *)
(* ================================================================== *)

Module ChunkerFacts.
Import PyStr Ingest Spec Terms PyStrFacts IngestFacts ChunkShape.

Lemma relabel_relabel (pn id0 : Z) (c : PDFChunk) :
  relabel pn id0 (relabel 0 1 c) = relabel pn (id0 + 1) c.
Proof. unfold relabel. cbn [text chunk_id]. f_equal. lia. Qed.

(** The page number and the first identifier only label what the loop
    cuts. *)
Lemma chunk_loop_relabel fuel self text pn id start :
  chunk_loop fuel self text pn [] id start
  = option_map (map (relabel pn id)) (chunk_loop fuel self text 0 [] 0 start).
Proof.
  revert pn id start. induction fuel as [|fuel IH]; intros pn id start;
    [reflexivity|].
  rewrite !chunk_loop_turn.
  destruct (start <? len text)%Z; [|reflexivity].
  destruct (truthy (window self text start)); [|apply IH].
  rewrite (IH pn (id + 1)%Z), (IH 0%Z (0 + 1)%Z).
  destruct (chunk_loop fuel self text 0 [] 0 (start + step self)%Z) as [r|];
    [|reflexivity].
  cbn [option_map map]. f_equal. f_equal.
  - unfold relabel. cbn [Ingest.text Ingest.chunk_id]. f_equal. lia.
  - rewrite map_map. apply map_ext. intros c.
    now rewrite relabel_relabel.
Qed.

Section ValidParameters.
Variable self : PDFIngestor.
Variable text : str.
Variable pn : Z.
Hypothesis overlap_below_size : (chunk_overlap self < chunk_size self)%Z.

(** The loop cuts at most one chunk per step it takes inside the text. *)
Lemma chunk_loop_count fuel id start r :
  chunk_loop fuel self text pn [] id start = Some r ->
  r = [] \/ ((len r - 1) * step self < len text - start)%Z.
Proof.
  revert id start r.
  assert (Hstep : (0 < step self)%Z) by (unfold step; lia).
  induction fuel as [|fuel IH]; intros id start r H; [discriminate|].
  rewrite chunk_loop_turn in H.
  destruct (Z.ltb_spec start (len text)); [|injection H as <-; now left].
  destruct (truthy (window self text start)).
  - destruct (chunk_loop fuel self text pn [] (id + 1) (start + step self)%Z)
      as [r'|] eqn:E; [|discriminate].
    injection H as <-. right.
    replace (len (_ :: r') - 1)%Z with (len r')
      by (unfold len; simpl List.length; lia).
    destruct (IH _ _ _ E) as [->|Hr];
      [change (len (@nil PDFChunk)) with 0%Z; lia | lia].
  - destruct (IH _ _ _ H) as [->|Hr]; [now left | right; lia].
Qed.

End ValidParameters.

(** Under valid parameters no chunk is returned only for a blank text. *)
Lemma no_chunk_iff_blank_parts (self : PDFIngestor) (text : str)
    (pn start_id : Z) :
  (0 <= chunk_overlap self)%Z ->
  (chunk_overlap self < chunk_size self)%Z ->
  chunk_text self text pn start_id = Some [] -> strip text = [].
Proof.
  intros H0 H1 Hc. unfold chunk_text, chunk_text_fuel in Hc.
  destruct (strip text) as [|c0 s0] eqn:E; [reflexivity|].
  assert (Hne : strip text <> []) by (rewrite E; discriminate).
  apply strip_nonempty in Hne as (c & Hin & Hns).
  apply In_nth_error in Hin as [i Hi].
  destruct (@chunk_loop_covers self text pn H0 H1 _ _ 0%Z [] i c
              (Z.le_refl 0) Hc Hi ltac:(lia) Hns)
    as (ch & s & [] & _).
Qed.

(** ** Pages *)

(** A page the extraction keeps is a page of the reader, under the number
    of its position, and its text is not blank. *)
Lemma extract_pages_kept (p : Z) (reader_pages : list str) :
  Forall (fun pd =>
            (p <= pd_page_number pd)%Z /\
            nth_error reader_pages (Z.to_nat (pd_page_number pd - p))
            = Some (pd_text pd) /\
            strip (pd_text pd) <> [])
         (extract_pages p reader_pages).
Proof.
  revert p. induction reader_pages as [|t rest IH]; intros p; simpl.
  - constructor.
  - assert (Hrest : Forall (fun pd =>
                      (p <= pd_page_number pd)%Z /\
                      nth_error (t :: rest)
                                (Z.to_nat (pd_page_number pd - p))
                      = Some (pd_text pd) /\
                      strip (pd_text pd) <> [])
                   (extract_pages (p + 1) rest)).
    { eapply Forall_impl; [|apply IH].
      intros pd (Hle & Hnth & Hne). split; [lia|]. split; [|exact Hne].
      replace (Z.to_nat (pd_page_number pd - p))
        with (S (Z.to_nat (pd_page_number pd - (p + 1)))) by lia.
      exact Hnth. }
    destruct (truthy t && truthy (strip t)) eqn:E; [|exact Hrest].
    constructor; [|exact Hrest]. simpl. rewrite Z.sub_diag. simpl.
    apply andb_true_iff in E as [_ E]. apply truthy_true in E.
    repeat split; [lia | exact E].
Qed.

(** Kept pages come in the order of the document. *)
Lemma extract_pages_ordered (p : Z) (reader_pages : list str) :
  StronglySorted Z.lt (map pd_page_number (extract_pages p reader_pages)).
Proof.
  revert p. induction reader_pages as [|t rest IH]; intros p; simpl.
  - constructor.
  - destruct (truthy t && truthy (strip t)); [|apply IH].
    simpl. constructor; [apply IH|].
    apply Forall_map.
    eapply Forall_impl; [|apply (extract_pages_kept (p + 1) rest)].
    simpl. intros pd (Hle & _). lia.
Qed.

(** What the loop over the pages returns is what it was given followed by
    the chunks of each page in turn. *)
Lemma ingest_loop_parts self pages acc id all :
  ingest_loop self pages acc id = Some all ->
  exists parts,
    all = acc ++ List.concat parts /\
    Forall2 (fun page part =>
               exists id',
                 chunk_text self (pd_text page) (pd_page_number page) id'
                 = Some part)
            pages parts.
Proof.
  revert acc id. induction pages as [|page rest IH]; intros acc id H.
  - simpl in H. injection H as <-. exists []. simpl.
    split; [now rewrite app_nil_r | constructor].
  - simpl in H.
    destruct (chunk_text self (pd_text page) (pd_page_number page) id)
      as [pc|] eqn:E; [|discriminate].
    destruct (IH _ _ H) as (parts & -> & HF).
    exists (pc :: parts). split.
    + simpl. now rewrite <- app_assoc.
    + constructor; [eauto | exact HF].
Qed.

Lemma Forall2_pick_left {X Y} (R : X -> Y -> Prop) (l : list X)
    (l' : list Y) (x : X) :
  Forall2 R l l' -> In x l -> exists y, In y l' /\ R x y.
Proof.
  induction 1 as [|a b l l' Hab _ IH]; simpl; [tauto|].
  intros [->|Hin]; [eauto|].
  destruct (IH Hin) as (y & Hy & HR). eauto.
Qed.

Lemma Forall2_pick_right {X Y} (R : X -> Y -> Prop) (l : list X)
    (l' : list Y) (y : Y) :
  Forall2 R l l' -> In y l' -> exists x, In x l /\ R x y.
Proof.
  induction 1 as [|a b l l' Hab _ IH]; simpl; [tauto|].
  intros [->|Hin]; [eauto|].
  destruct (IH Hin) as (x & Hx & HR). eauto.
Qed.

(** A page of the reader that is not blank is kept, under the number of
    its position. *)
Lemma extract_pages_keeps (p : Z) (reader_pages : list str) (i : nat)
    (t : str) :
  nth_error reader_pages i = Some t -> strip t <> [] ->
  In (mkPage (p + Z.of_nat i) t) (extract_pages p reader_pages).
Proof.
  revert p i. induction reader_pages as [|t0 rest IH]; intros p i Hi Hne.
  - destruct i; discriminate Hi.
  - simpl. destruct i as [|i]; simpl in Hi.
    + injection Hi as ->.
      assert (Ht : truthy t = true).
      { apply truthy_true. intros ->. now apply Hne. }
      rewrite Ht, (proj2 (truthy_true _) Hne). simpl.
      left. f_equal. lia.
    + pose proof (IH (p + 1)%Z i Hi Hne) as Hin.
      replace (p + Z.of_nat (S i))%Z with (p + 1 + Z.of_nat i)%Z by lia.
      destruct (truthy t0 && truthy (strip t0)); [now right | exact Hin].
Qed.

(** Blocks of chunks, each under one page number, the numbers rising from
    block to block, are in page order when put end to end. *)
Lemma blocks_in_page_order (pages : list page_data)
    (parts : list (list PDFChunk)) :
  StronglySorted Z.lt (map pd_page_number pages) ->
  Forall2 (fun page part =>
             Forall (fun c => page_number c = pd_page_number page) part)
          pages parts ->
  StronglySorted Z.le (map page_number (List.concat parts)) /\
  Forall (fun c => exists page, In page pages /\
                                page_number c = pd_page_number page)
         (List.concat parts).
Proof.
  intros Hs HF. induction HF as [|page part pages parts Hpart _ IH].
  - simpl. split; constructor.
  - simpl in Hs. inversion Hs as [|? ? Hs' Hlt]; subst.
    destruct (IH Hs') as [IHs IHin]. split.
    + simpl. rewrite map_app.
      assert (Hlater : Forall (fun c => (pd_page_number page
                                         <= page_number c)%Z)
                              (List.concat parts)).
      { eapply Forall_impl; [|exact IHin].
        intros c (page' & Hin & ->).
        rewrite Forall_forall in Hlt.
        specialize (Hlt (pd_page_number page') (in_map _ _ _ Hin)). lia. }
      clear - Hpart IHs Hlater.
      induction Hpart as [|c part Hc Hrest IHp]; simpl; [exact IHs|].
      constructor; [exact IHp|].
      apply Forall_app. split.
      * apply Forall_map. eapply Forall_impl; [|exact Hrest].
        simpl. intros c' Hc'. lia.
      * apply Forall_map. eapply Forall_impl; [|exact Hlater].
        simpl. intros c' Hc'. lia.
    + simpl. apply Forall_app. split.
      * eapply Forall_impl; [|exact Hpart].
        intros c Hc. exists page. split; [now left | exact Hc].
      * eapply Forall_impl; [|exact IHin].
        intros c (page' & Hin & Hc). exists page'. split; [now right|exact Hc].
Qed.

(** Under valid parameters a page that is not blank has a chunk in the
    result, under its number. *)
Lemma nonblank_page_has_chunk (self : PDFIngestor) (reader_pages : list str)
    (i : nat) (t : str) :
  (0 <= chunk_overlap self)%Z ->
  (chunk_overlap self < chunk_size self)%Z ->
  nth_error reader_pages i = Some t -> strip t <> [] ->
  exists all,
    ingest_pdf self reader_pages = Some all /\
    exists c, In c all /\ page_number c = (1 + Z.of_nat i)%Z.
Proof.
  intros H0 H1 Ht Hne.
  destruct (@ingest_loop_ids self (extract_text_from_pdf reader_pages)
              H1 [] 0%Z eq_refl) as (all & Hall & _).
  exists all. split; [exact Hall|].
  pose proof (extract_pages_keeps 1 reader_pages i t Ht Hne) as Hpage.
  unfold ingest_pdf in Hall.
  destruct (ingest_loop_parts _ _ _ _ _ Hall) as (parts & -> & HF).
  destruct (Forall2_pick_left _ _ _ _ HF Hpage) as (part & Hpart & id' & Hid).
  simpl in Hid.
  destruct part as [|c part'].
  - apply (no_chunk_iff_blank_parts self t _ id' H0 H1) in Hid.
    contradiction.
  - exists c. split.
    + simpl. apply in_concat. exists (c :: part'). split;
        [exact Hpart | now left].
    + unfold chunk_text, chunk_text_fuel in Hid.
      pose proof (@chunk_loop_windows self t _ H1 _ _ _ _
                    (Z.le_refl 0) Hid) as Hw.
      rewrite Forall_forall in Hw.
      destruct (Hw c (or_introl eq_refl)) as (Hpn & _). exact Hpn.
Qed.

End ChunkerFacts.

Module ChunkerExtras.
Import PyStr Ingest Spec Terms PyStrFacts IngestFacts ChunkShape ChunkerFacts.

(** X1. For every text and all parameters, [chunk_text] under a page number
    and a first identifier returns the chunks it returns under page 0 and
    identifier 0 with the page number set and the identifiers moved up by
    the first one: the two arguments label the chunks and decide neither
    their number nor their texts. *)
Theorem chunk_text_labels_only
    (self : PDFIngestor) (text : str) (pn start_id : Z) :
  chunk_text self text pn start_id
  = option_map (map (relabel pn start_id)) (chunk_text self text 0 0).
Proof.
  unfold chunk_text, chunk_text_fuel. apply chunk_loop_relabel.
Qed.

(** X2. Under [chunk_size > chunk_overlap >= 0], [chunk_text] returns no
    chunk exactly when the text is empty or all whitespace. *)
Theorem no_chunk_iff_blank
    (self : PDFIngestor) (text : str) (pn start_id : Z) :
  (0 <= chunk_overlap self)%Z ->
  (chunk_overlap self < chunk_size self)%Z ->
  (chunk_text self text pn start_id = Some [] <-> strip text = []).
Proof.
  intros H0 H1.
  destruct (@chunk_text_returns self text pn H1 start_id) as [chunks Hc].
  rewrite Hc. unfold chunk_text, chunk_text_fuel in Hc. split.
  - intros H. injection H as ->.
    destruct (strip text) as [|c0 s0] eqn:E; [reflexivity|].
    assert (Hne : strip text <> []) by (rewrite E; discriminate).
    apply strip_nonempty in Hne as (c & Hin & Hns).
    apply In_nth_error in Hin as [i Hi].
    destruct (@chunk_loop_covers self text pn H0 H1 _ _ 0%Z [] i c
                (Z.le_refl 0) Hc Hi ltac:(lia) Hns)
      as (ch & s & [] & _).
  - intros Hblank. destruct chunks as [|ch rest]; [reflexivity|].
    pose proof (@chunk_loop_windows self text pn H1 _ _ _ _
                  (Z.le_refl 0) Hc) as Hw.
    rewrite Forall_forall in Hw.
    destruct (Hw ch (or_introl eq_refl)) as (_ & s & _ & _ & Ht & Hne).
    rewrite Ht in Hne. unfold window in Hne.
    apply strip_nonempty in Hne as (c & Hin & Hns).
    apply slice_subset in Hin.
    assert (Hcontra : strip text <> [])
      by (apply strip_nonempty; eauto).
    contradiction.
Qed.

Lemma no_chunk_iff_blank_witness :
  chunk_text (mkPDFIngestor 8 3) (lit "  	  ") 4 7 = Some [] <->
  strip (lit "  	  ") = [].
Proof.
  apply (no_chunk_iff_blank (mkPDFIngestor 8 3) (lit "  	  ") 4 7);
    simpl; lia.
Defined.

(** X3. Under [chunk_size > chunk_overlap], [chunk_text] returns, and the
    number [n] of its chunks is bounded by the steps that fit in the text:
    [n * (chunk_size - chunk_overlap) < len(text) + (chunk_size -
    chunk_overlap)]. *)
Theorem chunk_count_bounded
    (self : PDFIngestor) (text : str) (pn start_id : Z) :
  (chunk_overlap self < chunk_size self)%Z ->
  exists chunks,
    chunk_text self text pn start_id = Some chunks /\
    (len chunks * (chunk_size self - chunk_overlap self)
     < len text + (chunk_size self - chunk_overlap self))%Z.
Proof.
  intros H1.
  destruct (@chunk_text_returns self text pn H1 start_id) as [chunks Hc].
  exists chunks. split; [exact Hc|].
  unfold chunk_text, chunk_text_fuel in Hc.
  destruct (@chunk_loop_count self text pn H1 _ _ _ _ Hc) as [->|Hr].
  - pose proof (len_nonneg text). change (len (@nil PDFChunk)) with 0%Z. lia.
  - unfold step in Hr. lia.
Qed.

Lemma chunk_count_bounded_witness :
  exists chunks,
    chunk_text (mkPDFIngestor 8 3) (lit "  to be or  not to be ") 4 7
    = Some chunks /\
    (len chunks * (8 - 3) < len (lit "  to be or  not to be ") + (8 - 3))%Z.
Proof.
  apply (chunk_count_bounded
           (mkPDFIngestor 8 3) (lit "  to be or  not to be ") 4 7).
  simpl. lia.
Defined.

(** The chunks of a document, each with the page it was cut from. *)
Lemma ingest_pdf_sources (self : PDFIngestor) (reader_pages : list str)
    (all : list PDFChunk) :
  ingest_pdf self reader_pages = Some all ->
  forall c, In c all ->
    exists page part id',
      In page (extract_text_from_pdf reader_pages) /\
      chunk_text self (pd_text page) (pd_page_number page) id' = Some part /\
      In c part.
Proof.
  unfold ingest_pdf. intros H c Hc.
  destruct (ingest_loop_parts _ _ _ _ _ H) as (parts & -> & HF).
  simpl in Hc. apply in_concat in Hc as (part & Hpart & Hcp).
  destruct (Forall2_pick_right _ _ _ _ HF Hpart) as (page & Hpage & id' & Hid).
  eauto 8.
Qed.

(** X4. Under [chunk_size > chunk_overlap], every chunk of [ingest_pdf]
    comes from one page: its page number is the position, counted from 1,
    of a page of the document, and its text, which is not empty, is the
    stripped window of that page's text at an offset that is a multiple of
    the step. No chunk spans two pages. *)
Theorem chunks_come_from_their_page
    (self : PDFIngestor) (reader_pages : list str) :
  (chunk_overlap self < chunk_size self)%Z ->
  exists all,
    ingest_pdf self reader_pages = Some all /\
    Forall (fun c =>
              (1 <= page_number c)%Z /\
              exists t s,
                nth_error reader_pages (Z.to_nat (page_number c - 1))
                = Some t /\
                (0 <= s)%Z /\
                (chunk_size self - chunk_overlap self | s)%Z /\
                Ingest.text c = strip (slice t s (s + chunk_size self)) /\
                Ingest.text c <> [])
           all.
Proof.
  intros H1.
  destruct (@ingest_loop_ids self (extract_text_from_pdf reader_pages)
              H1 [] 0%Z eq_refl) as (all & Hall & _).
  exists all. split; [exact Hall|].
  apply Forall_forall. intros c Hc.
  destruct (ingest_pdf_sources self reader_pages all Hall c Hc)
    as (page & part & id' & Hpage & Hpart & Hin).
  pose proof (extract_pages_kept 1 reader_pages) as Hkept.
  rewrite Forall_forall in Hkept.
  destruct (Hkept page Hpage) as (Hle & Hnth & _).
  unfold chunk_text, chunk_text_fuel in Hpart.
  pose proof (@chunk_loop_windows self (pd_text page) (pd_page_number page)
                H1 _ _ _ _ (Z.le_refl 0) Hpart) as Hw.
  rewrite Forall_forall in Hw.
  destruct (Hw c Hin) as (Hpn & s & Hs & Hdiv & Ht & Hne).
  rewrite Hpn. split; [exact Hle|].
  exists (pd_text page), s.
  rewrite Z.sub_0_r in Hdiv. unfold window, step in *. auto.
Qed.

Lemma chunks_come_from_their_page_witness :
  exists all,
    ingest_pdf (mkPDFIngestor 4 1) [lit "abcdef"; lit "   "; lit "gh"]
    = Some all /\
    Forall (fun c =>
              (1 <= page_number c)%Z /\
              exists t s,
                nth_error [lit "abcdef"; lit "   "; lit "gh"]
                          (Z.to_nat (page_number c - 1))
                = Some t /\
                (0 <= s)%Z /\
                (4 - 1 | s)%Z /\
                Ingest.text c = strip (slice t s (s + 4)) /\
                Ingest.text c <> [])
           all.
Proof.
  apply (chunks_come_from_their_page
           (mkPDFIngestor 4 1) [lit "abcdef"; lit "   "; lit "gh"]).
  simpl. lia.
Defined.

(** X5. Under [chunk_size > chunk_overlap >= 0], the page numbers found
    on the chunks of [ingest_pdf] are exactly the positions, counted from
    1, of the pages whose text is not blank: a blank page gives no chunk
    and every other page gives at least one. *)
Theorem pages_with_chunks_are_the_nonblank_pages
    (self : PDFIngestor) (reader_pages : list str) :
  (0 <= chunk_overlap self)%Z ->
  (chunk_overlap self < chunk_size self)%Z ->
  exists all,
    ingest_pdf self reader_pages = Some all /\
    forall p : Z,
      (exists c, In c all /\ page_number c = p) <->
      (1 <= p)%Z /\
      exists t, nth_error reader_pages (Z.to_nat (p - 1)) = Some t /\
                strip t <> [].
Proof.
  intros H0 H1.
  destruct (@ingest_loop_ids self (extract_text_from_pdf reader_pages)
              H1 [] 0%Z eq_refl) as (all & Hall & _).
  exists all. split; [exact Hall|]. intros p. split.
  - intros (c & Hc & <-).
    destruct (ingest_pdf_sources self reader_pages all Hall c Hc)
      as (page & part & id' & Hpage & Hpart & Hin).
    pose proof (extract_pages_kept 1 reader_pages) as Hkept.
    rewrite Forall_forall in Hkept.
    destruct (Hkept page Hpage) as (Hle & Hnth & Hne).
    unfold chunk_text, chunk_text_fuel in Hpart.
    pose proof (@chunk_loop_windows self (pd_text page) (pd_page_number page)
                  H1 _ _ _ _ (Z.le_refl 0) Hpart) as Hw.
    rewrite Forall_forall in Hw.
    destruct (Hw c Hin) as (Hpn & _). rewrite Hpn.
    split; [exact Hle | eauto].
  - intros (Hp & t & Ht & Hne).
    pose proof (extract_pages_keeps 1 reader_pages _ t Ht Hne) as Hpage.
    replace (1 + Z.of_nat (Z.to_nat (p - 1)))%Z with p in Hpage by lia.
    unfold ingest_pdf in Hall.
    destruct (ingest_loop_parts _ _ _ _ _ Hall) as (parts & -> & HF).
    destruct (Forall2_pick_left _ _ _ _ HF Hpage) as (part & Hpart & id' & Hid).
    simpl in Hid.
    destruct part as [|c part'].
    + apply (no_chunk_iff_blank_parts self t p id' H0 H1) in Hid.
      contradiction.
    + exists c. split.
      * simpl. apply in_concat. exists (c :: part'). split;
          [exact Hpart | now left].
      * unfold chunk_text, chunk_text_fuel in Hid.
        pose proof (@chunk_loop_windows self t p H1 _ _ _ _
                      (Z.le_refl 0) Hid) as Hw.
        rewrite Forall_forall in Hw.
        destruct (Hw c (or_introl eq_refl)) as (Hpn & _). exact Hpn.
Qed.

Lemma pages_with_chunks_are_the_nonblank_pages_witness :
  exists all,
    ingest_pdf (mkPDFIngestor 4 1) [lit "abcdef"; lit "   "; lit "gh"]
    = Some all /\
    forall p : Z,
      (exists c, In c all /\ page_number c = p) <->
      (1 <= p)%Z /\
      exists t,
        nth_error [lit "abcdef"; lit "   "; lit "gh"] (Z.to_nat (p - 1))
        = Some t /\
        strip t <> [].
Proof.
  apply (pages_with_chunks_are_the_nonblank_pages
           (mkPDFIngestor 4 1) [lit "abcdef"; lit "   "; lit "gh"]);
    simpl; lia.
Defined.

(** X21. Under [chunk_size > chunk_overlap], the chunks of [ingest_pdf]
    stand in the order of the document: along the list the page numbers
    never go down. *)
Theorem chunks_are_in_page_order
    (self : PDFIngestor) (reader_pages : list str) :
  (chunk_overlap self < chunk_size self)%Z ->
  exists all,
    ingest_pdf self reader_pages = Some all /\
    StronglySorted Z.le (map page_number all).
Proof.
  intros H1.
  destruct (@ingest_loop_ids self (extract_text_from_pdf reader_pages)
              H1 [] 0%Z eq_refl) as (all & Hall & _).
  exists all. split; [exact Hall|].
  unfold ingest_pdf in Hall.
  destruct (ingest_loop_parts _ _ _ _ _ Hall) as (parts & -> & HF).
  simpl. apply (blocks_in_page_order (extract_text_from_pdf reader_pages)).
  - apply extract_pages_ordered.
  - eapply Forall2_impl; [|exact HF].
    intros page part (id' & Hid).
    unfold chunk_text, chunk_text_fuel in Hid.
    pose proof (@chunk_loop_windows self (pd_text page) (pd_page_number page)
                  H1 _ _ _ _ (Z.le_refl 0) Hid) as Hw.
    eapply Forall_impl; [|exact Hw]. simpl. tauto.
Qed.

Lemma chunks_are_in_page_order_witness :
  exists all,
    ingest_pdf (mkPDFIngestor 4 1) [lit "abcdef"; lit "   "; lit "gh"]
    = Some all /\
    StronglySorted Z.le (map page_number all).
Proof.
  apply (chunks_are_in_page_order
           (mkPDFIngestor 4 1) [lit "abcdef"; lit "   "; lit "gh"]).
  simpl. lia.
Defined.

End ChunkerExtras.

(* ================================================================== *)
(** * More on citations and prompts *)
(* ================================================================== *)

Module PromptFacts.
Import PyStr Ingest Prompt Spec Terms PyStrFacts CitationFacts.

Lemma span_digits_digits (s ds rest : str) :
  span_digits s = (ds, rest) -> Forall (fun c => isdigit c = true) ds.
Proof.
  revert ds rest. induction s as [|c s IH]; simpl; intros ds rest H.
  - injection H as <- _. constructor.
  - destruct (isdigit c) eqn:Ec.
    + destruct (span_digits s) as [ds' rest'] eqn:E.
      injection H as <- _. constructor; [exact Ec | now apply (IH _ rest')].
    + injection H as <- _. constructor.
Qed.

(** What a match of the pattern is: the token, with two numerals. *)
Lemma match_citation_inv (s page chunk rest : str) :
  match_citation s = Some (page, chunk, rest) ->
  numeral page /\ numeral chunk /\
  s = lit "[p" ++ page ++ lit ":c" ++ chunk ++ lit "]" ++ rest.
Proof.
  unfold match_citation. intros H.
  repeat match type of H with
         | match ?x with _ => _ end = _ =>
             let E := fresh "E" in destruct x eqn:E; try discriminate H
         | (if ?b then _ else _) = _ =>
             destruct b; try discriminate H
         end.
  injection H as <- <- <-.
  repeat match goal with
         | E : span_digits _ = _ |- _ =>
             let D := fresh "D" in
             pose proof (span_digits_digits _ _ _ E) as D;
             apply span_digits_splits in E; rewrite E; clear E
         end.
  unfold numeral. repeat split; try discriminate; try assumption.
Qed.

(** The pattern matches only at an opening bracket. *)
Lemma match_citation_needs_bracket (a : ascii) (s : str) :
  a <> "["%char -> match_citation (a :: s) = None.
Proof.
  intros Ha. destruct (match_citation (a :: s)) as [[[page chunk] rest]|] eqn:E;
    [|reflexivity].
  apply match_citation_inv in E as (_ & _ & E).
  cbn [lit list_ascii_of_string app] in E. injection E as -> _.
  now destruct Ha.
Qed.

(** Every match found occurs in the string, as a token. *)
Lemma findall_fuel_sound (fuel : nat) (s page chunk : str) :
  In (page, chunk) (findall_fuel fuel s) ->
  numeral page /\ numeral chunk /\
  occurs_in (lit "[p" ++ page ++ lit ":c" ++ chunk ++ lit "]") s.
Proof.
  revert s. induction fuel as [|fuel IH]; intros s Hin; [destruct Hin|].
  destruct s as [|a s']; [destruct Hin|]. cbn [findall_fuel] in Hin.
  destruct (match_citation (a :: s')) as [[[p c] rest]|] eqn:E.
  - apply match_citation_inv in E as (Np & Nc & Es).
    destruct Hin as [Heq|Hin].
    + injection Heq as <- <-. split; [exact Np|]. split; [exact Nc|].
      exists [], rest. rewrite Es. simpl. rewrite <- !app_assoc. simpl.
      rewrite <- !app_assoc. reflexivity.
    + destruct (IH _ Hin) as (Hp & Hc & before & after & Hr).
      split; [exact Hp|]. split; [exact Hc|].
      exists (lit "[p" ++ p ++ lit ":c" ++ c ++ lit "]" ++ before), after.
      rewrite Es, Hr. now rewrite <- !app_assoc.
  - destruct (IH _ Hin) as (Hp & Hc & before & after & Hr).
    split; [exact Hp|]. split; [exact Hc|].
    exists (a :: before), after. now rewrite Hr.
Qed.

(** Text without an opening bracket holds no match and hides none. *)
Lemma findall_skips (pre s : str) :
  bracket_free pre -> findall (pre ++ s) = findall s.
Proof.
  unfold findall, bracket_free. induction pre as [|a pre IH]; intros Hfree;
    [reflexivity|].
  cbn [app List.length findall_fuel].
  rewrite match_citation_needs_bracket
    by (intros ->; apply Hfree; now left).
  apply IH. intros Hin. apply Hfree. now right.
Qed.

(** A token at the head of a string is the first match. *)
Lemma findall_token (page chunk s : str) :
  numeral page -> numeral chunk ->
  findall (lit "[p" ++ page ++ lit ":c" ++ chunk ++ lit "]" ++ s)
  = (page, chunk) :: findall s.
Proof.
  intros [Np Dp] [Nc Dc]. unfold findall.
  pose proof (match_citation_token page chunk s Np Dp Nc Dc) as Hm.
  remember (lit "[p" ++ page ++ lit ":c" ++ chunk ++ lit "]" ++ s) as t eqn:Et.
  destruct t as [|a t']; [discriminate Et|].
  cbn [List.length findall_fuel]. rewrite Hm. f_equal.
  apply findall_fuel_enough; [|lia].
  apply match_citation_shorter in Hm. simpl in Hm. lia.
Qed.

(** A template of three texts around two fields whose names are bound. *)
Lemma format_two_fields (sc : FString.scope) (a b c v1 v2 : str)
    (f1 f2 : string) :
  FString.lookup sc f1 = Ok v1 -> FString.lookup sc f2 = Ok v2 ->
  FString.format sc [FString.Text a; FString.Field f1; FString.Text b;
                     FString.Field f2; FString.Text c]
  = Ok (a ++ v1 ++ b ++ v2 ++ c ++ []).
Proof.
  intros H1 H2. cbn [FString.format]. now rewrite H1, H2.
Qed.

Lemma occurs_in_trans (x v p : str) :
  occurs_in x v -> occurs_in v p -> occurs_in x p.
Proof.
  intros (b1 & a1 & ->) (b2 & a2 & ->).
  exists (b2 ++ b1), (a1 ++ a2). now rewrite <- !app_assoc.
Qed.

(** The negative slice [l[-2:]] drops all but the last two. *)
Lemma slice_last_two {A} (l : list A) :
  slice l (-2) (len l) = skipn (List.length l - 2) l.
Proof.
  unfold slice, adjust, len.
  destruct (Z.ltb_spec (-2) 0); [|lia].
  destruct (Z.ltb_spec (Z.of_nat (List.length l)) 0); [lia|].
  replace (Z.to_nat (Z.max (-2 + Z.of_nat (List.length l)) 0))
    with (List.length l - 2)%nat by lia.
  apply firstn_all2. rewrite length_skipn. lia.
Qed.

(** The last two of the last two are the last two. *)
Lemma last_two_again {A} (l : list A) :
  skipn (List.length (skipn (List.length l - 2) l) - 2)
        (skipn (List.length l - 2) l)
  = skipn (List.length l - 2) l.
Proof.
  rewrite length_skipn.
  replace (List.length l - (List.length l - 2) - 2)%nat with 0%nat by lia.
  reflexivity.
Qed.

Lemma join_shows (sep x : str) (parts : list str) :
  In x parts -> occurs_in x (join sep parts).
Proof.
  induction parts as [|p ps IH]; [intros []|].
  intros Hin. destruct ps as [|p' ps'].
  - destruct Hin as [->|[]]. exists [], []. cbn [join app].
    now rewrite app_nil_r.
  - change (join sep (p :: p' :: ps'))
      with (p ++ sep ++ join sep (p' :: ps')).
    destruct Hin as [->|Hin].
    + now exists [], (sep ++ join sep (p' :: ps')).
    + destruct (IH Hin) as (b & a & ->).
      exists (p ++ sep ++ b), a. now rewrite <- !app_assoc.
Qed.

(** Both lines of a turn are among the lines of the history. *)
Lemma history_parts_shows (turn : str * str) (turns : list (str * str)) :
  In turn turns ->
  In (lit "User: " ++ fst turn) (history_parts turns) /\
  In (lit "Assistant: " ++ snd turn) (history_parts turns).
Proof.
  induction turns as [|[u a] rest IH]; [intros []|].
  intros [<-|Hin]; cbn [history_parts fst snd].
  - split; [now left | right; now left].
  - destruct (IH Hin) as [Hu Ha]. split; right; right; assumption.
Qed.

(** With a history, the prompt is the template around the lines of the
    last two turns and the query. *)
Lemma rewrite_prompt_shape :
  exists a b c : str,
    forall (query : str) (history : list (str * str)),
      history <> [] ->
      rewrite_query_with_history query history
      = Ok (a ++ join nl (history_parts
                            (skipn (List.length history - 2) history))
              ++ b ++ query ++ c).
Proof.
  unfold rewrite_query_with_history, rewrite_template.
  do 3 eexists. intros query history Hne.
  destruct history as [|t h]; [congruence|]. cbn [truthy negb].
  rewrite slice_last_two.
  erewrite format_two_fields; [|reflexivity|reflexivity].
  rewrite app_nil_r. reflexivity.
Qed.

End PromptFacts.

Module PromptExtras.
Import PyStr Ingest Prompt Validate Spec Terms PyStrFacts CitationFacts
       PromptFacts.

(** X6. [parse_response_for_citations] invents nothing: every string it
    returns has the form [p<page>:c<chunk>] with two numerals, and occurs
    in the response between brackets. *)
Theorem citations_are_found_in_the_response (response cit : str) :
  In cit (parse_response_for_citations response) ->
  exists page chunk,
    cit = lit "p" ++ page ++ lit ":c" ++ chunk /\
    numeral page /\ numeral chunk /\
    occurs_in (lit "[" ++ cit ++ lit "]") response.
Proof.
  unfold parse_response_for_citations. intros Hin.
  apply in_map_iff in Hin as ([page chunk] & <- & Hin).
  apply findall_fuel_sound in Hin as (Hp & Hc & Hocc).
  exists page, chunk. split; [reflexivity|].
  split; [exact Hp|]. split; [exact Hc|].
  cbn [lit list_ascii_of_string app] in *. rewrite <- !app_assoc.
  exact Hocc.
Qed.

Lemma citations_are_found_in_the_response_witness :
  exists page chunk,
    lit "p7:c25" = lit "p" ++ page ++ lit ":c" ++ chunk /\
    numeral page /\ numeral chunk /\
    occurs_in (lit "[" ++ lit "p7:c25" ++ lit "]")
              (lit "Citations: [p5:c12], [p7:c25]").
Proof.
  apply (citations_are_found_in_the_response
           (lit "Citations: [p5:c12], [p7:c25]") (lit "p7:c25")).
  vm_compute. tauto.
Defined.

(** X7. A list of citations comes back whole: for chunks whose page
    numbers and identifiers are natural numbers, and a lead, a separator
    and a tail without an opening bracket, the citations extracted from
    lead, the chunks' citations joined by the separator, and tail are the
    chunks' citations, in order and with repetitions. *)
Theorem citation_list_round_trip
    (chunks : list PDFChunk) (lead sep tail : str) :
  Forall (fun c => (0 <= page_number c)%Z /\ (0 <= chunk_id c)%Z) chunks ->
  bracket_free lead -> bracket_free sep -> bracket_free tail ->
  parse_response_for_citations
    (lead ++ join sep (map get_citation chunks) ++ tail)
  = map bare_citation chunks.
Proof.
  intros Hnat Hlead Hsep Htail. unfold parse_response_for_citations.
  rewrite findall_skips by assumption.
  assert (Htok : forall c s,
             (0 <= page_number c)%Z -> (0 <= chunk_id c)%Z ->
             findall (get_citation c ++ s)
             = (of_int (page_number c), of_int (chunk_id c)) :: findall s).
  { intros c s Hp Hc. unfold get_citation. rewrite <- !app_assoc.
    apply findall_token; unfold numeral; now apply of_int_digits. }
  assert (Hend : findall tail = []).
  { rewrite <- (app_nil_r tail). now rewrite findall_skips. }
  induction Hnat as [|c rest [Hp Hc] Hrest IH].
  - simpl. now rewrite Hend.
  - destruct rest as [|c' rest'].
    + cbn [map join]. rewrite (Htok c tail Hp Hc), Hend. reflexivity.
    + change (join sep (map get_citation (c :: c' :: rest')))
        with (get_citation c ++ sep ++ join sep (map get_citation (c' :: rest'))).
      rewrite <- !app_assoc, (Htok c _ Hp Hc), findall_skips by assumption.
      cbn [map] in IH |- *. rewrite IH. reflexivity.
Qed.

Lemma citation_list_round_trip_witness :
  parse_response_for_citations
    (lit "Citations: "
     ++ join (lit ", ")
          (map get_citation
               [mkPDFChunk (lit "a") 5 12; mkPDFChunk (lit "b") 7 25;
                mkPDFChunk (lit "a") 5 12])
     ++ lit " (end)")
  = map bare_citation
        [mkPDFChunk (lit "a") 5 12; mkPDFChunk (lit "b") 7 25;
         mkPDFChunk (lit "a") 5 12].
Proof.
  apply (citation_list_round_trip
           [mkPDFChunk (lit "a") 5 12; mkPDFChunk (lit "b") 7 25;
            mkPDFChunk (lit "a") 5 12]
           (lit "Citations: ") (lit ", ") (lit " (end)")).
  - repeat constructor; simpl; lia.
  - vm_compute. intuition discriminate.
  - vm_compute. intuition discriminate.
  - vm_compute. intuition discriminate.
Defined.

(** X8. [rewrite_query_with_history] never raises: for every query and
    every history, empty, of one turn or longer, it returns a prompt. The
    prompt holds the query; without a history it is the query itself; it
    holds the user line and the assistant line of each of the last two
    turns; and it is the prompt of those last turns alone, so older turns
    change nothing. *)
Theorem rewrite_prompt_reads_last_two_turns
    (query : str) (history : list (str * str)) :
  exists prompt,
    rewrite_query_with_history query history = Ok prompt /\
    occurs_in query prompt /\
    (history = [] -> prompt = query) /\
    (forall turn,
        In turn (skipn (List.length history - 2) history) ->
        occurs_in (lit "User: " ++ fst turn) prompt /\
        occurs_in (lit "Assistant: " ++ snd turn) prompt) /\
    rewrite_query_with_history
      query (skipn (List.length history - 2) history)
    = Ok prompt.
Proof.
  destruct history as [|t h].
  - exists query. split; [reflexivity|].
    split; [exists [], []; now rewrite app_nil_r|].
    split; [reflexivity|]. split; [intros turn []|reflexivity].
  - destruct rewrite_prompt_shape as (a & b & c & Hshape).
    set (history := t :: h).
    assert (Hne : history <> []) by discriminate.
    assert (Hlast : skipn (List.length history - 2) history <> []).
    { intros E. apply (f_equal (@List.length _)) in E.
      rewrite length_skipn in E.
      change (List.length history) with (S (List.length h)) in E.
      change (List.length (@nil (str * str))) with 0%nat in E. lia. }
    set (lines := join nl (history_parts
                             (skipn (List.length history - 2) history))).
    exists (a ++ lines ++ b ++ query ++ c).
    split; [exact (Hshape query history Hne)|].
    split; [exists (a ++ lines ++ b), c; now rewrite <- !app_assoc|].
    split; [intros E; congruence|]. split.
    + intros turn Hin.
      assert (Hlines : occurs_in lines (a ++ lines ++ b ++ query ++ c))
        by (now exists a, (b ++ query ++ c)).
      destruct (history_parts_shows turn _ Hin) as [Hu Ha].
      split; (eapply occurs_in_trans; [|exact Hlines]);
        now apply join_shows.
    + rewrite (Hshape query _ Hlast), last_two_again. reflexivity.
Qed.

Lemma rewrite_prompt_reads_last_two_turns_witness :
  exists prompt,
    rewrite_query_with_history
      (lit "Who wrote it?")
      [(lit "What is the title?", lit "Not found in the document.")]
    = Ok prompt /\
    occurs_in (lit "Who wrote it?") prompt /\
    occurs_in (lit "User: What is the title?") prompt /\
    occurs_in (lit "Assistant: Not found in the document.") prompt.
Proof.
  destruct (rewrite_prompt_reads_last_two_turns
              (lit "Who wrote it?")
              [(lit "What is the title?", lit "Not found in the document.")])
    as (prompt & Hp & Hq & _ & Hturns & _).
  exists prompt. split; [exact Hp|]. split; [exact Hq|].
  exact (Hturns (lit "What is the title?", lit "Not found in the document.")
                (or_introl eq_refl)).
Defined.

End PromptExtras.

(* ================================================================== *)
(** * More on the chat agent *)
(* ================================================================== *)

Module AgentFacts.
Import PyStr Ingest Retriever Prompt Chat Spec Terms PyStrFacts ChatFacts
       RetrieverFacts.
Section WithCollaborators.
Context {B : Backend} {G : Generator}.

(** Without a history the rewrite step does nothing. *)
Lemma rewrite_skipped_without_history (query : str) (st : state) :
  conversation_history (self st) = [] ->
  _rewrite_query_if_needed query st = (Ok query, st).
Proof.
  intros H. unfold _rewrite_query_if_needed, bind, get_self, ret.
  rewrite H. simpl. now rewrite orb_true_r.
Qed.

(** In generation mode a call of [answer_query] raises, whatever is
    retrieved. *)
Lemma generation_call_raises (query : str) (st : state) :
  fallback_mode (self st) = false ->
  exists e st',
    answer_query query st = (Raise e, st') /\ self st' = self st.
Proof.
  intros Hm. rewrite answer_query_steps.
  destruct (rewrite_returns query st) as (sq & st1 & -> & Hself).
  rewrite Hself.
  destruct (retrieve (retriever (self st)) sq (top_k (self st)))
    as [rs|e]; [rewrite Hm|]; eauto.
Qed.

(** In fallback mode a call of [answer_query] is the retrieval for the
    query followed by the rendering, recorded as a turn. *)
Lemma fallback_call (query : str) (st : state) :
  fallback_mode (self st) = true ->
  answer_query query st
  = match retrieve (retriever (self st)) query (top_k (self st)) with
    | Ok rs =>
        (Ok (_generate_fallback_response query rs),
         snd (append_history
                (query, _generate_fallback_response query rs) st))
    | Raise e => (Raise e, st)
    end.
Proof.
  intros Hm.
  rewrite answer_query_steps, (rewrite_skipped_in_fallback query st Hm).
  destruct (retrieve (retriever (self st)) query (top_k (self st)));
    [now rewrite Hm | reflexivity].
Qed.

(** A generation-mode agent with no turn on record is left exactly as it
    was by every call. *)
Lemma fresh_generation_agent_is_fixed (c : call) (st : state) :
  fallback_mode (self st) = false ->
  conversation_history (self st) = [] ->
  after c st = st.
Proof.
  intros Hm Hh. destruct c as [q| |]; simpl.
  - rewrite answer_query_steps, (rewrite_skipped_without_history q st Hh).
    destruct (retrieve (retriever (self st)) q (top_k (self st)));
      [now rewrite Hm | reflexivity].
  - destruct st as [a sent0]. destruct a. simpl in *. now subst.
  - reflexivity.
Qed.

End WithCollaborators.
End AgentFacts.

Module AgentExtras.
Import PyStr Ingest Retriever Prompt Chat Spec Terms PyStrFacts ChatFacts
       RetrieverFacts AgentFacts Examples.

(** X10. The mode of the agent is decided at construction and never
    changes: after any sequence of calls, returning or raising, the agent
    is in fallback mode exactly when it was built without an API key or
    its model could not be set up. *)
Theorem mode_is_decided_at_construction {B : Backend} {G : Generator}
    (r : VectorRetriever) (gemini_api_key : option str) (model_name : str)
    (k : Z) (dbg : bool) (cs : list call) (sent0 : list str) :
  fallback_mode
    (self (after_all cs
             (mkState (Chat.__init__ r gemini_api_key model_name k dbg)
                      sent0)))
  = match gemini_api_key with
    | None => true
    | Some key =>
        match make_model key model_name with
        | Ok _ => false
        | Raise _ => true
        end
    end.
Proof.
  rewrite mode_is_for_life. unfold Chat.__init__. cbn [self].
  destruct gemini_api_key as [key|]; [|reflexivity].
  destruct (make_model key model_name); reflexivity.
Qed.

(** X11. In generation mode [answer_query] never returns an answer: for
    every query it raises, and it leaves the agent, its history included,
    as it was. *)
Theorem generation_mode_never_answers {B : Backend} {G : Generator}
    (query : str) (st : state) :
  fallback_mode (self st) = false ->
  raises (fst (answer_query query st)) /\
  self (snd (answer_query query st)) = self st.
Proof.
  intros Hm.
  destruct (generation_call_raises query st Hm) as (e & st' & -> & Hself).
  split; [exists e; reflexivity | exact Hself].
Qed.

Lemma generation_mode_never_answers_witness :
  raises (fst (answer_query (lit "And what about them?")
                            generating_agent_mid_conversation)) /\
  self (snd (answer_query (lit "And what about them?")
                          generating_agent_mid_conversation))
  = self generating_agent_mid_conversation.
Proof.
  apply (@generation_mode_never_answers length_backend failing_generator
           (lit "And what about them?") generating_agent_mid_conversation).
  reflexivity.
Defined.

(** X12. An agent built with an API key whose model was set up is never
    changed by any sequence of calls: no turn is ever recorded and no
    prompt is ever sent to the generator. *)
Theorem generation_agent_never_reaches_generator
    {B : Backend} {G : Generator}
    (r : VectorRetriever) (key model_name : str) (k : Z) (dbg : bool)
    (m : Model) (cs : list call) (sent0 : list str) :
  make_model key model_name = Ok m ->
  after_all cs (mkState (Chat.__init__ r (Some key) model_name k dbg) sent0)
  = mkState (Chat.__init__ r (Some key) model_name k dbg) sent0 /\
  conversation_history (Chat.__init__ r (Some key) model_name k dbg) = [] /\
  sent (after_all cs
          (mkState (Chat.__init__ r (Some key) model_name k dbg) sent0))
  = sent0.
Proof.
  intros Hmk.
  assert (Hinit : Chat.__init__ r (Some key) model_name k dbg
                  = mkAgent r k dbg (Some key) false (Some m) []).
  { unfold Chat.__init__. now rewrite Hmk. }
  rewrite Hinit.
  assert (Hfix : forall cs' st,
             fallback_mode (self st) = false ->
             conversation_history (self st) = [] ->
             after_all cs' st = st).
  { unfold after_all. induction cs' as [|c cs' IH]; intros st Hm Hh;
      [reflexivity|].
    simpl. rewrite (fresh_generation_agent_is_fixed c st Hm Hh).
    now apply IH. }
  rewrite Hfix by reflexivity. auto.
Qed.

Lemma generation_agent_never_reaches_generator_witness :
  after_all [AnswerQuery (lit "What is the main topic?"); ResetHistory;
             AnswerQuery (lit "And what about them?")]
            generating_agent
  = generating_agent /\
  conversation_history (self generating_agent) = [] /\
  sent (after_all [AnswerQuery (lit "What is the main topic?"); ResetHistory;
                   AnswerQuery (lit "And what about them?")]
                  generating_agent)
  = [].
Proof.
  apply (@generation_agent_never_reaches_generator
           length_backend failing_generator
           two_chunk_retriever (lit "key") (lit "gemini-1.5-pro") 2 true tt
           [AnswerQuery (lit "What is the main topic?"); ResetHistory;
            AnswerQuery (lit "And what about them?")] []).
  reflexivity.
Defined.

(** X13. In fallback mode the answer to a query depends on the retriever,
    on [top_k] and on the query alone, not on the conversation so far; a
    call that returns adds exactly the turn of the query and its answer at
    the end of the history, a call that raises changes nothing, and
    neither sends anything to the generator. *)
Theorem fallback_answers_ignore_history {B : Backend} {G : Generator}
    (query : str) (st1 st2 : state) :
  fallback_mode (self st1) = true ->
  fallback_mode (self st2) = true ->
  retriever (self st1) = retriever (self st2) ->
  top_k (self st1) = top_k (self st2) ->
  fst (answer_query query st1) = fst (answer_query query st2) /\
  sent (snd (answer_query query st1)) = sent st1 /\
  match fst (answer_query query st1) with
  | Ok answer =>
      conversation_history (self (snd (answer_query query st1)))
      = conversation_history (self st1) ++ [(query, answer)]
  | Raise _ => snd (answer_query query st1) = st1
  end.
Proof.
  intros H1 H2 Hr Hk.
  rewrite (fallback_call query st1 H1), (fallback_call query st2 H2).
  rewrite <- Hr, <- Hk.
  destruct (retrieve (retriever (self st1)) query (top_k (self st1)));
    repeat split; reflexivity.
Qed.

Lemma fallback_answers_ignore_history_witness :
  fst (answer_query (lit "What is the population of Mars?") keyless_agent)
  = fst (answer_query (lit "What is the population of Mars?")
           (snd (answer_query (lit "Who wrote it?") keyless_agent))) /\
  sent (snd (answer_query (lit "What is the population of Mars?")
                          keyless_agent))
  = sent keyless_agent /\
  match fst (answer_query (lit "What is the population of Mars?")
                          keyless_agent) with
  | Ok answer =>
      conversation_history
        (self (snd (answer_query (lit "What is the population of Mars?")
                                 keyless_agent)))
      = conversation_history (self keyless_agent)
        ++ [(lit "What is the population of Mars?", answer)]
  | Raise _ =>
      snd (answer_query (lit "What is the population of Mars?")
                        keyless_agent)
      = keyless_agent
  end.
Proof.
  apply (@fallback_answers_ignore_history length_backend refusing_generator
           (lit "What is the population of Mars?") keyless_agent
           (snd (answer_query (lit "Who wrote it?") keyless_agent)));
    vm_compute; reflexivity.
Defined.

(** X14. The rewrite step never raises and never changes the agent. It
    either returns the query as it came and sends nothing, or sends one
    prompt to the generator and returns the stripped response, or the
    query when the generator raised. *)
Theorem rewrite_never_blocks {B : Backend} {G : Generator}
    (query : str) (st : state) :
  exists r st',
    _rewrite_query_if_needed query st = (Ok r, st') /\
    self st' = self st /\
    ((r = query /\ st' = st) \/
     exists m prompt,
       model (self st) = Some m /\
       st' = mkState (self st) (sent st ++ [prompt]) /\
       match generate_content m (sent st) prompt with
       | Ok response => r = strip response
       | Raise _ => r = query
       end).
Proof.
  unfold _rewrite_query_if_needed, bind, get_self, ret, try_except, lift.
  destruct (fallback_mode (self st)
            || negb (truthy (conversation_history (self st))));
    [exists query, st; auto|].
  destruct (negb (needs_rewrite query)); [exists query, st; auto|].
  destruct (rewrite_query_with_history query (conversation_history (self st)))
    as [prompt|e]; [|exists query, st; auto].
  unfold call_model. destruct (model (self st)) as [m|] eqn:Em;
    [|exists query, st; auto].
  destruct (generate_content m (sent st) prompt) as [response|e] eqn:Eg.
  - exists (strip response), (mkState (self st) (sent st ++ [prompt])).
    split; [reflexivity|]. split; [reflexivity|]. right.
    exists m, prompt. rewrite Eg. auto.
  - exists query, (mkState (self st) (sent st ++ [prompt])).
    split; [reflexivity|]. split; [reflexivity|]. right.
    exists m, prompt. rewrite Eg. auto.
Qed.

End AgentExtras.

(* ================================================================== *)
(** * The interactive loop and the test run *)
(* ================================================================== *)

Module SessionFacts.
Import PyStr Ingest Retriever Prompt Chat Session Spec Terms PyStrFacts
       ChatFacts RetrieverFacts AgentFacts.
Section WithCollaborators.
Context {B : Backend} {G : Generator}.

Lemma after_all_cons (c : call) (cs : list call) (st : state) :
  after_all (c :: cs) st = after_all cs (after c st).
Proof. reflexivity. Qed.

(** Input that holds neither a quit word nor an interrupt keeps the loop
    going for ever: at the end of the input every turn reports an error
    and starts the next. *)
Lemma chat_loop_goes_on (fuel : nat) (inputs : list keyboard) (st : state)
    (out : list printed) :
  existsb stops inputs = false ->
  chat_loop_fuel fuel inputs st out = None.
Proof.
  revert inputs st out.
  induction fuel as [|fuel IH]; intros inputs st out H; [reflexivity|].
  destruct inputs as [|[line|] rest]; cbn [chat_loop_fuel].
  - now apply IH.
  - simpl in H. apply orb_false_iff in H as [Hq Hrest]. unfold is_quit in Hq.
    destruct (truthy (strip line)); cbn [negb andb] in *; [|now apply IH].
    rewrite Hq.
    destruct (answer_query (strip line) st) as [[answer|e] st'];
      now apply IH.
  - discriminate H.
Qed.

(** Input that holds one is read up to it: the questions before it are put
    to the agent in order, one item is printed for each, and a last one at
    the stop. *)
Lemma chat_loop_runs (inputs : list keyboard) :
  existsb stops inputs = true ->
  forall fuel st out,
    (List.length inputs < fuel)%nat ->
    exists transcript,
      chat_loop_fuel fuel inputs st out
      = Some (after_all (map AnswerQuery (questions inputs)) st,
              out ++ transcript) /\
      List.length transcript = S (List.length (questions inputs)).
Proof.
  induction inputs as [|[line|] rest IH]; intros H fuel st out Hfuel.
  - discriminate H.
  - destruct fuel as [|fuel]; [simpl in Hfuel; lia|].
    cbn [chat_loop_fuel questions]. unfold is_quit. simpl in H, Hfuel.
    unfold is_quit in H.
    destruct (truthy (strip line)) eqn:Et; cbn [negb andb] in *.
    + destruct (mem (lower (strip line)) quit_words) eqn:Eq.
      * exists [Goodbye]. split; reflexivity.
      * cbn [map]. rewrite after_all_cons. cbn [after].
        assert (Hfuel' : (List.length rest < fuel)%nat) by lia.
        destruct (answer_query (strip line) st) as [[answer|e] st'];
          cbn [snd].
        -- destruct (IH H fuel st' (out ++ [Assistant answer]) Hfuel')
             as (transcript & Hrun & Hlen).
           rewrite Hrun, <- app_assoc.
           exists (Assistant answer :: transcript).
           split; [reflexivity|]. simpl. now rewrite Hlen.
        -- destruct (IH H fuel st' (out ++ [Error e]) Hfuel')
             as (transcript & Hrun & Hlen).
           rewrite Hrun, <- app_assoc.
           exists (Error e :: transcript).
           split; [reflexivity|]. simpl. now rewrite Hlen.
    + apply IH; [exact H | lia].
  - destruct fuel as [|fuel]; [simpl in Hfuel; lia|].
    exists [Interrupted]. split; reflexivity.
Qed.

(** An agent in fallback mode over an index that was built, asked for a
    positive number of chunks. *)
Definition ready (st : state) : Prop :=
  fallback_mode (self st) = true /\
  (exists chunks, build_index new chunks = Ok (retriever (self st))) /\
  (0 < top_k (self st))%Z.

(** Such an agent answers, and is such an agent afterwards, one turn on. *)
Lemma ready_call (query : str) (st : state) :
  ready st ->
  exists answer st',
    answer_query query st = (Ok answer, st') /\
    ready st' /\
    sent st' = sent st /\
    conversation_history (self st')
    = conversation_history (self st) ++ [(query, answer)].
Proof.
  intros (Hm & [chunks Hb] & Hk).
  destruct (retrieve_returns_top_k chunks (retriever (self st)) query
              (top_k (self st)) Hb Hk) as (rs & Hr & _).
  rewrite (fallback_call query st Hm), Hr.
  eexists _, _. split; [reflexivity|].
  unfold ready, append_history. cbn [snd self sent fallback_mode retriever
                                     top_k conversation_history].
  repeat split; eauto.
Qed.

(** A session of such an agent: every question is answered and recorded,
    nothing fails and nothing is sent to the generator. *)
Lemma ready_session (inputs : list keyboard) :
  existsb stops inputs = true ->
  forall fuel st out,
    (List.length inputs < fuel)%nat -> ready st ->
    exists st' transcript turns,
      chat_loop_fuel fuel inputs st out = Some (st', out ++ transcript) /\
      Forall no_error transcript /\
      sent st' = sent st /\
      conversation_history (self st')
      = conversation_history (self st) ++ turns /\
      map fst turns = questions inputs.
Proof.
  induction inputs as [|[line|] rest IH]; intros H fuel st out Hfuel Hready.
  - discriminate H.
  - destruct fuel as [|fuel]; [simpl in Hfuel; lia|].
    cbn [chat_loop_fuel questions]. unfold is_quit. simpl in H, Hfuel.
    unfold is_quit in H.
    destruct (truthy (strip line)) eqn:Et; cbn [negb andb] in *.
    + destruct (mem (lower (strip line)) quit_words) eqn:Eq.
      * exists st, [Goodbye], []. rewrite app_nil_r.
        repeat split; repeat constructor.
      * destruct (ready_call (strip line) st Hready)
          as (answer & st1 & -> & Hready1 & Hsent1 & Hhist1).
        assert (Hfuel' : (List.length rest < fuel)%nat) by lia.
        destruct (IH H fuel st1 (out ++ [Assistant answer])
                    Hfuel' Hready1)
          as (st' & transcript & turns & Hrun & Hok & Hsent & Hhist & Hq).
        exists st', (Assistant answer :: transcript),
               ((strip line, answer) :: turns).
        rewrite Hrun, <- app_assoc. split; [reflexivity|].
        split; [constructor; [exact I | exact Hok]|].
        split; [congruence|]. split.
        -- rewrite Hhist, Hhist1, <- app_assoc. reflexivity.
        -- simpl. now rewrite Hq.
    + apply IH; [exact H | lia | exact Hready].
  - destruct fuel as [|fuel]; [simpl in Hfuel; lia|].
    exists st, [Interrupted], []. rewrite app_nil_r.
    repeat split; repeat constructor.
Qed.

End WithCollaborators.
End SessionFacts.

Module SessionExtras.
Import PyStr Ingest Retriever Prompt Chat Session Spec Terms PyStrFacts
       ChatFacts RetrieverFacts AgentFacts SessionFacts ChunkerFacts Examples.

(** X15. [chat_loop] ends exactly when the input holds an interrupt or a
    line that, stripped and in lower case, is [quit], [exit] or [q]. On any
    other input it never ends: once the input is at its end, each turn
    reports the error of [input] and starts the next. *)
Theorem chat_loop_ends_iff_told_to {B : Backend} {G : Generator}
    (inputs : list keyboard) (st : state) (out : list printed) :
  (exists fuel r, chat_loop_fuel fuel inputs st out = Some r) <->
  existsb stops inputs = true.
Proof.
  split.
  - intros (fuel & r & Hrun).
    destruct (existsb stops inputs) eqn:E; [reflexivity|].
    rewrite (chat_loop_goes_on fuel inputs st out E) in Hrun.
    discriminate Hrun.
  - intros H.
    destruct (chat_loop_runs inputs H (S (List.length inputs)) st out
                (Nat.lt_succ_diag_r _)) as (transcript & Hrun & _).
    eauto.
Qed.



(** X17. The program without an API key, from the document to the end of
    the session. Under [chunk_size > chunk_overlap >= 0], with a page that
    is not blank, a positive [top_k] and input that ends the session: the
    document is chunked, the index is built, and the loop on the agent made
    of it answers every question; it prints no error, sends nothing to the
    generator, and leaves a history whose turns are the questions in
    order. *)
Theorem keyless_program_answers_every_question
    {B : Backend} {G : Generator}
    (ingestor : PDFIngestor) (reader_pages : list str) (i : nat) (t : str)
    (model_name : str) (k : Z) (dbg : bool) (inputs : list keyboard) :
  (0 <= chunk_overlap ingestor)%Z ->
  (chunk_overlap ingestor < chunk_size ingestor)%Z ->
  nth_error reader_pages i = Some t -> strip t <> [] ->
  (0 < k)%Z ->
  existsb stops inputs = true ->
  exists chunks r st' transcript,
    ingest_pdf ingestor reader_pages = Some chunks /\
    build_index new chunks = Ok r /\
    chat_loop_fuel (S (List.length inputs)) inputs
      (mkState (Chat.__init__ r None model_name k dbg) []) []
    = Some (st', transcript) /\
    Forall no_error transcript /\
    sent st' = [] /\
    map fst (conversation_history (self st')) = questions inputs.
Proof.
  intros H0 H1 Hi Hne Hk Hstop.
  destruct (nonblank_page_has_chunk ingestor reader_pages i t H0 H1 Hi Hne)
    as (chunks & Hing & c & Hc & _).
  assert (Hb : exists r, build_index new chunks = Ok r).
  { unfold build_index. destruct chunks; [destruct Hc | simpl; eauto]. }
  destruct Hb as [r Hb].
  destruct (ready_session inputs Hstop (S (List.length inputs))
              (mkState (Chat.__init__ r None model_name k dbg) []) []
              (Nat.lt_succ_diag_r _))
    as (st' & transcript & turns & Hrun & Hok & Hsent & Hhist & Hq).
  { unfold ready. simpl. eauto. }
  exists chunks, r, st', transcript.
  simpl in Hrun, Hsent, Hhist. rewrite Hhist.
  repeat split; assumption.
Qed.

Lemma keyless_program_answers_every_question_witness :
  exists chunks r st' transcript,
    ingest_pdf (mkPDFIngestor 4 1) [lit "abcdef"; lit "   "; lit "gh"]
    = Some chunks /\
    build_index (B := length_backend) new chunks = Ok r /\
    chat_loop_fuel (S (List.length [Typed (lit "Who wrote it?"); CtrlC]))
      [Typed (lit "Who wrote it?"); CtrlC]
      (mkState
         (Chat.__init__ (G := refusing_generator) r None
                        (lit "gemini-1.5-pro") 5 true) []) []
    = Some (st', transcript) /\
    Forall no_error transcript /\
    sent st' = [] /\
    map fst (conversation_history (self st'))
    = questions [Typed (lit "Who wrote it?"); CtrlC].
Proof.
  apply (@keyless_program_answers_every_question
           length_backend refusing_generator
           (mkPDFIngestor 4 1) [lit "abcdef"; lit "   "; lit "gh"]
           0%nat (lit "abcdef") (lit "gemini-1.5-pro") 5 true
           [Typed (lit "Who wrote it?"); CtrlC]);
    try reflexivity; try (simpl; lia).
  vm_compute. discriminate.
Defined.

End SessionExtras.

Module ValidationFacts.
Import PyStr Ingest Retriever Prompt Validate Chat ValidationRun Spec Terms
       PyStrFacts ChatFacts AgentFacts.
Section WithCollaborators.
Context {B : Backend} {G : Generator}.

(** In generation mode a test fails, and the agent stays in that mode. *)
Lemma run_test_fails (t : test) (st : state) :
  fallback_mode (self st) = false ->
  exists st',
    run_test t st = (Ok (failed t), st') /\
    fallback_mode (self st') = false.
Proof.
  intros Hm.
  destruct (generation_call_raises (question t) st Hm)
    as (e & st' & Hcall & Hself).
  exists st'. unfold run_test, try_except, bind. rewrite Hcall.
  split; [reflexivity | now rewrite Hself].
Qed.

Lemma run_tests_fail (tests : list test) (results : list outcome)
    (st : state) :
  fallback_mode (self st) = false ->
  exists st',
    run_tests tests results st = (Ok (results ++ map failed tests), st') /\
    fallback_mode (self st') = false.
Proof.
  revert results st.
  induction tests as [|t rest IH]; intros results st Hm.
  - exists st. simpl. rewrite app_nil_r. auto.
  - destruct (run_test_fails t st Hm) as (st1 & Hrun & Hm1).
    destruct (IH (results ++ [failed t]) st1 Hm1) as (st' & Hrest & Hm').
    exists st'. cbn [run_tests]. unfold bind at 1. rewrite Hrun, Hrest.
    rewrite <- app_assoc. auto.
Qed.

Lemma run_follow_up_fails (st : state) :
  fallback_mode (self st) = false ->
  exists st',
    run_follow_up st
    = (Ok (mkOutcome (lit "Multi-turn Conversation") false false false), st').
Proof.
  intros Hm.
  assert (Hm' : fallback_mode (self (snd (reset_history st))) = false)
    by exact Hm.
  destruct (generation_call_raises (lit "What is this document about?")
              (snd (reset_history st)) Hm') as (e & st' & Hcall & _).
  exists st'. unfold run_follow_up, try_except, bind at 1.
  unfold reset_history at 1. unfold bind at 1.
  unfold reset_history in Hcall. cbn [snd] in Hcall. rewrite Hcall.
  reflexivity.
Qed.

End WithCollaborators.
End ValidationFacts.

Module ValidationExtras.
Import PyStr Ingest Retriever Prompt Validate Chat ValidationRun Spec Terms
       PyStrFacts ChatFacts AgentFacts ValidationFacts Examples.

(** X18. On an agent in generation mode the validation run cannot pass:
    each of the four questions and the follow-up conversation end in an
    exception, five outcomes are recorded, none of them passed, and
    [run_validation_tests] returns false. *)
Theorem validation_fails_in_generation_mode {B : Backend} {G : Generator}
    (st : state) :
  fallback_mode (self st) = false ->
  exists outcomes,
    fst (validation_outcomes st) = Ok outcomes /\
    List.length outcomes = 5%nat /\
    Forall (fun o => passed o = false) outcomes /\
    fst (run_validation_tests st) = Ok false.
Proof.
  intros Hm.
  destruct (run_tests_fail test_questions [] st Hm) as (st1 & Hrun & Hm1).
  destruct (run_follow_up_fails st1 Hm1) as (st2 & Hfollow).
  assert (Hout : validation_outcomes st
                 = (Ok (map failed test_questions
                        ++ [mkOutcome (lit "Multi-turn Conversation")
                                      false false false]), st2)).
  { unfold validation_outcomes, bind at 1. rewrite Hrun.
    unfold bind at 1. rewrite Hfollow. reflexivity. }
  eexists. rewrite Hout. split; [reflexivity|].
  split; [reflexivity|]. split; [repeat constructor|].
  unfold run_validation_tests, bind. rewrite Hout. reflexivity.
Qed.

Lemma validation_fails_in_generation_mode_witness :
  exists outcomes,
    fst (validation_outcomes generating_agent) = Ok outcomes /\
    List.length outcomes = 5%nat /\
    Forall (fun o => passed o = false) outcomes /\
    fst (run_validation_tests generating_agent) = Ok false.
Proof.
  apply (@validation_fails_in_generation_mode
           length_backend failing_generator generating_agent).
  reflexivity.
Defined.

End ValidationExtras.

(* ================================================================== *)
(** * More on the retriever *)
(* ================================================================== *)

Module RankingFacts.
Import PyStr Ingest Retriever Spec Terms PyStrFacts RetrieverFacts.
Section WithBackend.
Context {B : Backend}.

Hypothesis ltb_asym :
  forall a b : score, score_ltb a b = true -> score_ltb b a = false.
Hypothesis geb_trans :
  forall a b c : score,
    score_ltb a b = false -> score_ltb b c = false -> score_ltb a c = false.

Lemma rank_insert_perm (h : Faiss.hit) (l : list Faiss.hit) :
  Permutation (Faiss.rank_insert h l) (h :: l).
Proof.
  induction l as [|h' rest IH]; simpl; [reflexivity|].
  destruct (score_ltb (snd h) (snd h')); [|reflexivity].
  etransitivity; [apply perm_skip, IH | apply perm_swap].
Qed.

Lemma ranked_perm (hits : list Faiss.hit) :
  Permutation (fold_right Faiss.rank_insert [] hits) hits.
Proof.
  induction hits as [|h hits IH]; simpl; [reflexivity|].
  etransitivity; [apply rank_insert_perm | now apply perm_skip].
Qed.

Lemma rank_insert_sorted (h : Faiss.hit) (l : list Faiss.hit) :
  StronglySorted above l -> StronglySorted above (Faiss.rank_insert h l).
Proof.
  induction 1 as [|h' rest Hs IH Hall]; simpl.
  - repeat constructor.
  - destruct (score_ltb (snd h) (snd h')) eqn:E.
    + constructor; [exact IH|].
      eapply Permutation_Forall;
        [symmetry; apply rank_insert_perm|].
      constructor; [exact (ltb_asym _ _ E) | exact Hall].
    + constructor; [now constructor|].
      constructor; [exact E|].
      eapply Forall_impl; [|exact Hall].
      intros r Hr. exact (geb_trans _ _ _ E Hr).
Qed.

Lemma ranked_sorted (hits : list Faiss.hit) :
  StronglySorted above (fold_right Faiss.rank_insert [] hits).
Proof.
  induction hits; simpl; [constructor | now apply rank_insert_sorted].
Qed.

(** In a sorted list whatever comes first is above whatever comes later. *)
Lemma sorted_app_above (l1 l2 : list Faiss.hit) :
  StronglySorted above (l1 ++ l2) ->
  forall a b, In a l1 -> In b l2 -> above a b.
Proof.
  induction l1 as [|x l1 IH]; simpl; intros Hs a b Ha Hb; [destruct Ha|].
  inversion Hs as [|? ? Hs' Hall]; subst.
  destruct Ha as [->|Ha].
  - rewrite Forall_forall in Hall. apply Hall, in_or_app. now right.
  - now apply IH.
Qed.

Lemma sorted_prefix (l1 l2 : list Faiss.hit) :
  StronglySorted above (l1 ++ l2) -> StronglySorted above l1.
Proof.
  induction l1 as [|x l1 IH]; simpl; intros Hs; [constructor|].
  inversion Hs as [|? ? Hs' Hall]; subst.
  constructor; [now apply IH|].
  apply Forall_app in Hall. tauto.
Qed.

(** ** Labels *)

Lemma label_from_length (i : Z) (scores : list score) :
  List.length (Faiss.label_from i scores) = List.length scores.
Proof.
  revert i. induction scores; intros i; simpl; [reflexivity | now rewrite IHscores].
Qed.

Lemma label_from_In (i j : Z) (s : score) (scores : list score) :
  In (j, s) (Faiss.label_from i scores) <->
  (i <= j)%Z /\ nth_error scores (Z.to_nat (j - i)) = Some s.
Proof.
  revert i. induction scores as [|s0 scores IH]; intros i; simpl.
  - split; [tauto|]. intros [_ H]. destruct (Z.to_nat (j - i)); discriminate.
  - rewrite IH. split.
    + intros [Heq|[Hle Hn]].
      * injection Heq as <- <-. rewrite Z.sub_diag. simpl. split; [lia|auto].
      * split; [lia|].
        replace (Z.to_nat (j - i)) with (S (Z.to_nat (j - (i + 1)))) by lia.
        exact Hn.
    + intros [Hle Hn].
      destruct (Z.eq_dec i j) as [->|Hne].
      * rewrite Z.sub_diag in Hn. simpl in Hn. injection Hn as ->. now left.
      * right. split; [lia|].
        replace (Z.to_nat (j - i)) with (S (Z.to_nat (j - (i + 1)))) in Hn
          by lia.
        exact Hn.
Qed.

Lemma label_from_NoDup (i : Z) (scores : list score) :
  NoDup (map fst (Faiss.label_from i scores)).
Proof.
  revert i. induction scores as [|s0 scores IH]; intros i; simpl;
    constructor; [|apply IH].
  intros Hin. apply in_map_iff in Hin as ([j s] & Hj & Hin).
  simpl in Hj. subst j. apply label_from_In in Hin. lia.
Qed.

(** The scores the index computes for a query are the similarities of the
    chunks, position by position. *)
Lemma score_of_chunk (query : str) (chunks : list PDFChunk) (j : nat)
    (s : score) :
  nth_error (map (inner_product (encode query))
                 (map encode (map text chunks))) j = Some s <->
  exists c, nth_error chunks j = Some c /\ s = similarity query c.
Proof.
  rewrite !map_map, nth_error_map. unfold similarity.
  destruct (nth_error chunks j) as [c|]; simpl; split.
  - intros H. injection H as <-. eauto.
  - intros (c' & H & ->). now injection H as ->.
  - discriminate.
  - intros (c' & H & _). discriminate.
Qed.

(** ** The loop of [retrieve] on rows that are positions *)

Lemma retrieve_loop_aligned (chunks : list PDFChunk)
    (rows : list (Z * score)) (acc : list (PDFChunk * score)) :
  Forall (fun h => (0 <= fst h < len chunks)%Z) rows ->
  exists res,
    retrieve_loop chunks rows acc = Ok (acc ++ res) /\
    Forall2 (fun h pr =>
               nth_error chunks (Z.to_nat (fst h)) = Some (fst pr) /\
               snd pr = snd h)
            rows res.
Proof.
  intros Hrows. revert acc.
  induction Hrows as [|[idx sc] rows Hh _ IH]; intros acc; simpl.
  - exists []. rewrite app_nil_r. split; [reflexivity | constructor].
  - simpl in Hh.
    destruct (Z.ltb_spec idx (len chunks)); [|lia].
    unfold PyStr.index.
    destruct (Z.ltb_spec idx 0); [lia|].
    destruct (Z.leb_spec 0 idx); [|lia].
    destruct (Z.ltb_spec idx (len chunks)); [|lia]. simpl.
    destruct (nth_error chunks (Z.to_nat idx)) as [c|] eqn:E.
    + destruct (IH (acc ++ [(c, sc)])) as (res & Hr & HF).
      exists ((c, sc) :: res). rewrite Hr, <- app_assoc.
      split; [reflexivity|]. constructor; [simpl; auto | exact HF].
    + apply nth_error_None in E. unfold len in *. lia.
Qed.

End WithBackend.
End RankingFacts.

Module RetrieverExtras.
Import PyStr Ingest Retriever Spec Terms PyStrFacts RetrieverFacts
       RankingFacts Examples.

(** X19. Retrieval within the index. Let the order of scores be
    asymmetric with a transitive "not below". On an index built from
    chunks, for [0 < top_k <= len(chunks)], [retrieve] returns exactly
    [top_k] pairs: the chunks at [top_k] distinct positions, each with its
    own similarity to the query, by descending score, and no chunk left out
    scores above one that was returned. *)
Theorem retrieve_returns_the_nearest {B : Backend}
    (chunks : list PDFChunk) (r : VectorRetriever) (query : str)
    (top_k : Z) :
  (forall a b : score, score_ltb a b = true -> score_ltb b a = false) ->
  (forall a b c : score,
      score_ltb a b = false -> score_ltb b c = false ->
      score_ltb a c = false) ->
  build_index new chunks = Ok r ->
  (0 < top_k <= len chunks)%Z ->
  exists results positions,
    retrieve r query top_k = Ok results /\
    len results = top_k /\
    NoDup positions /\
    Forall2 (fun j pr =>
               nth_error chunks j = Some (fst pr) /\
               snd pr = similarity query (fst pr))
            positions results /\
    descending (map snd results) /\
    forall j c,
      nth_error chunks j = Some c -> ~ In j positions ->
      Forall (fun pr => score_ltb (snd pr) (similarity query c) = false)
             results.
Proof.
  intros Hasym Htrans Hb [Hk0 Hkn]. unfold build_index in Hb.
  destruct chunks as [|c0 chunks']; [discriminate Hb|].
  cbn [truthy negb] in Hb. injection Hb as <-.
  set (chunks := c0 :: chunks') in *.
  set (scores := map (inner_product (encode query))
                     (map encode (map text chunks))).
  set (hits := Faiss.label_from 0 scores).
  set (ranked := fold_right Faiss.rank_insert [] hits).
  set (found := firstn (Z.to_nat top_k) ranked).
  assert (Hlen_scores : List.length scores = List.length chunks)
    by (unfold scores; now rewrite !length_map).
  assert (Hperm : Permutation ranked hits) by apply ranked_perm.
  assert (Hlen_ranked : List.length ranked = List.length chunks).
  { rewrite (Permutation_length Hperm). unfold hits.
    now rewrite label_from_length. }
  assert (Hlen_found : List.length found = Z.to_nat top_k).
  { unfold found. rewrite length_firstn, Hlen_ranked. unfold len in Hkn. lia. }
  assert (Hsplit : ranked = found ++ skipn (Z.to_nat top_k) ranked)
    by (unfold found; now rewrite firstn_skipn).
  assert (Hsorted : StronglySorted above ranked)
    by (apply ranked_sorted; assumption).
  assert (Hhit : forall j s, In (j, s) ranked <->
             (0 <= j)%Z /\
             exists c, nth_error chunks (Z.to_nat j) = Some c /\
                       s = similarity query c).
  { intros j s. split.
    - intros Hin. apply (Permutation_in _ Hperm) in Hin.
      apply label_from_In in Hin as [Hj Hn]. rewrite Z.sub_0_r in Hn.
      split; [exact Hj|]. now apply score_of_chunk.
    - intros [Hj Hc]. apply (Permutation_in _ (Permutation_sym Hperm)).
      apply label_from_In. rewrite Z.sub_0_r.
      split; [exact Hj|]. now apply score_of_chunk. }
  assert (Hfound_in : forall h, In h found -> In h ranked).
  { intros h Hh. rewrite Hsplit. apply in_or_app. now left. }
  assert (Hrange : Forall (fun h => (0 <= fst h < len chunks)%Z) found).
  { apply Forall_forall. intros [j s] Hh. simpl.
    apply Hfound_in, Hhit in Hh as (Hj & c & Hc & _).
    split; [exact Hj|].
    assert (Z.to_nat j < List.length chunks)%nat
      by (apply nth_error_Some; congruence).
    unfold len. lia. }
  destruct (retrieve_loop_aligned chunks found [] Hrange)
    as (results & Hloop & HF).
  assert (Hretrieve :
    retrieve (mkVectorRetriever (Some (map encode (map text chunks))) chunks)
             query top_k = Ok results).
  { unfold retrieve, Faiss.search. cbn [index Retriever.chunks].
    destruct (Z.leb_spec top_k 0); [lia|].
    fold scores. fold hits. fold ranked. fold found.
    rewrite Hlen_found, Nat.sub_diag. cbn [repeat]. rewrite app_nil_r.
    rewrite combine_fst_snd. exact Hloop. }
  exists results, (map (fun h => Z.to_nat (fst h)) found).
  split; [exact Hretrieve|].
  assert (Hlen_results : List.length results = List.length found)
    by (symmetry; exact (Forall2_length HF)).
  split; [unfold len; rewrite Hlen_results, Hlen_found; lia|].
  assert (Hnodup_ranked : NoDup (map fst ranked)).
  { eapply Permutation_NoDup;
      [apply Permutation_map, Permutation_sym, Hperm|].
    apply label_from_NoDup. }
  assert (Hnodup_found : NoDup (map fst found)).
  { rewrite Hsplit, map_app in Hnodup_ranked.
    now apply NoDup_app_remove_r in Hnodup_ranked. }
  split.
  { (* distinct positions *)
    rewrite <- (map_map fst Z.to_nat).
    assert (Hnn : Forall (fun z => (0 <= z)%Z) (map fst found)).
    { apply Forall_map. eapply Forall_impl; [|exact Hrange].
      simpl. intros h Hh. lia. }
    revert Hnodup_found Hnn. generalize (map fst found) as zs.
    induction zs as [|z zs IHz]; intros Hnd Hnn; simpl; [constructor|].
    inversion Hnd; subst. inversion Hnn; subst.
    constructor; [|now apply IHz].
    intros Hin. apply in_map_iff in Hin as (z' & Hz & Hin').
    assert (z' = z).
    { rewrite Forall_forall in H4. specialize (H4 z' Hin'). lia. }
    subst z'. contradiction. }
  split.
  { (* each pair is a chunk with its own similarity *)
    assert (Hsim : Forall (fun h => exists c,
                     nth_error chunks (Z.to_nat (fst h)) = Some c /\
                     snd h = similarity query c) found).
    { apply Forall_forall. intros [j s] Hh.
      apply Hfound_in, Hhit in Hh as (_ & c & Hc & Hs). simpl. eauto. }
    clear - HF Hsim. induction HF as [|h pr found' results' [Hn Hs] _ IH].
    - constructor.
    - inversion Hsim as [|? ? (c & Hc & Hsc) Hsim']; subst.
      simpl. constructor; [|now apply IH].
      split; [exact Hn|]. rewrite Hs, Hsc. congruence. }
  split.
  { (* descending *)
    assert (Hsf : StronglySorted above found).
    { apply (sorted_prefix found (skipn (Z.to_nat top_k) ranked)).
      now rewrite <- Hsplit. }
    assert (Hmap : map snd results = map snd found).
    { clear - HF. induction HF as [|h pr ? ? [_ Hs] _ IH]; simpl;
        [reflexivity | now rewrite Hs, IH]. }
    unfold descending. rewrite Hmap. clear - Hsf.
    induction Hsf as [|h l _ IH Hall]; simpl; constructor; [exact IH|].
    apply Forall_map. exact Hall. }
  (* nothing left out is better *)
  intros j c Hc Hnot.
  assert (Hin : In (Z.of_nat j, similarity query c) ranked).
  { apply Hhit. split; [lia|]. exists c. now rewrite Nat2Z.id. }
  rewrite Hsplit in Hin. apply in_app_or in Hin as [Hin|Hin].
  - exfalso. apply Hnot. apply in_map_iff.
    exists (Z.of_nat j, similarity query c). simpl.
    split; [apply Nat2Z.id | exact Hin].
  - assert (Habove : forall h, In h found ->
                       above h (Z.of_nat j, similarity query c)).
    { intros h Hh. apply (sorted_app_above found
                            (skipn (Z.to_nat top_k) ranked));
        [now rewrite <- Hsplit | exact Hh | exact Hin]. }
    clear - HF Habove. induction HF as [|h pr ? ? [_ Hs] _ IH];
      constructor.
    + rewrite Hs. apply (Habove h). now left.
    + apply IH. intros h' Hh'. apply Habove. now right.
Qed.

Lemma retrieve_returns_the_nearest_witness :
  exists results positions,
    retrieve (B := length_backend) two_chunk_retriever (lit "gamma") 1
    = Ok results /\
    len results = 1%Z /\
    NoDup positions /\
    Forall2 (fun j pr =>
               nth_error two_chunks j = Some (fst pr) /\
               snd pr = similarity (B := length_backend) (lit "gamma")
                                   (fst pr))
            positions results /\
    descending (B := length_backend) (map snd results) /\
    forall j c,
      nth_error two_chunks j = Some c -> ~ In j positions ->
      Forall (fun pr =>
                score_ltb (Backend := length_backend) (snd pr)
                  (similarity (B := length_backend) (lit "gamma") c)
                = false)
             results.
Proof.
  apply (@retrieve_returns_the_nearest length_backend two_chunks
           two_chunk_retriever (lit "gamma") 1).
  - simpl. intros a b H. apply Z.ltb_lt in H. apply Z.ltb_ge. lia.
  - simpl. intros a b c H1 H2. apply Z.ltb_ge in H1, H2. apply Z.ltb_ge. lia.
  - reflexivity.
  - vm_compute. split; [reflexivity | discriminate].
Defined.

End RetrieverExtras.

(* ================================================================== *)
(** * More on refusals and on the fallback rendering *)
(* ================================================================== *)

Module RenderingFacts.
Import PyStr Ingest Retriever Prompt Chat Spec Terms PyStrFacts
       ContainsFacts PromptFacts.
Section WithBackend.
Context {B : Backend}.

Lemma occurs_in_app_l (x s t : str) : occurs_in x s -> occurs_in x (s ++ t).
Proof.
  intros (b & a & ->). exists b, (a ++ t). now rewrite <- !app_assoc.
Qed.

(** The loop only adds to the response. *)
Lemma fallback_passages_keeps (x : str) (i : Z)
    (chunks : list (PDFChunk * score)) (response : str) :
  occurs_in x response -> occurs_in x (fallback_passages i chunks response).
Proof.
  revert i response.
  induction chunks as [|[c sc] rest IH]; intros i response H;
    cbn [fallback_passages]; [exact H|].
  apply IH. apply occurs_in_app_l.
  destruct (500 <? len (text c))%Z;
    repeat apply occurs_in_app_l; exact H.
Qed.

(** The loop keeps what the response began with. *)
Lemma fallback_passages_extends (i : Z) (chunks : list (PDFChunk * score))
    (response : str) :
  exists rest, fallback_passages i chunks response = response ++ rest.
Proof.
  revert i response.
  induction chunks as [|[c sc] rest IH]; intros i response;
    cbn [fallback_passages]; [exists []; now rewrite app_nil_r|].
  match goal with
  | |- exists r, fallback_passages _ _ ?resp = _ =>
      destruct (IH (i + 1)%Z resp) as [more ->]
  end.
  destruct (500 <? len (text c))%Z; eexists;
    rewrite <- !app_assoc; reflexivity.
Qed.

(** The passage of a chunk, whole, is in the response when the loop is
    done: the header with the number of the passage, the page and the
    score, the head of the text, the dots when the text was cut, and the
    empty line. *)
Lemma fallback_passages_shows (i : Z) (chunks : list (PDFChunk * score))
    (response : str) (j : nat) (c : PDFChunk) (sc : score) :
  nth_error chunks j = Some (c, sc) ->
  occurs_in (lit "--- Passage " ++ of_int (i + Z.of_nat j) ++ lit " (Page "
             ++ of_int (page_number c) ++ lit ", Similarity: "
             ++ format_3f sc ++ lit ") ---" ++ nl
             ++ slice (text c) 0 500
             ++ (if (500 <? len (text c))%Z then lit "..." ++ nl else nl)
             ++ nl)
            (fallback_passages i chunks response).
Proof.
  revert i response j.
  induction chunks as [|[c' sc'] rest IH]; intros i response j Hj;
    [destruct j; discriminate Hj|].
  destruct j as [|j]; cbn [nth_error] in Hj.
  - injection Hj as -> ->. cbn [fallback_passages].
    apply fallback_passages_keeps.
    change (Z.of_nat 0) with 0%Z. rewrite Z.add_0_r.
    exists response, [].
    destruct (500 <? len (text c))%Z;
      rewrite app_nil_r, <- !app_assoc; reflexivity.
  - cbn [fallback_passages].
    replace (i + Z.of_nat (S j))%Z with (i + 1 + Z.of_nat j)%Z by lia.
    now apply IH.
Qed.

End WithBackend.
End RenderingFacts.

Module RenderingExtras.
Import PyStr Ingest Retriever Prompt Validate Chat Spec Terms PyStrFacts
       ContainsFacts PromptFacts RenderingFacts Examples.

(** X9. The two tests for a refusal compared. Whatever response the
    validator takes for a refusal, [is_not_found_response] takes for one
    too; and a response that holds the sentence [Not found in the
    document.], whatever stands before and after it, is a refusal to both
    and is valid. *)
Theorem refusal_sentence_is_recognised :
  (forall response,
      is_not_found (validate_response_format response) = true ->
      is_not_found_response response = true) /\
  (forall before after,
      is_not_found_response (before ++ NOT_FOUND ++ after) = true /\
      is_not_found (validate_response_format (before ++ NOT_FOUND ++ after))
      = true /\
      valid (validate_response_format (before ++ NOT_FOUND ++ after))
      = true).
Proof.
  assert (Hnarrow : forall response,
             is_not_found (validate_response_format response) = true ->
             is_not_found_response response = true).
  { intros response H.
    apply (proj1 (proj2 RefusalClaims.refusal_classification_parts response))
      in H.
    apply (proj2 (proj1 RefusalClaims.refusal_classification_parts response)).
    exists (lit "not found in the document"). split; [simpl; tauto|].
    destruct H as (b & a & ->). exists (lower b), (lower a).
    unfold lower. now rewrite !map_app. }
  split; [exact Hnarrow|]. intros before after.
  assert (Hv : is_not_found
                 (validate_response_format (before ++ NOT_FOUND ++ after))
               = true).
  { apply (proj2 (proj2 RefusalClaims.refusal_classification_parts _)).
    exists before, (lit "." ++ after). unfold NOT_FOUND.
    cbn [lit list_ascii_of_string app]. reflexivity. }
  split; [now apply Hnarrow|]. split; [exact Hv|].
  unfold validate_response_format in *. cbn [is_not_found valid] in *.
  now rewrite Hv.
Qed.

(** X20. The fallback rendering shows every chunk retrieved. The response
    opens with the banner and the number of passages found; and for the
    pair at each position of the result it holds the whole passage: the
    header [--- Passage i (Page p, Similarity: s) ---] with [i] the position
    counted from 1, [p] the page number of the chunk and [s] the score as
    the conversion [.3f] writes it, then the first 500 characters of the
    text of the chunk, three dots when the text is longer than that, and an
    empty line. *)
Theorem fallback_rendering_shows_every_chunk {B : Backend}
    (query : str) (chunks : list (PDFChunk * score))
    (j : nat) (c : PDFChunk) (sc : score) :
  nth_error chunks j = Some (c, sc) ->
  (exists rest,
      _generate_fallback_response query chunks
      = lit "[FALLBACK MODE - Retrieval Only]" ++ nl ++ nl
        ++ lit "Found " ++ of_int (len chunks) ++ lit " relevant passages:"
        ++ nl ++ nl ++ rest) /\
  occurs_in (lit "--- Passage " ++ of_int (1 + Z.of_nat j) ++ lit " (Page "
             ++ of_int (page_number c) ++ lit ", Similarity: "
             ++ format_3f sc ++ lit ") ---" ++ nl
             ++ slice (text c) 0 500
             ++ (if (500 <? len (text c))%Z then lit "..." ++ nl else nl)
             ++ nl)
            (_generate_fallback_response query chunks).
Proof.
  intros Hj. unfold _generate_fallback_response.
  destruct chunks as [|p rest]; [destruct j; discriminate Hj|].
  cbn [truthy negb]. split.
  - match goal with
    | |- exists r, fallback_passages _ _ ?resp ++ _ = _ =>
        destruct (fallback_passages_extends 1 (p :: rest) resp) as [more ->]
    end.
    eexists. rewrite <- !app_assoc. reflexivity.
  - apply occurs_in_app_l. now apply fallback_passages_shows.
Qed.

Lemma fallback_rendering_shows_every_chunk_witness :
  (exists rest,
      _generate_fallback_response (B := length_backend)
        (lit "gamma")
        [ (mkPDFChunk (lit "beta gamma") 1 1, 50%Z);
          (mkPDFChunk (lit "alpha") 1 0, 25%Z) ]
      = lit "[FALLBACK MODE - Retrieval Only]" ++ nl ++ nl
        ++ lit "Found " ++ lit "2" ++ lit " relevant passages:"
        ++ nl ++ nl ++ rest) /\
  occurs_in (lit "--- Passage 2 (Page 1, Similarity: 25.000) ---" ++ nl
             ++ lit "alpha" ++ nl ++ nl)
            (_generate_fallback_response (B := length_backend)
               (lit "gamma")
               [ (mkPDFChunk (lit "beta gamma") 1 1, 50%Z);
                 (mkPDFChunk (lit "alpha") 1 0, 25%Z) ]).
Proof.
  apply (@fallback_rendering_shows_every_chunk length_backend (lit "gamma")
           [ (mkPDFChunk (lit "beta gamma") 1 1, 50%Z);
             (mkPDFChunk (lit "alpha") 1 0, 25%Z) ]
           1%nat (mkPDFChunk (lit "alpha") 1 0) 25%Z).
  reflexivity.
Defined.

End RenderingExtras.
